(** * SPI NOR flash programming scripts: a shallow embedding

    The two scripts [python/spi_flash_read.py] and [python/spi_flash_write.py]
    drive an SPI NOR flash through [BPIOSPI.configure] and [BPIOSPI.transfer].
    Python integers are unbounded, so addresses and sizes are [Z]; [bytes]
    values are [list byte]; a command is a Python list of integers,
    [list Z].  The SPI adapter is an interface (class [SpiDevice]); every
    call the scripts make on it, every [print], every [time.sleep] and every
    write to the dump file is recorded as an event, in program order.

    The [while] loops take a step budget ([fuel]): a run that is still
    looping when the budget is used up ends in [OutOfFuel], with the events
    so far.  The status loops of the scripts have no bound of their own, so
    results about runs that end say how much budget is enough.

    Wall-clock readings ([time.time()]) only feed the text of messages,
    with one exception: the final report of the reader divides by the time
    that has passed.  That reading, and whether the dump file can be opened
    for writing, are what the reader finds on its host ([Host]).  Calls on
    the adapter are taken to return, printing and writing to a file that is
    open to succeed, and the input file of the writer, when it exists, to
    be readable.  The rendering done by [show_progress] is left out: only
    the call is recorded. *)

From Stdlib Require Import ZArith List Bool Lia Sorted.
From Stdlib.Strings Require Import Byte.
Import ListNotations.
Local Open Scope Z_scope.

(** ** Python values *)

Definition byte_to_Z (b : byte) : Z := Z.of_N (Byte.to_N b).

(** [len(x)] *)
Definition len {A : Type} (l : list A) : Z := Z.of_nat (length l).

(** What [transfer] hands back: [bytes], or [None] when the adapter failed. *)
Definition Response : Type := option (list byte).

(** Truthiness of a response: [None] and [b''] are falsy. *)
Definition truthy (r : Response) : bool :=
  match r with
  | Some (_ :: _) => true
  | _ => false
  end.

Definition resp_len (r : Response) : Z :=
  match r with
  | Some l => len l
  | None => 0
  end.

Fixpoint bytes_eqb (a b : list byte) : bool :=
  match a, b with
  | [], [] => true
  | x :: a', y :: b' => Byte.eqb x y && bytes_eqb a' b'
  | _, _ => false
  end.

(** [actual_data != expected_data] with [expected_data] a [bytes] value. *)
Definition resp_differs (actual_data : Response) (expected_data : list byte) : bool :=
  match actual_data with
  | Some l => negb (bytes_eqb l expected_data)
  | None => true
  end.

(** ** Events *)

Record SpiConfig : Type := mkSpiConfig {
  speed : Z;
  clock_polarity : bool;
  clock_phase : bool;
  chip_select_idle : bool;
  psu_enable : bool;
  psu_set_mv : Z;
  psu_set_ma : Z;
  pullup_enable : bool
}.

(** One call of [spi.transfer]; [read_bytes = None] when the keyword is
    left out, as for write-enable, chip-erase and page-program. *)
Record Xfer : Type := mkXfer {
  write_data : list Z;
  read_bytes : option Z;
  response : Response
}.

Inductive Label : Type := Reading | Writing | Verifying.

(** The [print] statements of the two scripts (and [show_progress]). *)
Inductive Msg : Type :=
| MsgErasingStart
| MsgErasingElapsed
| MsgEraseCompleted
| MsgWritingFile (megabytes : Z)
| MsgWriteCompleted
| MsgVerifyingStart
| MsgVerificationFailed (address : Z)
| MsgVerificationCompleted
| MsgFileNotFound
| MsgSizeExceeded (file_size flash_size : Z)
| MsgSpiConfigured (speed : Z)
| MsgConfigFailed
| MsgReadingFlash (megabytes : Z)
| MsgChunkSize (chunk_size : Z)
| MsgReadFailed (address : Z)
| MsgReadSuccess (address : Z)
| MsgAverageSpeed
| MsgProgress (current total : Z) (operation_name : Label).

Inductive Event : Type :=
| EvConfigure (options : SpiConfig) (ok : bool)
| EvTransfer (x : Xfer)
| EvSleep (milliseconds : Z)
| EvPrint (m : Msg)
| EvOpenWrite
| EvFileWrite (data : list byte).

Inductive Exn : Type :=
| ZeroDivisionError
| OSError.

(** What [read_spi_flash] finds on the host it runs on: whether
    [open(filename, 'wb')] succeeds, and [total_time], what
    [time.time() - start_time] gives after the loop, in ticks of the clock
    (zero when the clock shows the same time as before the loop). *)
Record Host : Type := mkHost {
  output_opens : bool;
  total_time : Z
}.

(** Outcome of running a piece of script: it returned a value, raised, or
    was still looping when the step budget ran out. *)
Inductive Res (A : Type) : Type :=
| Ret (a : A)
| Raise (e : Exn)
| OutOfFuel.
Arguments Ret {A} a.
Arguments Raise {A} e.
Arguments OutOfFuel {A}.

(** How a loop inside a function body ends: it falls through to the code
    after it (carrying [address]), or the function returns from inside. *)
Inductive Flow : Type :=
| Continue (address : Z)
| Return (value : bool).

(** ** The adapter interface *)

Class SpiDevice (T : Type) : Type := {
  configure : T -> SpiConfig -> bool * T;
  transfer : T -> list Z -> option Z -> Response * T
}.

(** ** Command bytes, as the scripts build them *)

Definition WRITE_ENABLE : list Z := [0x06].
Definition CHIP_ERASE : list Z := [0xC7].
Definition READ_STATUS : list Z := [0x05].

(** [[0x03, (address >> 16) & 0xFF, (address >> 8) & 0xFF, address & 0xFF]] *)
Definition read_cmd (address : Z) : list Z :=
  [0x03; Z.land (Z.shiftr address 16) 0xFF;
         Z.land (Z.shiftr address 8) 0xFF;
         Z.land address 0xFF].

(** [[0x02, ...]] followed by [cmd.extend(page_data)] *)
Definition page_program_cmd (address : Z) (page_data : list byte) : list Z :=
  [0x02; Z.land (Z.shiftr address 16) 0xFF;
         Z.land (Z.shiftr address 8) 0xFF;
         Z.land address 0xFF] ++ map byte_to_Z page_data.

(** [status_data and len(status_data) == 1] and then
    [(status_data[0] & 0x01) == 0] *)
Definition wip_cleared (status_data : Response) : bool :=
  truthy status_data && (resp_len status_data =? 1) &&
  match status_data with
  | Some (b :: _) => Z.land (byte_to_Z b) 0x01 =? 0
  | _ => false
  end.

(** ** The scripts *)

Section Scripts.

Context {T : Type} `{SpiDevice T}.

Record Run (A : Type) : Type := mkRun {
  res : Res A;
  dev : T;
  events : list Event
}.
Arguments mkRun {A} res dev events.
Arguments res {A} r.
Arguments dev {A} r.
Arguments events {A} r.

Definition M (A : Type) : Type := T -> Run A.

Definition ret {A : Type} (a : A) : M A := fun d => mkRun (Ret a) d [].

Definition bind {A B : Type} (m : M A) (k : A -> M B) : M B :=
  fun d =>
    let r := m d in
    match res r with
    | Ret a => let r' := k a (dev r) in
               mkRun (res r') (dev r') (events r ++ events r')
    | Raise e => mkRun (Raise e) (dev r) (events r)
    | OutOfFuel => mkRun OutOfFuel (dev r) (events r)
    end.

Definition raise {A : Type} (e : Exn) : M A := fun d => mkRun (Raise e) d [].
Definition out_of_fuel {A : Type} : M A := fun d => mkRun OutOfFuel d [].
Definition emit (evs : list Event) : M unit := fun d => mkRun (Ret tt) d evs.
Definition print (m : Msg) : M unit := emit [EvPrint m].
Definition when (c : bool) (m : M unit) : M unit := if c then m else ret tt.

Notation "x <- m ;; k" := (bind m (fun x => k))
  (at level 61, m at next level, right associativity).
Notation "m ;; k" := (bind m (fun _ => k))
  (at level 61, right associativity).

Definition spi_configure (options : SpiConfig) : M bool :=
  fun d => let p := configure d options in
           mkRun (Ret (fst p)) (snd p) [EvConfigure options (fst p)].

Definition spi_transfer (write_data : list Z) (read_bytes : option Z) : M Response :=
  fun d => let p := transfer d write_data read_bytes in
           mkRun (Ret (fst p)) (snd p)
                 [EvTransfer (mkXfer write_data read_bytes (fst p))].

(** The [while True] status loop of [erase_flash] and [write_flash]:
    [idle] is what the body does after a poll that did not [break]. *)
Fixpoint poll_status (fuel : nat) (idle : list Event) : M unit :=
  match fuel with
  | O => out_of_fuel
  | S fuel' =>
      status_data <- spi_transfer READ_STATUS (Some 1) ;;
      if wip_cleared status_data then ret tt
      else emit idle ;; poll_status fuel' idle
  end.

Definition erase_flash (fuel : nat) : M bool :=
  print MsgErasingStart ;;
  spi_transfer WRITE_ENABLE None ;;
  spi_transfer CHIP_ERASE None ;;
  poll_status fuel [EvSleep 500; EvPrint MsgErasingElapsed] ;;
  print MsgEraseCompleted ;;
  ret true.

Definition page_size : Z := 256.
Definition verify_chunk : Z := 512.

(** [f.read(n)] on an open file whose unread part is [f]. *)
Definition file_read (f : list byte) (n : Z) : list byte * list byte :=
  (firstn (Z.to_nat n) f, skipn (Z.to_nat n) f).

(** The page loop of [write_flash]. *)
Fixpoint write_pages (fuel : nat) (file_size total_pages : Z)
    (f : list byte) (address page_count : Z) : M unit :=
  match fuel with
  | O => out_of_fuel
  | S fuel' =>
      if address <? file_size then
        let (page_data, f) := file_read f page_size in
        match page_data with
        | [] => ret tt
        | _ :: _ =>
            spi_transfer WRITE_ENABLE None ;;
            spi_transfer (page_program_cmd address page_data) None ;;
            poll_status fuel' [EvSleep 1] ;;
            let address := address + len page_data in
            let page_count := page_count + 1 in
            when ((page_count =? 1) || (page_count mod 64 =? 0)
                  || (page_count =? total_pages))
                 (print (MsgProgress address file_size Writing)) ;;
            write_pages fuel' file_size total_pages f address page_count
        end
      else ret tt
  end.

(** The verification loop of [write_flash]. *)
Fixpoint verify_chunks (fuel : nat) (file_size : Z)
    (f : list byte) (address : Z) : M Flow :=
  match fuel with
  | O => out_of_fuel
  | S fuel' =>
      if address <? file_size then
        let (expected_data, f) := file_read f verify_chunk in
        match expected_data with
        | [] => ret (Continue address)
        | _ :: _ =>
            actual_data <- spi_transfer (read_cmd address) (Some (len expected_data)) ;;
            if resp_differs actual_data expected_data then
              print (MsgVerificationFailed address) ;;
              ret (Return false)
            else
              let address := address + len expected_data in
              when ((address mod (64 * 1024) =? 0) || (file_size <=? address))
                   (print (MsgProgress address file_size Verifying)) ;;
              verify_chunks fuel' file_size f address
        end
      else ret (Continue address)
  end.

(** [write_flash(spi, filename, verify)]; [file] is the content of
    [filename]. *)
Definition write_flash (fuel : nat) (file : list byte) (verify : bool) : M bool :=
  let file_size := len file in
  print (MsgWritingFile (file_size / (1024 * 1024))) ;;
  let total_pages := (file_size + page_size - 1) / page_size in
  write_pages fuel file_size total_pages file 0 0 ;;
  print MsgWriteCompleted ;;
  if verify then
    print MsgVerifyingStart ;;
    fl <- verify_chunks fuel file_size file 0 ;;
    match fl with
    | Return value => ret value
    | Continue _ =>
        print MsgVerificationCompleted ;;
        ret true
    end
  else ret true.

Definition spi_options (speed : Z) : SpiConfig :=
  mkSpiConfig speed false false true true 3300 0 true.

(** [write_spi_flash(client, filename, flash_size, speed, erase_chip, verify)];
    [file] is [None] when [filename] does not exist. *)
Definition write_spi_flash (fuel : nat) (file : option (list byte))
    (flash_size speed : Z) (erase_chip verify : bool) : M bool :=
  match file with
  | None => print MsgFileNotFound ;; ret false
  | Some content =>
      let file_size := len content in
      if flash_size <? file_size then
        print (MsgSizeExceeded file_size flash_size) ;;
        ret false
      else
        ok <- spi_configure (spi_options speed) ;;
        if ok then
          print (MsgSpiConfigured speed) ;;
          erased <- (if erase_chip then erase_flash fuel else ret true) ;;
          if negb erased then ret false
          else write_flash fuel content verify
        else
          print MsgConfigFailed ;;
          ret false
  end.

(** The chunk loop of [read_spi_flash]. *)
Fixpoint read_chunks (fuel : nat) (flash_size chunk_size total_chunks : Z)
    (address chunk_count : Z) : M Flow :=
  match fuel with
  | O => out_of_fuel
  | S fuel' =>
      if address <? flash_size then
        data <- spi_transfer (read_cmd address) (Some chunk_size) ;;
        if truthy data && (resp_len data =? chunk_size) then
          emit [EvFileWrite (match data with Some l => l | None => [] end)] ;;
          let address := address + chunk_size in
          let chunk_count := chunk_count + 1 in
          when ((chunk_count =? 1) || (chunk_count mod 256 =? 0)
                || (chunk_count =? total_chunks))
               (print (MsgProgress address flash_size Reading)) ;;
          read_chunks fuel' flash_size chunk_size total_chunks address chunk_count
        else
          print (MsgReadFailed address) ;;
          ret (Return false)
      else ret (Continue address)
  end.

(** [read_spi_flash(client, filename, flash_size, speed, chunk_size)] on
    [host].  After the loop [average_speed] is computed, which divides by
    [total_time], before the two lines of the report are printed. *)
Definition read_spi_flash (fuel : nat) (host : Host)
    (flash_size speed chunk_size : Z) : M bool :=
  ok <- spi_configure (spi_options speed) ;;
  if ok then
    print (MsgSpiConfigured speed) ;;
    print (MsgReadingFlash (flash_size / (1024 * 1024))) ;;
    print (MsgChunkSize chunk_size) ;;
    (if output_opens host then emit [EvOpenWrite] else raise OSError) ;;
    total_chunks <- (if chunk_size =? 0 then raise ZeroDivisionError
                     else ret (flash_size / chunk_size)) ;;
    fl <- read_chunks fuel flash_size chunk_size total_chunks 0 0 ;;
    match fl with
    | Return value => ret value
    | Continue address =>
        (if total_time host =? 0 then raise ZeroDivisionError else ret tt) ;;
        print (MsgReadSuccess address) ;;
        print MsgAverageSpeed ;;
        ret true
    end
  else
    print MsgConfigFailed ;;
    ret false.

End Scripts.

Arguments mkRun {T A} res dev events.
Arguments res {T A} r.
Arguments dev {T A} r.
Arguments events {T A} r.

(** ** What a trace shows *)

(** The [transfer] calls of a trace, in order. *)
Fixpoint xfers (evs : list Event) : list Xfer :=
  match evs with
  | [] => []
  | EvTransfer x :: evs' => x :: xfers evs'
  | _ :: evs' => xfers evs'
  end.

(** What was printed. *)
Fixpoint prints (evs : list Event) : list Msg :=
  match evs with
  | [] => []
  | EvPrint m :: evs' => m :: prints evs'
  | _ :: evs' => prints evs'
  end.

(** The bytes written to the dump file. *)
Fixpoint sink (evs : list Event) : list byte :=
  match evs with
  | [] => []
  | EvFileWrite data :: evs' => data ++ sink evs'
  | _ :: evs' => sink evs'
  end.

(** What a call asked for: the command and the number of bytes to read. *)
Definition request (x : Xfer) : list Z * option Z := (write_data x, read_bytes x).

(** A read-status command asking for one byte. *)
Definition is_status_poll (x : Xfer) : Prop :=
  write_data x = [0x05] /\ read_bytes x = Some 1.

(** The opcode of a command is its first byte. *)
Definition opcode (x : Xfer) : Z := hd (-1) (write_data x).

(** How many of the calls carry opcode [op]. *)
Definition count_opcode (op : Z) (xs : list Xfer) : nat :=
  length (filter (fun x => opcode x =? op) xs).

(** ** Two adapters to run the scripts on *)

(** An adapter that answers from a script, one reply per call, and fails
    ([None]) once the script is used up. *)
Record Scripted : Type := mkScripted {
  accepts_config : bool;
  replies : list Response
}.

#[export] Instance scripted_device : SpiDevice Scripted := {
  configure d _ := (accepts_config d, d);
  transfer d _ _ :=
    match replies d with
    | [] => (None, d)
    | r :: rs => (r, mkScripted (accepts_config d) rs)
    end
}.

(** A small NOR flash behind a working adapter: program and erase keep the
    chip busy for a few status polls. *)
Record Chip : Type := mkChip {
  mem : Z -> byte;
  busy : nat;
  write_enabled : bool
}.

Definition chip_addr (a2 a1 a0 : Z) : Z := a2 * 65536 + a1 * 256 + a0.

Definition chip_read (m : Z -> byte) (a : Z) (n : nat) : list byte :=
  map (fun i => m (a + Z.of_nat i)) (seq 0 n).

Definition chip_program (m : Z -> byte) (a : Z) (data : list Z) : Z -> byte :=
  fun x =>
    if (a <=? x) && (x <? a + len data)
    then match Byte.of_N (Z.to_N (nth (Z.to_nat (x - a)) data 0)) with
         | Some b => b
         | None => x00
         end
    else m x.

Definition chip_transfer (c : Chip) (cmd : list Z) (n : option Z) : Response * Chip :=
  let count := Z.to_nat (match n with Some k => k | None => 0 end) in
  match cmd with
  | 0x05 :: _ =>
      (Some (repeat (match busy c with O => x00 | S _ => x01 end) count),
       mkChip (mem c) (pred (busy c)) (write_enabled c))
  | 0x06 :: _ => (Some [], mkChip (mem c) (busy c) true)
  | 0xC7 :: _ =>
      if write_enabled c
      then (Some [], mkChip (fun _ => xff) 3 false)
      else (Some [], c)
  | 0x02 :: a2 :: a1 :: a0 :: data =>
      if write_enabled c
      then (Some [], mkChip (chip_program (mem c) (chip_addr a2 a1 a0) data) 2 false)
      else (Some [], c)
  | 0x03 :: a2 :: a1 :: a0 :: _ =>
      (Some (chip_read (mem c) (chip_addr a2 a1 a0) count), c)
  | _ => (Some (repeat x00 count), c)
  end.

#[export] Instance chip_device : SpiDevice Chip := {
  configure c _ := (true, c);
  transfer := chip_transfer
}.

Definition blank_chip : Chip := mkChip (fun _ => xff) 0 false.

(** A host on which the dump file opens and the clock has moved on by the
    end of the run. *)
Definition working_host : Host := mkHost true 1500.

(** An adapter whose [configure] refuses. *)
Definition refusing_adapter : Scripted := mkScripted false [].

(** An adapter that accepts write-enable and chip-erase, loses the first
    status poll, and answers the second with "ready". *)
Definition absent_once : Scripted :=
  mkScripted true [Some []; Some []; None; Some [x00]].

(** An adapter that loses one call and answers the next with a zero byte. *)
Definition lossy_then_ready : Scripted := mkScripted true [None; Some [x00]].

(** An adapter that loses the verification read, and one that returns a
    wrong byte for it. *)
Definition loses_verify_read : Scripted :=
  mkScripted true [Some []; Some []; Some [x00]; None].

Definition returns_wrong_byte : Scripted :=
  mkScripted true [Some []; Some []; Some [x00]; Some [x42]].

(** 600 bytes [0xAA, 0xBB, 0xAA, 0xBB, ...], and a chip that holds them. *)
Definition pattern_600 : list byte := concat (repeat [xaa; xbb] 300).


(** ** Vocabulary for stating what the scripts do *)

Section StatusPolls.

Context {T : Type} `{SpiDevice T}.

(** One status poll of the adapter in state [d]. *)
Definition poll (d : T) : Response * T := transfer d READ_STATUS (Some 1).

Definition poll_xfer (d : T) : Xfer := mkXfer READ_STATUS (Some 1) (fst (poll d)).

(** [wip_clears d n]: polling from state [d], the [n]-th poll is the first
    that returns one byte with bit 0 clear.  Earlier polls may return
    anything else, [None] included. *)
Inductive wip_clears : T -> nat -> Prop :=
| clears_now (d : T) :
    wip_cleared (fst (poll d)) = true ->
    wip_clears d 1
| clears_later (d : T) (n : nat) :
    wip_cleared (fst (poll d)) = false ->
    wip_clears (snd (poll d)) n ->
    wip_clears d (S n).

(** The polls made from [d], and what the loop does around them. *)
Fixpoint poll_xfers (n : nat) (d : T) : list Xfer :=
  match n with
  | O => []
  | S m => poll_xfer d :: poll_xfers m (snd (poll d))
  end.

Fixpoint poll_events (idle : list Event) (n : nat) (d : T) : list Event :=
  match n with
  | O => []
  | S m =>
      EvTransfer (poll_xfer d) ::
      match m with
      | O => []
      | S _ => idle ++ poll_events idle m (snd (poll d))
      end
  end.

Fixpoint after_polls (n : nat) (d : T) : T :=
  match n with
  | O => d
  | S m => after_polls m (snd (poll d))
  end.

End StatusPolls.

(** The responses a finished wait has seen: not ready, ..., not ready, ready. *)
Inductive busy_wait_polls : list Xfer -> Prop :=
| waited_last (x : Xfer) :
    is_status_poll x ->
    wip_cleared (response x) = true ->
    busy_wait_polls [x]
| waited_more (x : Xfer) (xs : list Xfer) :
    is_status_poll x ->
    wip_cleared (response x) = false ->
    busy_wait_polls xs ->
    busy_wait_polls (x :: xs).

(** A read that came back with as many bytes as were asked for. *)
Definition read_ok (x : Xfer) : Prop :=
  exists l : list byte, response x = Some l /\ read_bytes x = Some (len l).

(** [n] reads of [chunk_size] bytes: the first at [address], each next one
    at the previous address plus the previous length. *)
Fixpoint read_plan (n : nat) (address chunk_size : Z) : list (list Z * option Z) :=
  match n with
  | O => []
  | S n' => (read_cmd address, Some chunk_size)
            :: read_plan n' (address + chunk_size) chunk_size
  end.

(** The addresses of that plan. *)
Fixpoint read_addresses (n : nat) (address chunk_size : Z) : list Z :=
  match n with
  | O => []
  | S n' => address :: read_addresses n' (address + chunk_size) chunk_size
  end.

(** The address a read or page-program command carries: its three address
    bytes, most significant first. *)
Definition address_of (cmd : list Z) : Z :=
  match cmd with
  | _ :: a2 :: a1 :: a0 :: _ => chip_addr a2 a1 a0
  | _ => 0
  end.

(** The addresses the read commands of a trace carry, in call order. *)
Definition read_wire_addresses (xs : list Xfer) : list Z :=
  map (fun x => address_of (write_data x)) xs.

(** The bytes the adapter returned, in call order. *)
Definition received (xs : list Xfer) : list byte :=
  flat_map (fun x => match response x with Some l => l | None => [] end) xs.

(** The throttled [show_progress] calls of the three loops. *)
Definition read_progress (flash_size total_chunks address chunk_count : Z) : list Event :=
  if (chunk_count =? 1) || (chunk_count mod 256 =? 0) || (chunk_count =? total_chunks)
  then [EvPrint (MsgProgress address flash_size Reading)]
  else [].

(** The verification chunk size as a list length. *)
Definition chunk_len : nat := Z.to_nat verify_chunk.

(** The [i]-th verification chunk of the file, and where it starts. *)
Definition chunk_at (file : list byte) (i : nat) : list byte :=
  firstn chunk_len (skipn (chunk_len * i) file).

Definition chunk_addr (i : nat) : Z := verify_chunk * Z.of_nat i.

Definition verify_progress (file_size address : Z) : list Event :=
  if (address mod (64 * 1024) =? 0) || (file_size <=? address)
  then [EvPrint (MsgProgress address file_size Verifying)]
  else [].

(** What a verification pass over [file] does from chunk [i] on: it reads
    chunk after chunk while the adapter returns the file's bytes, and stops
    at the first read that returns anything else. *)
Inductive verified (file : list byte) : nat -> list Event -> Flow -> Prop :=
| verified_end (i : nat) :
    (length file <= chunk_len * i)%nat ->
    verified file i [] (Continue (len file))
| verified_mismatch (i : nat) (actual : Response) :
    (chunk_len * i < length file)%nat ->
    actual <> Some (chunk_at file i) ->
    verified file i
      [EvTransfer (mkXfer (read_cmd (chunk_addr i))
                          (Some (len (chunk_at file i))) actual);
       EvPrint (MsgVerificationFailed (chunk_addr i))]
      (Return false)
| verified_chunk (i : nat) (evs : list Event) (fl : Flow) :
    (chunk_len * i < length file)%nat ->
    verified file (S i) evs fl ->
    verified file i
      (EvTransfer (mkXfer (read_cmd (chunk_addr i))
                          (Some (len (chunk_at file i)))
                          (Some (chunk_at file i)))
       :: verify_progress (len file) (chunk_addr i + len (chunk_at file i))
       ++ evs)
      fl.

(** The page size as a list length. *)
Definition page_len : nat := Z.to_nat page_size.

(** The transfers of a page loop over the unread bytes [f], next page at
    [address]: for each page of up to 256 bytes a write-enable, the
    page-program command with those bytes, then the polls of a finished
    busy-wait; the next page follows at [address] plus the page length. *)
Inductive page_blocks : list byte -> Z -> list Xfer -> Prop :=
| pages_done (address : Z) :
    page_blocks [] address []
| pages_more (f : list byte) (address : Z) (we pp : Xfer)
    (polls rest : list Xfer) :
    f <> [] ->
    request we = ([0x06], None) ->
    request pp = (page_program_cmd address (firstn page_len f), None) ->
    busy_wait_polls polls ->
    page_blocks (skipn page_len f) (address + len (firstn page_len f)) rest ->
    page_blocks f address (we :: pp :: polls ++ rest).

Definition write_progress (file_size total_pages address page_count : Z) : list Event :=
  if (page_count =? 1) || (page_count mod 64 =? 0) || (page_count =? total_pages)
  then [EvPrint (MsgProgress address file_size Writing)]
  else [].

(** Truthiness of a [bytes] value read from a file. *)
Definition nonempty {A : Type} (l : list A) : bool :=
  match l with
  | [] => false
  | _ :: _ => true
  end.

(** ** The command lines of the two flash scripts *)

(** What [main] prints itself, and what it does around the script: opening
    the client ([BPIOClient(args.port)]), closing it, and everything the
    script does in between. *)
Inductive CliMsg : Type :=
| CliBadSize
| CliBadChunk
| CliConnected
| CliError.

Inductive CliEvent : Type :=
| CliPrint (m : CliMsg)
| CliConnect
| CliClose
| CliScript (e : Event).

(** [main()] of [spi_flash_read.py] once the arguments are parsed; [client]
    is [None] when [BPIOClient(args.port)] raises.  The result is the exit
    code, or [None] while the script is still looping. *)
Definition read_main {T : Type} `{SpiDevice T} (fuel : nat) (host : Host)
    (size speed chunk : Z) (client : option T) : option Z * list CliEvent :=
  if size <=? 0 then (Some 1, [CliPrint CliBadSize])
  else if (chunk <=? 0) || (4096 <? chunk) then (Some 1, [CliPrint CliBadChunk])
  else
    match client with
    | None => (Some 1, [CliConnect; CliPrint CliError])
    | Some d =>
        let r := read_spi_flash fuel host size speed chunk d in
        let evs := CliConnect :: CliPrint CliConnected :: map CliScript (events r) in
        match res r with
        | Ret success => (Some (if success then 0 else 1), evs ++ [CliClose])
        | Raise _ => (Some 1, evs ++ [CliPrint CliError])
        | OutOfFuel => (None, evs)
        end
    end.


(** The script events inside a command-line trace. *)
Fixpoint script_events (evs : list CliEvent) : list Event :=
  match evs with
  | [] => []
  | CliScript e :: evs' => e :: script_events evs'
  | _ :: evs' => script_events evs'
  end.

(** The test of [read_spi_flash] on what a read returned:
    [data and len(data) == chunk_size]. *)
Definition accepted (chunk_size : Z) (x : Xfer) : bool :=
  truthy (response x) && (resp_len (response x) =? chunk_size).

(** The [j]-th page of a file, and the page data carried by a command. *)
Definition page_at (file : list byte) (j : nat) : list byte :=
  firstn page_len (skipn (page_len * j) file).

Definition is_page_program (x : Xfer) : bool := opcode x =? 0x02.

Definition payload (x : Xfer) : list Z := skipn 4 (write_data x).

(** The pages a file has: [ceil(len / 256)]. *)
Definition page_count_of (file : list byte) : nat :=
  Z.to_nat ((len file + 255) / 256).

(** A call of [show_progress(current, total, ...)] that can be rendered:
    [total] is what the loop runs up to, so the division [current / total]
    is defined, and [current] is positive and at most [total + slack]. *)
Definition progress_within (total slack : Z) (m : Msg) : Prop :=
  match m with
  | MsgProgress c t _ => t = total /\ 0 < t /\ 0 < c <= t + slack
  | _ => True
  end.

(** ** The 1-Wire example ([python/onewire_example.py]) *)

Module OneWire.

(** The keyword arguments of [BPIO1Wire.configure]. *)
Record Config : Type := mkConfig {
  pullup_enable : bool;
  psu_enable : bool;
  psu_set_mv : Z;
  psu_set_ma : Z
}.

(** The 1-Wire adapter: [reset()] returns [None] or something else, and
    the script only tells the two apart. *)
Class Adapter (T : Type) : Type := {
  configure : T -> Config -> bool * T;
  transfer : T -> list Z -> option Z -> Response * T;
  reset : T -> option bool * T
}.

Inductive Family : Type :=
| DS18S20 | DS18B20 | DS1822 | DS2438 | DS2413.

(** The [print] statements; a temperature is shown by its raw value, of
    which the Celsius figure is one sixteenth. *)
Inductive Msg : Type :=
| MsgConfigured (voltage : Z)
| MsgConfiguringSensor
| MsgStartingConversion
| MsgWaiting
| MsgReadingData
| MsgResults
| MsgRawData (bytes : list byte)
| MsgRawValue (temp_raw : Z)
| MsgCelsius (sixteenths : Z)
| MsgFahrenheit (sixteenths : Z)
| MsgScratchpad (data : list byte)
| MsgTH (b : Z)
| MsgTL (b : Z)
| MsgConfigRegister (b : Z)
| MsgReadFailed
| MsgConfigFailed
| MsgSearching
| MsgDetected
| MsgAttemptRom
| MsgRomCode (rom : list byte)
| MsgFamilyCode (family_code : Z)
| MsgSerialNumber (serial_number : list byte)
| MsgCrc (crc : Z)
| MsgDeviceType (family : Family)
| MsgUnknownFamily (family_code : Z)
| MsgRomFailed
| MsgNoDevices.

Inductive Event : Type :=
| EvConfigure (options : Config) (ok : bool)
| EvTransfer (x : Xfer)
| EvReset (result : option bool)
| EvSleep (milliseconds : Z)
| EvPrint (m : Msg).

(** [data[i]] on a [bytes] value that is long enough. *)
Definition byte_at (data : list byte) (i : nat) : Z := byte_to_Z (nth i data x00).

(** The conversion of the first two scratchpad bytes:
    [(temp_msb << 8) | temp_lsb], then the two's complement step. *)
Definition temp_raw_of (temp_lsb temp_msb : Z) : Z :=
  let temp_raw := Z.lor (Z.shiftl temp_msb 8) temp_lsb in
  if negb (Z.land temp_raw 0x8000 =? 0)
  then - (Z.lxor temp_raw 0xFFFF + 1)
  else temp_raw.

(** The [families] dictionary of [onewire_search_devices]. *)
Definition families : list (Z * Family) :=
  [(0x10, DS18S20); (0x28, DS18B20); (0x22, DS1822); (0x26, DS2438); (0x3A, DS2413)].

Fixpoint dict_get {V : Type} (d : list (Z * V)) (key : Z) : option V :=
  match d with
  | [] => None
  | (k, v) :: d' => if k =? key then Some v else dict_get d' key
  end.

Section Scripts.

Context {T : Type} `{Adapter T}.

Definition options (voltage : Z) : Config := mkConfig true true voltage 0.

(** [onewire_read_temperature(client, voltage)]: the value returned and
    what was done, in order. *)
Definition onewire_read_temperature (voltage : Z) (d : T) : bool * list Event :=
  let c := configure d (options voltage) in
  if fst c then
    let t1 := transfer (snd c) [0xCC; 0x4E; 0x00; 0x00; 0x7F] None in
    let t2 := transfer (snd t1) [0xCC; 0x44] None in
    let t3 := transfer (snd t2) [0xCC; 0xBE] (Some 9) in
    let data := fst t3 in
    let before :=
      [EvConfigure (options voltage) true;
       EvPrint (MsgConfigured voltage);
       EvPrint MsgConfiguringSensor;
       EvTransfer (mkXfer [0xCC; 0x4E; 0x00; 0x00; 0x7F] None (fst t1));
       EvPrint MsgStartingConversion;
       EvTransfer (mkXfer [0xCC; 0x44] None (fst t2));
       EvPrint MsgWaiting;
       EvSleep 800;
       EvPrint MsgReadingData;
       EvTransfer (mkXfer [0xCC; 0xBE] (Some 9) data)] in
    if truthy data && (2 <=? resp_len data) then
      let bytes := match data with Some l => l | None => [] end in
      let temp_lsb := byte_at bytes 0 in
      let temp_msb := byte_at bytes 1 in
      let temp_raw := temp_raw_of temp_lsb temp_msb in
      (true,
       before ++
       [EvPrint MsgResults;
        EvPrint (MsgRawData (firstn 2 bytes));
        EvPrint (MsgRawValue temp_raw);
        EvPrint (MsgCelsius temp_raw);
        EvPrint (MsgFahrenheit temp_raw)] ++
       (if 9 <=? len bytes then
          [EvPrint (MsgScratchpad bytes);
           EvPrint (MsgTH (byte_at bytes 2));
           EvPrint (MsgTL (byte_at bytes 3));
           EvPrint (MsgConfigRegister (byte_at bytes 4))]
        else []))
    else (false, before ++ [EvPrint MsgReadFailed])
  else (false, [EvConfigure (options voltage) false; EvPrint MsgConfigFailed]).

(** [onewire_search_devices(client, voltage)] *)
Definition onewire_search_devices (voltage : Z) (d : T) : bool * list Event :=
  let c := configure d (options voltage) in
  if fst c then
    let r := reset (snd c) in
    let before :=
      [EvConfigure (options voltage) true;
       EvPrint MsgSearching;
       EvReset (fst r)] in
    match fst r with
    | None =>
        let t := transfer (snd r) [0x33] (Some 8) in
        let rom_data := fst t in
        let asked :=
          [EvPrint MsgDetected;
           EvPrint MsgAttemptRom;
           EvTransfer (mkXfer [0x33] (Some 8) rom_data)] in
        if truthy rom_data && (resp_len rom_data =? 8) then
          let rom := match rom_data with Some l => l | None => [] end in
          let family_code := byte_at rom 0 in
          let serial_number := firstn 6 (skipn 1 rom) in
          let crc := byte_at rom 7 in
          (true,
           before ++ asked ++
           [EvPrint (MsgRomCode rom);
            EvPrint (MsgFamilyCode family_code);
            EvPrint (MsgSerialNumber serial_number);
            EvPrint (MsgCrc crc);
            EvPrint (match dict_get families family_code with
                     | Some family => MsgDeviceType family
                     | None => MsgUnknownFamily family_code
                     end)])
        else (true, before ++ asked ++ [EvPrint MsgRomFailed])
    | Some _ => (false, before ++ [EvPrint MsgNoDevices])
    end
  else (false, [EvConfigure (options voltage) false; EvPrint MsgConfigFailed]).

End Scripts.

(** The transfers of a trace. *)
Fixpoint xfers (evs : list Event) : list Xfer :=
  match evs with
  | [] => []
  | EvTransfer x :: evs' => x :: xfers evs'
  | _ :: evs' => xfers evs'
  end.

(** A sensor that answers the scratchpad read with [scratchpad]. *)
Record Sensor : Type := mkSensor {
  powered : bool;
  presence : option bool;
  scratchpad : Response
}.

#[export] Instance sensor_adapter : Adapter Sensor := {
  configure s _ := (powered s, s);
  transfer s cmd n := (match n with Some _ => scratchpad s | None => Some [] end, s);
  reset s := (presence s, s)
}.

End OneWire.

(** ** All the byte values, for checks that run over every byte *)

Definition all_bytes : list byte :=
  map (fun n => match Byte.of_N (N.of_nat n) with Some b => b | None => x00 end)
      (seq 0 256).

(** The reading of two bytes, least significant first, as a signed 16-bit
    number. *)
Definition signed16 (b0 b1 : byte) : Z :=
  let u := byte_to_Z b0 + 256 * byte_to_Z b1 in
  if u <? 32768 then u else u - 65536.

Definition temp_raw_agrees (b0 b1 : byte) : bool :=
  let r := OneWire.temp_raw_of (byte_to_Z b0) (byte_to_Z b1) in
  (r =? signed16 b0 b1) && (-32768 <=? r) && (r <=? 32767)
  && (r mod 65536 =? byte_to_Z b0 + 256 * byte_to_Z b1).

(** ** The EEPROM dump of the I2C example ([python/examples/i2c_example.py]) *)

From Stdlib Require Import Ascii.

Module I2C.

(** The keyword arguments of [BPIOI2C.configure]. *)
Record Config : Type := mkConfig {
  speed : Z;
  pullup_enable : bool;
  psu_enable : bool;
  psu_set_mv : Z;
  psu_set_ma : Z
}.

Class Adapter (T : Type) : Type := {
  configure : T -> Config -> bool * T;
  transfer : T -> list Z -> option Z -> Response * T
}.

(** Text is a list of characters. *)
Definition Text : Type := list ascii.

Inductive Msg : Type :=
| MsgReading (size device_addr : Z)
| MsgDumpHeader (count : Z)
| MsgLine (text : Text)
| MsgReadFailed
| MsgConfigFailed.

Inductive Event : Type :=
| EvConfigure (options : Config) (ok : bool)
| EvTransfer (x : Xfer)
| EvPrint (m : Msg).

(** *** Python's formatting, as the dump uses it *)

Definition hex_digit (d : Z) : ascii :=
  nth (Z.to_nat d)
      ["0"; "1"; "2"; "3"; "4"; "5"; "6"; "7";
       "8"; "9"; "A"; "B"; "C"; "D"; "E"; "F"]%char "?"%char.

(** The [n] low hexadecimal digits of [v], most significant first. *)
Fixpoint hex_digits (n : nat) (v : Z) : Text :=
  match n with
  | O => []
  | S n' => hex_digits n' (v / 16) ++ [hex_digit (v mod 16)]
  end.

(** The hexadecimal digits a non-negative number needs. *)
Definition hex_width (v : Z) : nat :=
  if v =? 0 then 1%nat else S (Z.to_nat (Z.log2 v / 4)).

(** [f"{v:0wX}"] for [v >= 0]: upper-case hexadecimal, zero-filled to at
    least [w] characters. *)
Definition format_X (w : nat) (v : Z) : Text :=
  hex_digits (Nat.max w (hex_width v)) v.

(** [f"{s:<w}"]: left-justified in a field of at least [w] characters. *)
Definition ljust (w : nat) (s : Text) : Text :=
  s ++ repeat " "%char (w - length s).

(** [sep.join(parts)] *)
Definition join (sep : Text) (parts : list Text) : Text :=
  match parts with
  | [] => []
  | p :: ps => p ++ flat_map (fun q => sep ++ q) ps
  end.

(** [chr(b) if 32 <= b < 127 else '.'] *)
Definition printable (b : byte) : ascii :=
  if (32 <=? byte_to_Z b) && (byte_to_Z b <? 127) then ascii_of_byte b else "."%char.

Definition hex_part (row : list byte) : Text :=
  join [" "%char] (map (fun b => format_X 2 (byte_to_Z b)) row).

Definition ascii_part (row : list byte) : Text := map printable row.

(** [f"{addr:04X}: {hex_part:<47} {ascii_part}"] *)
Definition dump_line (addr : Z) (row : list byte) : Text :=
  format_X 4 addr ++ [":"; " "]%char ++ ljust 47 (hex_part row)
  ++ [" "%char] ++ ascii_part row.

(** [data[i : min(i + 16, len(data))]] for the [k]-th [i] of
    [range(0, len(data), 16)]. *)
Definition dump_row (data : list byte) (k : nat) : list byte :=
  firstn 16 (skipn (16 * k) data).

(** The rows [range(0, len(data), 16)] goes through. *)
Definition row_count (data : list byte) : nat := Z.to_nat ((len data + 15) / 16).

Definition dump_lines (data : list byte) : list Text :=
  map (fun k => dump_line (16 * Z.of_nat k) (dump_row data k))
      (seq 0 (row_count data)).

Section Scripts.

Context {T : Type} `{Adapter T}.

Definition options : Config := mkConfig 400000 true true 3300 0.

(** [i2c_eeprom_dump(client, device_addr, size)] *)
Definition i2c_eeprom_dump (device_addr size : Z) (d : T) : bool * list Event :=
  let c := configure d options in
  if fst c then
    let t := transfer (snd c) [device_addr; 0x00] (Some size) in
    let data := fst t in
    let before :=
      [EvConfigure options true;
       EvPrint (MsgReading size device_addr);
       EvTransfer (mkXfer [device_addr; 0x00] (Some size) data)] in
    if truthy data then
      let bytes := match data with Some l => l | None => [] end in
      (true,
       before ++ EvPrint (MsgDumpHeader (len bytes))
       :: map (fun line => EvPrint (MsgLine line)) (dump_lines bytes))
    else (false, before ++ [EvPrint MsgReadFailed])
  else (false, [EvConfigure options false; EvPrint MsgConfigFailed]).

End Scripts.

(** *** Reading a dump line back *)

Definition hex_value (c : ascii) : option Z :=
  let n := Z.of_N (N_of_ascii c) in
  if (48 <=? n) && (n <=? 57) then Some (n - 48)
  else if (65 <=? n) && (n <=? 70) then Some (n - 55)
  else None.

(** The number a run of hexadecimal digits spells. *)
Fixpoint parse_hex (acc : Z) (s : Text) : option Z :=
  match s with
  | [] => Some acc
  | c :: s' =>
      match hex_value c with
      | Some d => parse_hex (16 * acc + d) s'
      | None => None
      end
  end.

(** The byte values of a hex field: pairs of digits, one character apart,
    up to the first thing that is not a pair of digits. *)
Fixpoint parse_hex_bytes (s : Text) : list Z :=
  match s with
  | h :: l :: tl =>
      match hex_value h, hex_value l with
      | Some a, Some b =>
          (16 * a + b) :: match tl with
                          | _ :: tl' => parse_hex_bytes tl'
                          | [] => []
                          end
      | _, _ => []
      end
  | _ => []
  end.

(** An EEPROM that answers every read with [contents]. *)
Record Eeprom : Type := mkEeprom {
  present : bool;
  contents : Response
}.

#[export] Instance eeprom_adapter : Adapter Eeprom := {
  configure e _ := (present e, e);
  transfer e _ _ := (contents e, e)
}.

End I2C.

(** A byte formatted with [:02X] is two digits that spell it. *)
Definition byte_hex_round_trip (b : byte) : bool :=
  match I2C.format_X 2 (byte_to_Z b) with
  | [h; l] =>
      match I2C.hex_value h, I2C.hex_value l with
      | Some x, Some y => 16 * x + y =? byte_to_Z b
      | _, _ => false
      end
  | _ => false
  end.

(** ** Basic facts *)

Lemma xfers_app (a b : list Event) : xfers (a ++ b) = xfers a ++ xfers b.
Proof.
  induction a as [|e a IH]; [reflexivity|].
  destruct e; simpl; rewrite IH; reflexivity.
Qed.

Lemma prints_app (a b : list Event) : prints (a ++ b) = prints a ++ prints b.
Proof.
  induction a as [|e a IH]; [reflexivity|].
  destruct e; simpl; rewrite IH; reflexivity.
Qed.

Lemma sink_app (a b : list Event) : sink (a ++ b) = sink a ++ sink b.
Proof.
  induction a as [|e a IH]; [reflexivity|].
  destruct e; simpl; rewrite IH; try reflexivity.
  apply app_assoc.
Qed.

Lemma land_255 (x : Z) : Z.land x 0xFF = x mod 256.
Proof. change 0xFF with (Z.ones 8). rewrite Z.land_ones by lia. reflexivity. Qed.

Lemma bytes_eqb_eq (a b : list byte) : bytes_eqb a b = true <-> a = b.
Proof.
  revert b; induction a as [|x a IH]; intros [|y b]; simpl; split;
    try congruence; try reflexivity.
  - intros E. apply andb_true_iff in E as [E1 E2].
    apply Byte.byte_dec_bl in E1. apply IH in E2. congruence.
  - intros E. injection E as -> ->. apply andb_true_iff. split.
    + apply Byte.byte_dec_lb. reflexivity.
    + apply IH. reflexivity.
Qed.

Lemma resp_differs_false (r : Response) (expected : list byte) :
  resp_differs r expected = false <-> r = Some expected.
Proof.
  destruct r as [l|]; simpl.
  - rewrite negb_false_iff, bytes_eqb_eq. split; congruence.
  - split; discriminate.
Qed.

Section Facts.

Context {T : Type} `{SpiDevice T}.

(** *** Running one statement *)

Lemma run_transfer {A : Type} (w : list Z) (n : option Z)
    (k : Response -> M A) (d : T) :
  bind (spi_transfer w n) k d =
  let p := transfer d w n in
  let r := k (fst p) (snd p) in
  mkRun (res r) (dev r) (EvTransfer (mkXfer w n (fst p)) :: events r).
Proof. reflexivity. Qed.

Lemma run_emit {A : Type} (evs : list Event) (k : unit -> M A) (d : T) :
  bind (emit evs) k d =
  mkRun (res (k tt d)) (dev (k tt d)) (evs ++ events (k tt d)).
Proof. reflexivity. Qed.

Lemma run_configure {A : Type} (o : SpiConfig) (k : bool -> M A) (d : T) :
  bind (spi_configure o) k d =
  let p := configure d o in
  let r := k (fst p) (snd p) in
  mkRun (res r) (dev r) (EvConfigure o (fst p) :: events r).
Proof. reflexivity. Qed.

Lemma run_raise {A B : Type} (e : Exn) (k : A -> M B) (d : T) :
  bind (raise e) k d = mkRun (Raise e) d [].
Proof. reflexivity. Qed.

Lemma run_ret {A B : Type} (a : A) (k : A -> M B) (d : T) :
  bind (ret a) k d = k a d.
Proof. unfold bind, ret. cbn. destruct (k a d); reflexivity. Qed.

Lemma run_bind {A B : Type} (m : M A) (k : A -> M B) (d : T) :
  bind m k d =
  match res (m d) with
  | Ret a => mkRun (res (k a (dev (m d)))) (dev (k a (dev (m d))))
                   (events (m d) ++ events (k a (dev (m d))))
  | Raise e => mkRun (Raise e) (dev (m d)) (events (m d))
  | OutOfFuel => mkRun OutOfFuel (dev (m d)) (events (m d))
  end.
Proof. reflexivity. Qed.

Lemma res_bind {A B : Type} (m : M A) (k : A -> M B) (d : T) :
  res (bind m k d) =
  match res (m d) with
  | Ret a => res (k a (dev (m d)))
  | Raise e => Raise e
  | OutOfFuel => OutOfFuel
  end.
Proof. unfold bind. destruct (res (m d)); reflexivity. Qed.

Lemma events_bind {A B : Type} (m : M A) (k : A -> M B) (d : T) :
  events (bind m k d) =
  events (m d) ++
  match res (m d) with
  | Ret a => events (k a (dev (m d)))
  | _ => []
  end.
Proof.
  unfold bind. destruct (res (m d)); simpl; auto using app_nil_r.
Qed.

Lemma run_when {A : Type} (c : bool) (m : Msg) (k : unit -> M A) (d : T) :
  bind (when c (print m)) k d =
  mkRun (res (k tt d)) (dev (k tt d))
        ((if c then [EvPrint m] else []) ++ events (k tt d)).
Proof. destruct c; reflexivity. Qed.

(** *** The status loop only ever polls *)

Lemma poll_status_only_polls (fuel : nat) (idle : list Event) (d : T) :
  xfers idle = [] ->
  Forall is_status_poll (xfers (events (poll_status fuel idle d))).
Proof.
  intros Hidle. revert d.
  induction fuel as [|fuel IH]; intros d; [constructor|].
  cbn [poll_status]. rewrite run_transfer. cbv zeta.
  destruct (wip_cleared (fst (transfer d READ_STATUS (Some 1)))); simpl.
  - repeat constructor.
  - constructor; [split; reflexivity|].
    rewrite xfers_app, Hidle. apply IH.
Qed.

Lemma poll_status_never_raises (fuel : nat) (idle : list Event) (d : T) (e : Exn) :
  res (poll_status fuel idle d) <> Raise e.
Proof.
  revert d. induction fuel as [|fuel IH]; intros d; [discriminate|].
  cbn [poll_status]. rewrite run_transfer. cbv zeta.
  destruct (wip_cleared (fst (transfer d READ_STATUS (Some 1)))); simpl;
    [discriminate|apply IH].
Qed.

End Facts.

(** One statement of a script, then the rest. *)
Ltac run_step :=
  first [rewrite run_transfer | rewrite run_emit | rewrite run_when
        | rewrite run_configure | rewrite run_ret];
  cbv zeta; cbn [res dev events].

(** ** Command bytes *)

(** C8. For every address [a] below [2^24] the read command is
    [0x03] followed by the three bytes [a >> 16 & 0xFF], [a >> 8 & 0xFF],
    [a & 0xFF]; these are bytes and spell [a] in big-endian order; the
    page-program command is [0x02], the same three bytes, then the page
    data; write-enable, chip-erase and read-status are the single bytes
    [0x06], [0xC7] and [0x05]. *)
Theorem command_bytes (a : Z) (Ha : 0 <= a < 2 ^ 24) :
  let b2 := Z.land (Z.shiftr a 16) 0xFF in
  let b1 := Z.land (Z.shiftr a 8) 0xFF in
  let b0 := Z.land a 0xFF in
  read_cmd a = [0x03; b2; b1; b0] /\
  (forall page_data : list byte,
     page_program_cmd a page_data = [0x02; b2; b1; b0] ++ map byte_to_Z page_data) /\
  (0 <= b2 < 256 /\ 0 <= b1 < 256 /\ 0 <= b0 < 256) /\
  b2 * 2 ^ 16 + b1 * 2 ^ 8 + b0 = a /\
  WRITE_ENABLE = [0x06] /\ CHIP_ERASE = [0xC7] /\ READ_STATUS = [0x05].
Proof.
  intros b2 b1 b0. subst b2 b1 b0.
  split; [reflexivity|]. split; [reflexivity|].
  rewrite !land_255, !Z.shiftr_div_pow2 by lia.
  change (2 ^ 16) with 65536. change (2 ^ 8) with 256.
  change (2 ^ 24) with 16777216 in Ha.
  split; [repeat split; apply Z.mod_pos_bound; lia|].
  split; [|repeat split; reflexivity].
  pose proof (Z.div_mod a 65536 ltac:(lia)) as E1.
  pose proof (Z.div_mod a 256 ltac:(lia)) as E2.
  pose proof (Z.mod_pos_bound a 256 ltac:(lia)) as B0.
  pose proof (Z.mod_pos_bound a 65536 ltac:(lia)) as B1.
  assert (E3 : a / 65536 = (a / 256) / 256).
  { rewrite Z.div_div by lia. reflexivity. }
  pose proof (Z.div_mod (a / 256) 256 ltac:(lia)) as E4.
  assert (S2 : (a / 65536) mod 256 = a / 65536).
  { apply Z.mod_small. split; [apply Z.div_pos; lia|].
    apply Z.div_lt_upper_bound; lia. }
  rewrite S2. lia.
Qed.

Lemma command_bytes_witness :
  read_cmd 0x123456 = [0x03; 0x12; 0x34; 0x56] /\
  page_program_cmd 0x123456 [xaa; xbb] = [0x02; 0x12; 0x34; 0x56; 0xAA; 0xBB].
Proof.
  pose proof (command_bytes 0x123456 ltac:(lia)) as (Hr & Hp & _).
  split; [exact Hr | exact (Hp [xaa; xbb])].
Defined.

(** ** Erase, pre-flight check and configuration *)

Section Session.

Context {T : Type} `{SpiDevice T}.

(** C9. Every run of [erase_flash] sends write-enable ([0x06]) and then
    chip-erase ([0xC7]); nothing is sent before or between them, and all
    later transfers are status polls. *)
Theorem erase_sends_write_enable_then_chip_erase (fuel : nat) (d : T) :
  exists (r1 r2 : Response) (rest : list Event),
    events (erase_flash fuel d) =
      EvPrint MsgErasingStart
      :: EvTransfer (mkXfer [0x06] None r1)
      :: EvTransfer (mkXfer [0xC7] None r2)
      :: rest
    /\ Forall is_status_poll (xfers rest).
Proof.
  unfold erase_flash, print.
  do 3 run_step. cbn [app].
  rewrite events_bind.
  do 3 eexists. split; [reflexivity|].
  rewrite xfers_app.
  apply Forall_app. split.
  - apply poll_status_only_polls. reflexivity.
  - destruct (res (poll_status _ _ _)); simpl; constructor.
Qed.

(** C4. A file larger than the flash is refused before anything is sent:
    [write_spi_flash] returns [False] after printing the size error; the
    adapter is neither configured nor used. *)
Theorem oversize_file_rejected (fuel : nat) (content : list byte)
    (flash_size speed : Z) (erase_chip verify : bool) (d : T) :
  flash_size < len content ->
  let r := write_spi_flash fuel (Some content) flash_size speed erase_chip verify d in
  res r = Ret false /\
  events r = [EvPrint (MsgSizeExceeded (len content) flash_size)] /\
  xfers (events r) = [] /\
  dev r = d.
Proof.
  intros Hbig. unfold write_spi_flash.
  apply Z.ltb_lt in Hbig. rewrite Hbig.
  repeat split; reflexivity.
Qed.

(** C7. When [configure] refuses, [read_spi_flash] and [write_spi_flash]
    (with or without the chip-erase stage, with or without verification)
    return [False] having printed the configuration error, and make no
    [transfer] call at all. *)
Theorem config_refused_no_transfers (fuel : nat) (host : Host) (d : T)
    (flash_size speed chunk_size : Z) (content : list byte)
    (erase_chip verify : bool) :
  fst (configure d (spi_options speed)) = false ->
  len content <= flash_size ->
  let failed := [EvConfigure (spi_options speed) false; EvPrint MsgConfigFailed] in
  let rd := read_spi_flash fuel host flash_size speed chunk_size d in
  let wr := write_spi_flash fuel (Some content) flash_size speed erase_chip verify d in
  (res rd = Ret false /\ events rd = failed /\ xfers (events rd) = []) /\
  (res wr = Ret false /\ events wr = failed /\ xfers (events wr) = []).
Proof.
  intros Hcfg Hfit. cbv zeta.
  assert (Hfit' : (flash_size <? len content) = false) by (apply Z.ltb_ge; lia).
  split.
  - unfold read_spi_flash, print. run_step. rewrite Hcfg. run_step.
    repeat split; reflexivity.
  - unfold write_spi_flash, print. rewrite Hfit'. run_step. rewrite Hcfg.
    run_step. repeat split; reflexivity.
Qed.

End Session.

Lemma oversize_file_rejected_witness :
  let r := write_spi_flash 0 (Some [x01; x02; x03]) 2 12000000 true true blank_chip in
  res r = Ret false /\
  events r = [EvPrint (MsgSizeExceeded 3 2)] /\
  xfers (events r) = [] /\
  dev r = blank_chip.
Proof.
  apply (oversize_file_rejected 0 [x01; x02; x03] 2 12000000 true true blank_chip).
  reflexivity.
Defined.

Lemma config_refused_no_transfers_witness :
  let failed := [EvConfigure (spi_options 12000000) false; EvPrint MsgConfigFailed] in
  let rd := read_spi_flash 9 working_host 4096 12000000 512 refusing_adapter in
  let wr := write_spi_flash 9 (Some [x01; x02; x03]) 4096 12000000 true true
              refusing_adapter in
  (res rd = Ret false /\ events rd = failed /\ xfers (events rd) = []) /\
  (res wr = Ret false /\ events wr = failed /\ xfers (events wr) = []).
Proof.
  apply (config_refused_no_transfers 9 working_host refusing_adapter 4096 12000000 512
           [x01; x02; x03] true true).
  - reflexivity.
  - vm_compute. discriminate.
Defined.

(** ** The status loop *)

Section BusyWait.

Context {T : Type} `{SpiDevice T}.

Lemma wip_clears_pos (d : T) (n : nat) : wip_clears d n -> (0 < n)%nat.
Proof. destruct 1; lia. Qed.

Lemma poll_status_step (fuel : nat) (idle : list Event) (d : T) :
  poll_status (S fuel) idle d =
  if wip_cleared (fst (poll d))
  then mkRun (Ret tt) (snd (poll d)) [EvTransfer (poll_xfer d)]
  else
    let r := poll_status fuel idle (snd (poll d)) in
    mkRun (res r) (dev r) (EvTransfer (poll_xfer d) :: idle ++ events r).
Proof.
  cbn [poll_status]. rewrite run_transfer. cbv zeta. fold (poll d).
  destruct (wip_cleared (fst (poll d))); reflexivity.
Qed.

Lemma poll_status_runs (idle : list Event) (d : T) (n : nat) :
  wip_clears d n ->
  forall fuel : nat, (n <= fuel)%nat ->
  poll_status fuel idle d = mkRun (Ret tt) (after_polls n d) (poll_events idle n d).
Proof.
  induction 1 as [d Hr | d n Hb Hc IH]; intros fuel Hfuel.
  - destruct fuel as [|fuel]; [lia|].
    rewrite poll_status_step, Hr. reflexivity.
  - destruct fuel as [|fuel]; [lia|].
    rewrite poll_status_step, Hb. cbv zeta.
    rewrite (IH fuel) by lia. cbn [res dev events].
    pose proof (wip_clears_pos _ _ Hc) as Hpos.
    destruct n as [|n]; [lia|]. reflexivity.
Qed.

Lemma xfers_poll_events (idle : list Event) (n : nat) (d : T) :
  xfers idle = [] ->
  xfers (poll_events idle n d) = poll_xfers n d.
Proof.
  intros Hidle. revert d.
  induction n as [|n IH]; intros d; [reflexivity|].
  cbn [poll_events poll_xfers xfers]. f_equal.
  destruct n as [|n]; [reflexivity|].
  rewrite xfers_app, Hidle. apply IH.
Qed.

Lemma poll_xfers_length (n : nat) (d : T) : length (poll_xfers n d) = n.
Proof.
  revert d. induction n as [|n IH]; intros d; simpl; [reflexivity|].
  rewrite IH. reflexivity.
Qed.

Lemma poll_xfers_are_polls (n : nat) (d : T) :
  Forall is_status_poll (poll_xfers n d).
Proof.
  revert d. induction n as [|n IH]; intros d; cbn [poll_xfers]; constructor.
  - split; reflexivity.
  - apply IH.
Qed.

Lemma wip_clears_polls (d : T) (n : nat) :
  wip_clears d n -> busy_wait_polls (poll_xfers n d).
Proof.
  induction 1 as [d Hr | d n Hb Hc IH]; cbn [poll_xfers].
  - apply waited_last; [split; reflexivity | exact Hr].
  - apply waited_more; [split; reflexivity | exact Hb | exact IH].
Qed.

(** One turn of the page loop of [write_flash]. *)
Lemma write_pages_step (fuel : nat) (file_size total_pages : Z) (f : list byte)
    (address page_count : Z) (d : T) :
  write_pages (S fuel) file_size total_pages f address page_count d =
  if address <? file_size then
    if nonempty (firstn page_len f) then
        let page_data := firstn page_len f in
        let p1 := transfer d WRITE_ENABLE None in
        let p2 := transfer (snd p1) (page_program_cmd address page_data) None in
        let sent := [EvTransfer (mkXfer WRITE_ENABLE None (fst p1));
                     EvTransfer (mkXfer (page_program_cmd address page_data) None (fst p2))] in
        let w := poll_status fuel [EvSleep 1] (snd p2) in
        match res w with
        | Ret _ =>
            let r := write_pages fuel file_size total_pages (skipn page_len f)
                       (address + len page_data) (page_count + 1) (dev w) in
            mkRun (res r) (dev r)
                  (sent ++ events w
                   ++ write_progress file_size total_pages
                        (address + len page_data) (page_count + 1)
                   ++ events r)
        | Raise e => mkRun (Raise e) (dev w) (sent ++ events w)
        | OutOfFuel => mkRun OutOfFuel (dev w) (sent ++ events w)
        end
    else mkRun (Ret tt) d []
  else mkRun (Ret tt) d [].
Proof.
  cbn [write_pages file_read]. fold page_len.
  destruct (address <? file_size); [|reflexivity].
  destruct (firstn page_len f) as [|b l] eqn:E; [reflexivity|].
  do 2 run_step. rewrite (run_bind (poll_status fuel [EvSleep 1])).
  destruct (res (poll_status fuel [EvSleep 1] _));
    cbn [res dev events app]; try reflexivity.
  rewrite run_when. cbn [res dev events app]. reflexivity.
Qed.

Lemma first_page_nonempty (f : list byte) : f <> [] -> nonempty (firstn page_len f) = true.
Proof.
  intros Hf. destruct f as [|b f]; [congruence|].
  assert (Hp : Z.of_nat page_len = 256) by reflexivity.
  destruct page_len as [|k]; [discriminate | reflexivity].
Qed.

(** C1, as the scripts have it.  Every poll of the wait sends the
    read-status command [0x05] and asks for one byte.  A poll whose answer
    is not one byte with bit 0 clear - [None], no byte, several bytes, a
    byte with bit 0 set - is followed by the idle step of the loop (the
    sleep; in [erase_flash] the sleep and the elapsed-time line) and
    another poll: the wait does not fail on it.  The wait ends, normally,
    at the first poll answered by one byte with bit 0 clear, with no idle
    step after that poll, and it never raises: when that is the [n]-th
    poll, exactly [n] polls are made, with the idle step between each two
    of them. *)
Theorem busy_wait_polls_until_ready (idle : list Event) (d : T) (n fuel : nat) :
  xfers idle = [] ->
  wip_clears d n ->
  (n <= fuel)%nat ->
  let r := poll_status fuel idle d in
  res r = Ret tt /\
  events r = poll_events idle n d /\
  xfers (events r) = poll_xfers n d /\
  length (xfers (events r)) = n /\
  busy_wait_polls (xfers (events r)) /\
  Forall is_status_poll (xfers (events r)) /\
  (forall (fuel' : nat) (d' : T) (e : Exn),
     res (poll_status fuel' idle d') <> Raise e) /\
  (forall (fuel' : nat) (d' : T),
     wip_cleared (fst (poll d')) = false ->
     let r' := poll_status (S fuel') idle d' in
     let again := poll_status fuel' idle (snd (poll d')) in
     res r' = res again /\
     events r' =
       EvTransfer (mkXfer [0x05] (Some 1) (fst (poll d'))) :: idle ++ events again) /\
  (forall (fuel' : nat) (d' : T),
     fst (poll d') = None ->
     let r' := poll_status (S fuel') idle d' in
     let again := poll_status fuel' idle (snd (poll d')) in
     res r' = res again /\
     events r' = EvTransfer (mkXfer [0x05] (Some 1) None) :: idle ++ events again) /\
  (forall (fuel' : nat) (d' : T),
     wip_cleared (fst (poll d')) = true ->
     let r' := poll_status (S fuel') idle d' in
     res r' = Ret tt /\
     events r' = [EvTransfer (mkXfer [0x05] (Some 1) (fst (poll d')))]) /\
  (forall (fuel' m : nat) (d' : T),
     let p1 := transfer d' WRITE_ENABLE None in
     let p2 := transfer (snd p1) CHIP_ERASE None in
     wip_clears (snd p2) m ->
     (m <= fuel')%nat ->
     erase_flash fuel' d' =
       mkRun (Ret true) (after_polls m (snd p2))
             (EvPrint MsgErasingStart
              :: EvTransfer (mkXfer [0x06] None (fst p1))
              :: EvTransfer (mkXfer [0xC7] None (fst p2))
              :: poll_events [EvSleep 500; EvPrint MsgErasingElapsed] m (snd p2)
              ++ [EvPrint MsgEraseCompleted])) /\
  (forall (fuel' m : nat) (file_size total_pages address page_count : Z)
          (f : list byte) (d' : T),
     address < file_size ->
     f <> [] ->
     let page_data := firstn page_len f in
     let p1 := transfer d' WRITE_ENABLE None in
     let p2 := transfer (snd p1) (page_program_cmd address page_data) None in
     wip_clears (snd p2) m ->
     (m <= fuel')%nat ->
     exists rest : list Event,
       events (write_pages (S fuel') file_size total_pages f address page_count d') =
         EvTransfer (mkXfer [0x06] None (fst p1))
         :: EvTransfer (mkXfer (page_program_cmd address page_data) None (fst p2))
         :: poll_events [EvSleep 1] m (snd p2) ++ rest).
Proof.
  intros Hidle Hc Hfuel r. subst r.
  rewrite (poll_status_runs idle d n Hc fuel Hfuel). cbn [res events].
  rewrite (xfers_poll_events idle n d Hidle).
  split; [reflexivity|]. split; [reflexivity|]. split; [reflexivity|].
  split; [apply poll_xfers_length|].
  split; [apply wip_clears_polls; exact Hc|].
  split; [apply poll_xfers_are_polls|].
  split; [intros; apply poll_status_never_raises|].
  split; [|split; [|split; [|split]]].
  - intros fuel' d' Hbusy. cbv zeta.
    rewrite poll_status_step, Hbusy. split; reflexivity.
  - intros fuel' d' Habsent. cbv zeta.
    rewrite poll_status_step. unfold poll_xfer. rewrite Habsent.
    split; reflexivity.
  - intros fuel' d' Hready. cbv zeta.
    rewrite poll_status_step, Hready. split; reflexivity.
  - intros fuel' m d' Hm Hfuel'.
    set (p1 := transfer d' WRITE_ENABLE None) in *.
    set (p2 := transfer (snd p1) CHIP_ERASE None) in *.
    unfold erase_flash, print.
    do 3 run_step. fold p1. fold p2.
    rewrite run_bind.
    rewrite (poll_status_runs _ (snd p2) m Hm fuel' Hfuel').
    reflexivity.
  - intros fuel' m file_size total_pages address page_count f d' Hlt Hf Hm Hfuel'.
    set (page_data := firstn page_len f) in *.
    set (p1 := transfer d' WRITE_ENABLE None) in *.
    set (p2 := transfer (snd p1) (page_program_cmd address page_data) None) in *.
    rewrite write_pages_step.
    apply Z.ltb_lt in Hlt. rewrite Hlt, (first_page_nonempty f Hf). cbv zeta.
    fold page_data. fold p1. fold p2.
    rewrite (poll_status_runs [EvSleep 1] (snd p2) m Hm fuel' Hfuel').
    cbn [res dev events app]. eexists. reflexivity.
Qed.

End BusyWait.

(** C1 as stated fails: [erase_flash] gets [None] for its first status poll,
    sleeps, polls again and returns [True]. *)
Lemma busy_wait_retries_after_absent :
  let r := erase_flash 2 absent_once in
  res r = Ret true /\
  events r =
    [EvPrint MsgErasingStart;
     EvTransfer (mkXfer [0x06] None (Some []));
     EvTransfer (mkXfer [0xC7] None (Some []));
     EvTransfer (mkXfer [0x05] (Some 1) None);
     EvSleep 500; EvPrint MsgErasingElapsed;
     EvTransfer (mkXfer [0x05] (Some 1) (Some [x00]));
     EvPrint MsgEraseCompleted].
Proof. split; reflexivity. Qed.

Lemma busy_wait_polls_until_ready_witness :
  let r := poll_status 2 [EvSleep 1] lossy_then_ready in
  res r = Ret tt /\
  events r =
    [EvTransfer (mkXfer [0x05] (Some 1) None); EvSleep 1;
     EvTransfer (mkXfer [0x05] (Some 1) (Some [x00]))] /\
  xfers (events r) =
    [mkXfer [0x05] (Some 1) None; mkXfer [0x05] (Some 1) (Some [x00])].
Proof.
  pose proof (busy_wait_polls_until_ready [EvSleep 1] lossy_then_ready 2 2) as W.
  destruct W as (Hres & Hev & Hx & _).
  - reflexivity.
  - apply clears_later; [reflexivity|]. apply clears_now. reflexivity.
  - lia.
  - split; [exact Hres|]. split; [exact Hev | exact Hx].
Defined.

(** ** Reading the flash *)

Lemma len_app {A : Type} (a b : list A) : len (a ++ b) = len a + len b.
Proof. unfold len. rewrite length_app. lia. Qed.

Lemma read_plan_length (n : nat) (a c : Z) : length (read_plan n a c) = n.
Proof. revert a; induction n as [|n IH]; intros a; simpl; [|rewrite IH]; reflexivity. Qed.

Lemma read_plan_nth (n : nat) (a c : Z) (i : nat) :
  (i < n)%nat ->
  nth_error (read_plan n a c) i = Some (read_cmd (a + Z.of_nat i * c), Some c).
Proof.
  revert a i. induction n as [|n IH]; intros a i Hi; [lia|].
  destruct i as [|i]; cbn [read_plan nth_error].
  - do 3 f_equal. lia.
  - rewrite IH by lia. do 3 f_equal. lia.
Qed.

Lemma read_plan_addresses (n : nat) (a c : Z) :
  read_plan n a c = map (fun x => (read_cmd x, Some c)) (read_addresses n a c).
Proof.
  revert a; induction n as [|n IH]; intros a; simpl; [|rewrite IH]; reflexivity.
Qed.

Lemma read_addresses_nth (n : nat) (a c : Z) (i : nat) :
  (i < n)%nat -> nth_error (read_addresses n a c) i = Some (a + Z.of_nat i * c).
Proof.
  revert a i. induction n as [|n IH]; intros a i Hi; [lia|].
  destruct i as [|i]; cbn [read_addresses nth_error].
  - f_equal. lia.
  - rewrite IH by lia. f_equal. lia.
Qed.

Lemma read_addresses_from (n : nat) (a c : Z) :
  0 < c -> Forall (fun x => a <= x) (read_addresses n a c).
Proof.
  intros Hc. revert a. induction n as [|n IH]; intros a; simpl; constructor.
  - lia.
  - eapply Forall_impl; [|apply IH]. simpl. intros; lia.
Qed.

Lemma read_addresses_increasing (n : nat) (a c : Z) :
  0 < c -> StronglySorted Z.lt (read_addresses n a c).
Proof.
  intros Hc. revert a. induction n as [|n IH]; intros a; simpl; constructor.
  - apply IH.
  - eapply Forall_impl; [|apply (read_addresses_from n (a + c) c Hc)].
    simpl. intros; lia.
Qed.

Section ReadFlash.

Context {T : Type} `{SpiDevice T}.

Lemma read_progress_quiet (fs tc a cc : Z) :
  xfers (read_progress fs tc a cc) = [] /\ sink (read_progress fs tc a cc) = [].
Proof. unfold read_progress. destruct (_ || _); split; reflexivity. Qed.

Lemma read_chunks_step (fuel : nat) (flash_size chunk_size total_chunks : Z)
    (address chunk_count : Z) (d : T) :
  read_chunks (S fuel) flash_size chunk_size total_chunks address chunk_count d =
  if address <? flash_size then
    let p := transfer d (read_cmd address) (Some chunk_size) in
    let x := mkXfer (read_cmd address) (Some chunk_size) (fst p) in
    if truthy (fst p) && (resp_len (fst p) =? chunk_size) then
      let r := read_chunks fuel flash_size chunk_size total_chunks
                 (address + chunk_size) (chunk_count + 1) (snd p) in
      mkRun (res r) (dev r)
            (EvTransfer x
             :: EvFileWrite (match fst p with Some l => l | None => [] end)
             :: read_progress flash_size total_chunks
                  (address + chunk_size) (chunk_count + 1)
             ++ events r)
    else
      mkRun (Ret (Return false)) (snd p) [EvTransfer x; EvPrint (MsgReadFailed address)]
  else mkRun (Ret (Continue address)) d [].
Proof.
  cbn [read_chunks].
  destruct (address <? flash_size); [|reflexivity].
  run_step.
  destruct (truthy _ && _); [|reflexivity].
  run_step. rewrite run_when. reflexivity.
Qed.

Lemma read_ok_accepted (r : Response) (cmd : list Z) (chunk_size : Z) :
  0 < chunk_size ->
  read_ok (mkXfer cmd (Some chunk_size) r) ->
  truthy r && (resp_len r =? chunk_size) = true.
Proof.
  intros Hpos (l & Hl & Hn). cbn [response read_bytes] in Hl, Hn.
  subst r. injection Hn as Hn. cbn [resp_len].
  rewrite <- Hn, Z.eqb_refl, andb_true_r.
  destruct l; [cbn in Hn; lia | reflexivity].
Qed.

(** The chunk loop on an adapter whose reads all succeed: [n] more chunks
    are needed to reach [flash_size] from [address]. *)
Lemma read_chunks_run (n : nat) :
  forall (fuel : nat) (flash_size chunk_size total_chunks address chunk_count : Z) (d : T),
  0 < chunk_size ->
  (n < fuel)%nat ->
  flash_size <= address + Z.of_nat n * chunk_size ->
  address + (Z.of_nat n - 1) * chunk_size < flash_size \/ n = O ->
  let r := read_chunks fuel flash_size chunk_size total_chunks address chunk_count d in
  Forall read_ok (xfers (events r)) ->
  res r = Ret (Continue (address + Z.of_nat n * chunk_size)) /\
  map request (xfers (events r)) = read_plan n address chunk_size /\
  sink (events r) = received (xfers (events r)) /\
  len (sink (events r)) = Z.of_nat n * chunk_size.
Proof.
  induction n as [|n IH];
    intros fuel flash_size chunk_size total_chunks address chunk_count d
           Hpos Hfuel Hend Hin r Hok; subst r;
    (destruct fuel as [|fuel]; [lia|]);
    rewrite read_chunks_step in *.
  - assert (Hge : (address <? flash_size) = false) by (apply Z.ltb_ge; lia).
    rewrite Hge. cbn. repeat split. f_equal. f_equal. lia.
  - assert (Hlt : (address <? flash_size) = true).
    { apply Z.ltb_lt. destruct Hin as [Hin|]; [nia|discriminate]. }
    rewrite Hlt in *. cbv zeta in *.
    set (p := transfer d (read_cmd address) (Some chunk_size)) in *.
    assert (Hacc : truthy (fst p) && (resp_len (fst p) =? chunk_size) = true).
    { destruct (truthy (fst p) && (resp_len (fst p) =? chunk_size)) eqn:E;
        [reflexivity|].
      cbn in Hok. inversion Hok as [|x xs Hx _]; subst.
      rewrite (read_ok_accepted _ _ _ Hpos Hx) in E. discriminate. }
    rewrite Hacc in *. cbn [res dev events] in *.
    cbn [xfers] in Hok. rewrite xfers_app in Hok.
    destruct (read_progress_quiet flash_size total_chunks
                (address + chunk_size) (chunk_count + 1)) as [Hq1 Hq2].
    rewrite Hq1 in Hok. cbn [app] in Hok.
    inversion Hok as [|x xs Hx Hrest]; subst.
    assert (Hin' : address + chunk_size + (Z.of_nat n - 1) * chunk_size < flash_size
                   \/ n = O).
    { destruct n as [|n]; [right; reflexivity | left; nia]. }
    destruct (IH fuel flash_size chunk_size total_chunks
                (address + chunk_size) (chunk_count + 1) (snd p)
                Hpos ltac:(lia) ltac:(lia) Hin' Hrest)
      as (Hres & Hplan & Hsink & Hlen).
    destruct Hx as (l & Hl & Hn). cbn [response read_bytes] in Hl, Hn.
    injection Hn as Hn.
    split; [rewrite Hres; do 2 f_equal; lia|].
    cbn [xfers sink]. rewrite xfers_app, sink_app, Hq1, Hq2. cbn [app map].
    split; [rewrite Hplan; reflexivity|].
    split.
    + unfold received. cbn [flat_map response]. rewrite Hsink. reflexivity.
    + rewrite Hl, len_app, Hlen. lia.
Qed.

(** Every read of the chunk loop, whatever the adapter answers: the [j]-th
    is at [address + j * chunk_size], below [flash_size], and asks for
    [chunk_size] bytes. *)
Lemma read_chunks_requests (fuel : nat) :
  forall (flash_size chunk_size total_chunks address chunk_count : Z) (d : T)
         (j : nat) (x : Xfer),
  nth_error (xfers (events (read_chunks fuel flash_size chunk_size total_chunks
                              address chunk_count d))) j = Some x ->
  request x = (read_cmd (address + Z.of_nat j * chunk_size), Some chunk_size) /\
  address + Z.of_nat j * chunk_size < flash_size.
Proof.
  induction fuel as [|fuel IH];
    intros flash_size chunk_size total_chunks address chunk_count d j x Hj.
  - destruct j; discriminate.
  - rewrite read_chunks_step in Hj.
    destruct (Z.ltb_spec address flash_size) as [Hlt|Hge].
    2:{ destruct j; discriminate. }
    cbv zeta in Hj.
    destruct (truthy _ && _).
    + cbn [events xfers] in Hj.
      rewrite xfers_app, (proj1 (read_progress_quiet _ _ _ _)) in Hj.
      cbn [app] in Hj.
      destruct j as [|j]; cbn [nth_error] in Hj.
      * injection Hj as <-.
        replace (address + Z.of_nat 0 * chunk_size) with address by lia.
        split; [reflexivity | exact Hlt].
      * destruct (IH _ _ _ _ _ _ _ _ Hj) as (Hreq & Hlt').
        replace (address + Z.of_nat (S j) * chunk_size)
          with (address + chunk_size + Z.of_nat j * chunk_size) by lia.
        split; [exact Hreq | exact Hlt'].
    + cbn [events xfers] in Hj.
      destruct j as [|j]; cbn [nth_error] in Hj.
      * injection Hj as <-.
        replace (address + Z.of_nat 0 * chunk_size) with address by lia.
        split; [reflexivity | exact Hlt].
      * destruct j; discriminate.
Qed.

(** On an adapter that answers every read of [chunk_size] bytes in full,
    every read of the chunk loop succeeds. *)
Lemma read_chunks_all_ok (fuel : nat) (chunk_size : Z) :
  (forall (d : T) (a : Z), exists l : list byte,
     fst (transfer d (read_cmd a) (Some chunk_size)) = Some l /\ len l = chunk_size) ->
  forall (flash_size total_chunks address chunk_count : Z) (d : T),
  Forall read_ok (xfers (events (read_chunks fuel flash_size chunk_size total_chunks
                                   address chunk_count d))).
Proof.
  intros Hfull.
  induction fuel as [|fuel IH]; intros flash_size total_chunks address chunk_count d.
  - constructor.
  - rewrite read_chunks_step.
    destruct (address <? flash_size); [|constructor].
    cbv zeta.
    destruct (Hfull d address) as (l & Hl & Hlen).
    assert (Hok : read_ok (mkXfer (read_cmd address) (Some chunk_size)
                             (fst (transfer d (read_cmd address) (Some chunk_size))))).
    { exists l. cbn [response read_bytes]. split; [exact Hl | congruence]. }
    destruct (truthy _ && _).
    + cbn [events xfers].
      rewrite xfers_app, (proj1 (read_progress_quiet _ _ _ _)). cbn [app].
      constructor; [exact Hok | apply IH].
    + cbn [events xfers]. constructor; [exact Hok | constructor].
Qed.

End ReadFlash.

Section ReadSession.

Context {T : Type} `{SpiDevice T}.

(** The transfers of [read_spi_flash] are those of its chunk loop, when it
    gets that far. *)
Lemma read_spi_flash_reads (fuel : nat) (host : Host)
    (flash_size speed chunk_size : Z) (d : T) :
  let lp := read_chunks fuel flash_size chunk_size (flash_size / chunk_size) 0 0
              (snd (configure d (spi_options speed))) in
  let r := read_spi_flash fuel host flash_size speed chunk_size d in
  xfers (events r) = xfers (events lp) \/ xfers (events r) = [].
Proof.
  intros lp r. subst r. unfold read_spi_flash, print. run_step.
  destruct (fst (configure d (spi_options speed))).
  2:{ right. run_step. reflexivity. }
  do 3 run_step.
  destruct (output_opens host).
  2:{ right. rewrite run_raise. reflexivity. }
  run_step.
  destruct (chunk_size =? 0).
  { right. rewrite run_raise. reflexivity. }
  run_step. rewrite events_bind. fold lp. left.
  cbn [app xfers]. rewrite xfers_app.
  destruct (res lp) as [[a|v]| |]; [|cbn; apply app_nil_r ..].
  destruct (total_time host =? 0).
  - rewrite run_raise. cbn. apply app_nil_r.
  - do 3 run_step. cbn. apply app_nil_r.
Qed.

(** [read_spi_flash] once the adapter is configured, the dump file is open
    and [chunk_size] is not zero: the prologue, the chunk loop, the
    epilogue. *)
Lemma read_spi_flash_run (fuel : nat) (host : Host)
    (flash_size speed chunk_size : Z) (d : T) :
  fst (configure d (spi_options speed)) = true ->
  output_opens host = true ->
  chunk_size <> 0 ->
  let lp := read_chunks fuel flash_size chunk_size (flash_size / chunk_size) 0 0
              (snd (configure d (spi_options speed))) in
  let r := read_spi_flash fuel host flash_size speed chunk_size d in
  res r = match res lp with
          | Ret (Continue _) =>
              if total_time host =? 0 then Raise ZeroDivisionError else Ret true
          | Ret (Return value) => Ret value
          | Raise e => Raise e
          | OutOfFuel => OutOfFuel
          end /\
  xfers (events r) = xfers (events lp) /\
  sink (events r) = sink (events lp).
Proof.
  intros Hcfg Hopen Hchunk lp r. subst r.
  unfold read_spi_flash, print.
  apply Z.eqb_neq in Hchunk.
  run_step. rewrite Hcfg. do 3 run_step. rewrite Hopen. run_step.
  rewrite Hchunk. run_step.
  rewrite res_bind, events_bind. fold lp.
  cbn [app xfers sink]. rewrite xfers_app, sink_app.
  destruct (res lp) as [[a|v]| |]; [|cbn; rewrite ?app_nil_r; repeat split; reflexivity ..].
  destruct (total_time host =? 0).
  - rewrite run_raise. cbn. rewrite ?app_nil_r. repeat split; reflexivity.
  - do 3 run_step. cbn. rewrite ?app_nil_r. repeat split; reflexivity.
Qed.

(** All the chunks of a flash of [flash_size] bytes, [n] of them, on an
    adapter whose reads succeed. *)
Lemma read_spi_flash_chunks (n fuel : nat) (host : Host)
    (flash_size speed chunk_size : Z) (d : T) :
  0 < chunk_size ->
  (n < fuel)%nat ->
  flash_size <= Z.of_nat n * chunk_size ->
  (Z.of_nat n - 1) * chunk_size < flash_size \/ n = O ->
  fst (configure d (spi_options speed)) = true ->
  output_opens host = true ->
  let r := read_spi_flash fuel host flash_size speed chunk_size d in
  Forall read_ok (xfers (events r)) ->
  res r = (if total_time host =? 0 then Raise ZeroDivisionError else Ret true) /\
  map request (xfers (events r)) = read_plan n 0 chunk_size /\
  sink (events r) = received (xfers (events r)) /\
  len (sink (events r)) = Z.of_nat n * chunk_size.
Proof.
  intros Hpos Hfuel Hend Hin Hcfg Hopen r Hok. subst r.
  destruct (read_spi_flash_run fuel host flash_size speed chunk_size d Hcfg Hopen
              ltac:(lia)) as (Hres & Hx & Hs).
  rewrite Hx in Hok.
  destruct (read_chunks_run n fuel flash_size chunk_size (flash_size / chunk_size)
              0 0 (snd (configure d (spi_options speed))) Hpos Hfuel
              ltac:(lia) ltac:(destruct Hin; [left; lia | right; assumption]) Hok)
    as (Hlres & Hplan & Hsink & Hlen).
  rewrite Hres, Hx, Hs, Hlres.
  repeat split; assumption.
Qed.

(** Every read of [read_spi_flash], on any adapter and host. *)
Lemma read_spi_flash_requests (fuel : nat) (host : Host)
    (flash_size speed chunk_size : Z) (d : T) (j : nat) (x : Xfer) :
  nth_error (xfers (events (read_spi_flash fuel host flash_size speed chunk_size d))) j
    = Some x ->
  request x = (read_cmd (Z.of_nat j * chunk_size), Some chunk_size) /\
  Z.of_nat j * chunk_size < flash_size.
Proof.
  intros Hj.
  destruct (read_spi_flash_reads fuel host flash_size speed chunk_size d) as [E|E];
    cbv zeta in E; rewrite E in Hj.
  - destruct (read_chunks_requests _ _ _ _ _ _ _ _ _ Hj) as (Hreq & Hlt).
    rewrite Z.add_0_l in Hreq, Hlt. split; assumption.
  - destruct j; discriminate.
Qed.

End ReadSession.

Lemma read_plan_sizes (n : nat) (a c : Z) (xs : list Xfer) :
  map request xs = read_plan n a c ->
  Forall (fun x => read_bytes x = Some c) xs.
Proof.
  revert a xs. induction n as [|n IH]; intros a [|x xs] E; try discriminate;
    constructor;
    cbn [map read_plan] in E; unfold request at 1 in E;
    injection E as Hw Hr Hrest.
  - exact Hr.
  - exact (IH _ _ Hrest).
Qed.

(** *** The address on the wire *)

Lemma address_bytes_mod (a : Z) :
  Z.land (Z.shiftr a 16) 0xFF * 65536 + Z.land (Z.shiftr a 8) 0xFF * 256
  + Z.land a 0xFF = a mod 16777216.
Proof.
  rewrite !land_255, !Z.shiftr_div_pow2 by lia.
  change (2 ^ 16) with 65536. change (2 ^ 8) with 256.
  assert (E3 : a / 65536 = (a / 256) / 256) by (rewrite Z.div_div by lia; reflexivity).
  rewrite E3.
  pose proof (Z.div_mod a 256 ltac:(lia)) as E0.
  pose proof (Z.mod_pos_bound a 256 ltac:(lia)) as B0.
  pose proof (Z.div_mod (a / 256) 256 ltac:(lia)) as E1.
  pose proof (Z.mod_pos_bound (a / 256) 256 ltac:(lia)) as B1.
  pose proof (Z.div_mod (a / 256 / 256) 256 ltac:(lia)) as E2.
  pose proof (Z.mod_pos_bound (a / 256 / 256) 256 ltac:(lia)) as B2.
  apply (Z.mod_unique a 16777216 (a / 256 / 256 / 256)); lia.
Qed.

Lemma address_of_read_cmd (a : Z) : address_of (read_cmd a) = a mod 16777216.
Proof. unfold read_cmd, address_of, chip_addr. apply address_bytes_mod. Qed.

Lemma read_addresses_bounds (n : nat) (a c : Z) :
  0 < c -> 0 <= a ->
  Forall (fun x => 0 <= x < a + Z.of_nat n * c) (read_addresses n a c).
Proof.
  intros Hc. revert a. induction n as [|n IH]; intros a Ha; cbn [read_addresses];
    constructor.
  - lia.
  - eapply Forall_impl; [|apply (IH (a + c)); lia]. cbn beta. intros x Hx. lia.
Qed.

(** The addresses a plan of reads puts on the wire: those of the plan
    as long as it stays below [2^24]. *)
Lemma read_plan_wire_addresses (n : nat) (c : Z) (xs : list Xfer) :
  0 < c ->
  Z.of_nat n * c <= 16777216 ->
  map request xs = read_plan n 0 c ->
  read_wire_addresses xs = read_addresses n 0 c.
Proof.
  intros Hc Hmax Hplan. unfold read_wire_addresses.
  assert (E : map (fun x => address_of (write_data x)) xs
              = map (fun p => address_of (fst p)) (map request xs)).
  { rewrite map_map. reflexivity. }
  rewrite E, Hplan, read_plan_addresses, map_map. cbn [fst].
  rewrite <- (map_id (read_addresses n 0 c)) at 2.
  apply map_ext_in. intros a Ha.
  rewrite address_of_read_cmd.
  pose proof (read_addresses_bounds n 0 c Hc ltac:(lia)) as B.
  rewrite Forall_forall in B. specialize (B a Ha).
  apply Z.mod_small. lia.
Qed.

Lemma strongly_sorted_nth (l : list Z) :
  StronglySorted Z.lt l ->
  forall (i j : nat) (a b : Z),
  (i < j)%nat -> nth_error l i = Some a -> nth_error l j = Some b -> a < b.
Proof.
  induction 1 as [|x l Hs IH Hall]; intros i j a b Hij Hi Hj.
  - destruct i; discriminate.
  - destruct j as [|j]; [lia|]. cbn [nth_error] in Hj.
    destruct i as [|i]; cbn [nth_error] in Hi.
    + injection Hi as <-. rewrite Forall_forall in Hall.
      apply Hall. eapply nth_error_In. exact Hj.
    + apply (IH i j); [lia | assumption | assumption].
Qed.

(** C6, as the script has it.  When [flash_size = k * chunk_size] with
    [k >= 1], the dump file opens and every read succeeds, [read_spi_flash]
    makes exactly [k] reads; the [i]-th is built from the loop's address
    [i * chunk_size], which starts at 0 and grows by [chunk_size], the
    length of the chunk just read, and the command carries that address
    modulo [2^24].  So for a flash of at most [2^24] bytes the addresses in
    the commands are [0, chunk_size, 2 * chunk_size, ...], strictly
    increasing, each the one before plus the length of the chunk before.
    The dump file holds the returned chunks in that order, [flash_size]
    bytes in all, and the script then returns [True], unless the clock
    shows no time passed, when its report raises [ZeroDivisionError]. *)
Theorem read_issues_k_chunks_in_order {T : Type} `{SpiDevice T} (fuel : nat)
    (host : Host) (d : T) (flash_size speed chunk_size k : Z) :
  0 < chunk_size ->
  1 <= k ->
  flash_size = k * chunk_size ->
  (Z.to_nat k < fuel)%nat ->
  fst (configure d (spi_options speed)) = true ->
  output_opens host = true ->
  let r := read_spi_flash fuel host flash_size speed chunk_size d in
  Forall read_ok (xfers (events r)) ->
  length (xfers (events r)) = Z.to_nat k /\
  map request (xfers (events r)) = read_plan (Z.to_nat k) 0 chunk_size /\
  (forall (i : nat) (x : Xfer),
     nth_error (xfers (events r)) i = Some x ->
     request x = (read_cmd (Z.of_nat i * chunk_size), Some chunk_size) /\
     resp_len (response x) = chunk_size /\
     address_of (write_data x) = (Z.of_nat i * chunk_size) mod 2 ^ 24) /\
  (flash_size <= 2 ^ 24 ->
   read_wire_addresses (xfers (events r)) = read_addresses (Z.to_nat k) 0 chunk_size /\
   StronglySorted Z.lt (read_wire_addresses (xfers (events r))) /\
   nth_error (read_wire_addresses (xfers (events r))) 0 = Some 0 /\
   (forall (i : nat) (x y : Xfer),
      nth_error (xfers (events r)) i = Some x ->
      nth_error (xfers (events r)) (S i) = Some y ->
      address_of (write_data y) = address_of (write_data x) + resp_len (response x))) /\
  sink (events r) = received (xfers (events r)) /\
  len (sink (events r)) = flash_size /\
  res r = (if total_time host =? 0 then Raise ZeroDivisionError else Ret true).
Proof.
  intros Hpos Hk Hsize Hfuel Hcfg Hopen r Hok. subst r.
  destruct (read_spi_flash_chunks (Z.to_nat k) fuel host flash_size speed chunk_size d
              Hpos Hfuel ltac:(nia) ltac:(left; nia) Hcfg Hopen Hok)
    as (Hres & Hplan & Hsink & Hlen).
  set (xs := xfers (events (read_spi_flash fuel host flash_size speed chunk_size d))) in *.
  assert (Hcount : length xs = Z.to_nat k).
  { rewrite <- (length_map request), Hplan. apply read_plan_length. }
  assert (Hnth : forall (i : nat) (x : Xfer), nth_error xs i = Some x ->
            request x = (read_cmd (Z.of_nat i * chunk_size), Some chunk_size) /\
            resp_len (response x) = chunk_size /\
            address_of (write_data x) = (Z.of_nat i * chunk_size) mod 2 ^ 24).
  { intros i x Hi.
    destruct (read_spi_flash_requests fuel host flash_size speed chunk_size d i x Hi)
      as (Hreq & _).
    split; [exact Hreq|].
    assert (Hw : write_data x = read_cmd (Z.of_nat i * chunk_size))
      by exact (f_equal fst Hreq).
    assert (Hn : read_bytes x = Some chunk_size) by exact (f_equal snd Hreq).
    split.
    - rewrite Forall_forall in Hok.
      destruct (Hok x (nth_error_In _ _ Hi)) as (l & Hl & Hb).
      rewrite Hl. cbn [resp_len]. congruence.
    - rewrite Hw. apply address_of_read_cmd. }
  split; [exact Hcount|]. split; [exact Hplan|]. split; [exact Hnth|].
  split.
  { intros Hmax. change (2 ^ 24) with 16777216 in Hmax.
    assert (Hwire : read_wire_addresses xs = read_addresses (Z.to_nat k) 0 chunk_size).
    { apply read_plan_wire_addresses; [exact Hpos | nia | exact Hplan]. }
    split; [exact Hwire|].
    split; [rewrite Hwire; apply read_addresses_increasing; exact Hpos|].
    split.
    { rewrite Hwire. rewrite read_addresses_nth by lia. reflexivity. }
    intros i x y Hx Hy.
    assert (Hi : (S i < Z.to_nat k)%nat).
    { rewrite <- Hcount. apply nth_error_Some. congruence. }
    destruct (Hnth i x Hx) as (_ & Hlx & Hax).
    destruct (Hnth (S i) y Hy) as (_ & _ & Hay).
    change (2 ^ 24) with 16777216 in Hax, Hay.
    rewrite Z.mod_small in Hax by nia.
    rewrite Z.mod_small in Hay by nia.
    rewrite Hax, Hay, Hlx. lia. }
  split; [exact Hsink|]. split; [nia | exact Hres].
Qed.

(** C2, as the script has it.  For a flash of [flash_size > 0] bytes read in
    chunks of [chunk_size > 0], every read command the script issues, on any
    adapter, asks for [chunk_size] bytes, whatever is left, and starts
    inside the flash at the next multiple of [chunk_size]; there are never
    more than [ceil(flash_size / chunk_size)] of them.  When the dump file
    opens and all reads succeed there are exactly that many reads, and the
    dump file holds that many whole chunks: at least [flash_size] bytes,
    fewer than [flash_size + chunk_size], and exactly [flash_size] when
    [chunk_size] divides [flash_size]; the script then returns [True],
    unless the clock shows no time passed, when its report raises
    [ZeroDivisionError]. *)
Theorem read_requests_whole_chunks {T : Type} `{SpiDevice T} (fuel : nat)
    (host : Host) (d : T) (flash_size speed chunk_size : Z) :
  0 < flash_size ->
  0 < chunk_size ->
  let n := Z.to_nat ((flash_size + chunk_size - 1) / chunk_size) in
  let r := read_spi_flash fuel host flash_size speed chunk_size d in
  (forall (j : nat) (x : Xfer),
     nth_error (xfers (events r)) j = Some x ->
     request x = (read_cmd (Z.of_nat j * chunk_size), Some chunk_size) /\
     read_bytes x = Some chunk_size /\
     0 <= Z.of_nat j * chunk_size < flash_size) /\
  Forall (fun x => read_bytes x = Some chunk_size) (xfers (events r)) /\
  (length (xfers (events r)) <= n)%nat /\
  ((n < fuel)%nat ->
   fst (configure d (spi_options speed)) = true ->
   output_opens host = true ->
   Forall read_ok (xfers (events r)) ->
   length (xfers (events r)) = n /\
   map request (xfers (events r)) = read_plan n 0 chunk_size /\
   sink (events r) = received (xfers (events r)) /\
   len (sink (events r)) = Z.of_nat n * chunk_size /\
   flash_size <= len (sink (events r)) < flash_size + chunk_size /\
   (flash_size mod chunk_size = 0 -> len (sink (events r)) = flash_size) /\
   res r = (if total_time host =? 0 then Raise ZeroDivisionError else Ret true)).
Proof.
  intros Hsize Hpos n r. subst r.
  pose proof (Z.div_mod (flash_size + chunk_size - 1) chunk_size ltac:(lia)) as E.
  pose proof (Z.mod_pos_bound (flash_size + chunk_size - 1) chunk_size Hpos) as B.
  assert (Hq : 0 <= (flash_size + chunk_size - 1) / chunk_size).
  { apply Z.div_pos; lia. }
  assert (Hn : Z.of_nat n = (flash_size + chunk_size - 1) / chunk_size).
  { subst n. rewrite Z2Nat.id; [reflexivity | exact Hq]. }
  set (xs := xfers (events (read_spi_flash fuel host flash_size speed chunk_size d))).
  assert (Hnth : forall (j : nat) (x : Xfer), nth_error xs j = Some x ->
            request x = (read_cmd (Z.of_nat j * chunk_size), Some chunk_size) /\
            read_bytes x = Some chunk_size /\
            0 <= Z.of_nat j * chunk_size < flash_size).
  { intros j x Hj.
    destruct (read_spi_flash_requests fuel host flash_size speed chunk_size d j x Hj)
      as (Hreq & Hlt).
    split; [exact Hreq|]. split; [exact (f_equal snd Hreq) | nia]. }
  split; [exact Hnth|].
  split.
  { apply Forall_forall. intros x Hx.
    destruct (In_nth_error _ _ Hx) as (j & Hj).
    exact (proj1 (proj2 (Hnth j x Hj))). }
  split.
  { destruct (Nat.le_gt_cases (length xs) n) as [Hle|Hgt]; [exact Hle|].
    exfalso.
    destruct (nth_error xs n) as [x|] eqn:Ex.
    - destruct (Hnth n x Ex) as (_ & _ & Hin). nia.
    - apply nth_error_None in Ex. lia. }
  intros Hfuel Hcfg Hopen Hok.
  destruct (read_spi_flash_chunks n fuel host flash_size speed chunk_size d
              Hpos Hfuel ltac:(nia) ltac:(left; nia) Hcfg Hopen Hok)
    as (Hres & Hplan & Hsink & Hlen).
  fold xs in Hplan, Hsink.
  split.
  { rewrite <- (length_map request), Hplan. apply read_plan_length. }
  split; [exact Hplan|]. split; [exact Hsink|]. split; [exact Hlen|].
  rewrite Hlen. split; [nia|]. split; [|exact Hres].
  intros Hdiv.
  pose proof (Z.div_mod flash_size chunk_size ltac:(lia)) as E'.
  rewrite Hdiv in E'.
  assert (Z.of_nat n = flash_size / chunk_size) by nia.
  nia.
Qed.

(** C2 as stated fails: on a 5-byte flash read in chunks of 2, the third
    read starts at address 4 and asks for 2 bytes where [min(2, 5 - 4)] is 1;
    with every read succeeding the dump file gets 6 bytes, not 5. *)
Lemma read_overruns_partial_chunk :
  let r := read_spi_flash 9 working_host 5 12000000 2 blank_chip in
  res r = Ret true /\
  map request (xfers (events r)) =
    [([0x03; 0; 0; 0], Some 2); ([0x03; 0; 0; 2], Some 2); ([0x03; 0; 0; 4], Some 2)] /\
  map response (xfers (events r)) =
    [Some [xff; xff]; Some [xff; xff]; Some [xff; xff]] /\
  Z.min 2 (5 - 4) = 1 /\
  len (sink (events r)) = 6.
Proof. repeat split; reflexivity. Qed.

Lemma read_requests_whole_chunks_witness :
  let r := read_spi_flash 9 working_host 5 12000000 2 blank_chip in
  res r = Ret true /\
  map request (xfers (events r)) = read_plan 3 0 2 /\
  Forall (fun x => read_bytes x = Some 2) (xfers (events r)) /\
  len (sink (events r)) = 6.
Proof.
  destruct (read_requests_whole_chunks 9 working_host blank_chip 5 12000000 2)
    as (_ & Hsizes & _ & Hall).
  - lia.
  - lia.
  - destruct Hall as (_ & Hplan & _ & Hlen & _ & _ & Hres).
    + vm_compute. lia.
    + reflexivity.
    + reflexivity.
    + vm_compute. repeat constructor; eexists; split; reflexivity.
    + split; [exact Hres|]. split; [exact Hplan|]. split; [exact Hsizes | exact Hlen].
Defined.

(** The flash model answers every read in full. *)
Lemma chip_answers_reads (n : Z) :
  0 <= n ->
  forall (c : Chip) (a : Z), exists l : list byte,
    fst (transfer c (read_cmd a) (Some n)) = Some l /\ len l = n.
Proof.
  intros Hn c a.
  exists (chip_read (mem c)
            (chip_addr (Z.land (Z.shiftr a 16) 0xFF) (Z.land (Z.shiftr a 8) 0xFF)
                       (Z.land a 0xFF)) (Z.to_nat n)).
  split; [reflexivity|].
  unfold chip_read, len. rewrite length_map, length_seq. lia.
Qed.

(** C6 as stated fails above 16 MiB: reading a 32 MiB flash (a size the
    help text of the reader lists) in chunks of 4096 bytes, with every read
    succeeding, takes 8192 reads, and the read for address [16777216], the
    4097th, sends the command of the first one, with address bytes 0, 0, 0:
    the addresses in the commands are not strictly increasing. *)
Lemma read_commands_repeat_above_16MiB :
  let r := read_spi_flash (Z.to_nat 8193) working_host 33554432 12000000 4096
             blank_chip in
  let reads := xfers (events r) in
  Forall read_ok reads /\
  length reads = Z.to_nat 8192 /\
  (exists x y : Xfer,
     nth_error reads 0 = Some x /\
     nth_error reads (Z.to_nat 4096) = Some y /\
     write_data x = [0x03; 0; 0; 0] /\
     write_data y = [0x03; 0; 0; 0] /\
     address_of (write_data y) = address_of (write_data x)) /\
  ~ StronglySorted Z.lt (read_wire_addresses reads).
Proof.
  cbv zeta.
  set (r := read_spi_flash (Z.to_nat 8193) working_host 33554432 12000000 4096
              blank_chip).
  assert (Hok : Forall read_ok (xfers (events r))).
  { destruct (read_spi_flash_reads (Z.to_nat 8193) working_host 33554432 12000000 4096
                blank_chip) as [E|E]; cbv zeta in E; fold r in E; rewrite E.
    - apply read_chunks_all_ok. apply chip_answers_reads. lia.
    - constructor. }
  destruct (read_spi_flash_chunks (Z.to_nat 8192) (Z.to_nat 8193) working_host
              33554432 12000000 4096 blank_chip
              ltac:(lia) ltac:(lia) ltac:(lia) ltac:(left; lia) eq_refl eq_refl Hok)
    as (_ & Hplan & _ & _).
  fold r in Hplan.
  assert (Hcount : length (xfers (events r)) = Z.to_nat 8192).
  { rewrite <- (length_map request), Hplan. apply read_plan_length. }
  assert (Hat : forall i : nat, (i < Z.to_nat 8192)%nat ->
            exists x : Xfer, nth_error (xfers (events r)) i = Some x /\
              write_data x = read_cmd (Z.of_nat i * 4096)).
  { intros i Hi.
    destruct (nth_error (xfers (events r)) i) as [x|] eqn:Ex.
    - exists x. split; [reflexivity|].
      pose proof (map_nth_error request i (xfers (events r)) Ex) as Em.
      rewrite Hplan, read_plan_nth, Z.add_0_l in Em by exact Hi.
      assert (Er : request x = (read_cmd (Z.of_nat i * 4096), Some 4096))
        by congruence.
      exact (f_equal fst Er).
    - apply nth_error_None in Ex. lia. }
  destruct (Hat O ltac:(lia)) as (x & Hx & Hwx).
  destruct (Hat (Z.to_nat 4096) ltac:(lia)) as (y & Hy & Hwy).
  rewrite Z2Nat.id in Hwy by lia.
  change (read_cmd (Z.of_nat 0 * 4096)) with [0x03; 0; 0; 0] in Hwx.
  change (read_cmd (4096 * 4096)) with [0x03; 0; 0; 0] in Hwy.
  split; [exact Hok|]. split; [exact Hcount|].
  split.
  { exists x, y. split; [exact Hx|]. split; [exact Hy|].
    split; [exact Hwx|]. split; [exact Hwy|]. rewrite Hwx, Hwy. reflexivity. }
  intros Hsorted.
  assert (Hlt : address_of (write_data x) < address_of (write_data y)).
  { apply (strongly_sorted_nth _ Hsorted O (Z.to_nat 4096)).
    - lia.
    - exact (map_nth_error (fun z => address_of (write_data z)) _ _ Hx).
    - exact (map_nth_error (fun z => address_of (write_data z)) _ _ Hy). }
  rewrite Hwx, Hwy in Hlt. lia.
Qed.

Lemma read_issues_k_chunks_in_order_witness :
  let r := read_spi_flash 9 working_host 8 12000000 2 blank_chip in
  res r = Ret true /\
  length (xfers (events r)) = 4%nat /\
  read_wire_addresses (xfers (events r)) = [0; 2; 4; 6] /\
  len (sink (events r)) = 8.
Proof.
  destruct (read_issues_k_chunks_in_order 9 working_host blank_chip 8 12000000 2 4)
    as (Hcount & _ & _ & Hwire & _ & Hlen & Hres).
  - lia.
  - lia.
  - reflexivity.
  - vm_compute. lia.
  - reflexivity.
  - reflexivity.
  - vm_compute. repeat constructor; eexists; split; reflexivity.
  - split; [exact Hres|]. split; [exact Hcount|].
    split; [exact (proj1 (Hwire ltac:(vm_compute; discriminate))) | exact Hlen].
Defined.

(** ** Verification after writing *)

Lemma chunk_len_512 : Z.of_nat chunk_len = 512.
Proof. reflexivity. Qed.

Lemma chunk_len_pos : (0 < chunk_len)%nat.
Proof. apply Nat2Z.inj_lt. rewrite chunk_len_512. reflexivity. Qed.

Lemma chunk_at_length (file : list byte) (i : nat) :
  length (chunk_at file i) = Nat.min chunk_len (length file - chunk_len * i).
Proof. unfold chunk_at. rewrite length_firstn, length_skipn. reflexivity. Qed.

Lemma chunk_at_len (file : list byte) (i : nat) :
  (chunk_len * i < length file)%nat ->
  len (chunk_at file i) = Z.min 512 (len file - chunk_addr i).
Proof.
  intros Hi. unfold len, chunk_addr. rewrite chunk_at_length.
  change verify_chunk with 512. pose proof chunk_len_512 as E.
  assert (E2 : Z.of_nat (chunk_len * i) = 512 * Z.of_nat i) by lia.
  lia.
Qed.

Lemma verify_progress_quiet (fs a : Z) : xfers (verify_progress fs a) = [].
Proof. unfold verify_progress. destruct (_ || _); reflexivity. Qed.

Section Verify.

Context {T : Type} `{SpiDevice T}.

Lemma verify_chunks_step (fuel : nat) (file_size : Z) (f : list byte)
    (address : Z) (d : T) :
  verify_chunks (S fuel) file_size f address d =
  if address <? file_size then
    match firstn chunk_len f with
    | [] => mkRun (Ret (Continue address)) d []
    | _ :: _ =>
        let expected := firstn chunk_len f in
        let p := transfer d (read_cmd address) (Some (len expected)) in
        let x := mkXfer (read_cmd address) (Some (len expected)) (fst p) in
        if resp_differs (fst p) expected then
          mkRun (Ret (Return false)) (snd p)
                [EvTransfer x; EvPrint (MsgVerificationFailed address)]
        else
          let r := verify_chunks fuel file_size (skipn chunk_len f)
                     (address + len expected) (snd p) in
          mkRun (res r) (dev r)
                (EvTransfer x
                 :: verify_progress file_size (address + len expected)
                 ++ events r)
    end
  else mkRun (Ret (Continue address)) d [].
Proof.
  cbn [verify_chunks file_read]. fold chunk_len.
  destruct (address <? file_size); [|reflexivity].
  destruct (firstn chunk_len f) as [|b l] eqn:E; [reflexivity|].
  run_step.
  destruct (resp_differs _ _); [reflexivity|].
  rewrite run_when. reflexivity.
Qed.

(** The loop, started where [write_flash] starts it and continued, follows
    [verified]: with [i] chunks done the unread part of the file is
    [skipn (chunk_len * i) file] and [address] is [min (512 * i) file_size]. *)
Lemma verify_chunks_spec (file : list byte) (fuel : nat) :
  forall (i : nat) (d : T),
  (length file - chunk_len * i < fuel)%nat ->
  let r := verify_chunks fuel (len file) (skipn (chunk_len * i) file)
             (Z.min (chunk_addr i) (len file)) d in
  exists fl : Flow, res r = Ret fl /\ verified file i (events r) fl.
Proof.
  induction fuel as [|fuel IH]; intros i d Hfuel; [lia|].
  cbv zeta. rewrite verify_chunks_step.
  pose proof chunk_len_512 as E512. pose proof chunk_len_pos as Hpos.
  assert (Eaddr : chunk_addr i = Z.of_nat (chunk_len * i)).
  { unfold chunk_addr. change verify_chunk with 512. lia. }
  destruct (Z.ltb_spec (Z.min (chunk_addr i) (len file)) (len file)) as [Hlt|Hge].
  - assert (Hi : (chunk_len * i < length file)%nat) by (unfold len in Hlt; lia).
    assert (Hmin : Z.min (chunk_addr i) (len file) = chunk_addr i)
      by (unfold len in *; lia).
    rewrite Hmin. fold (chunk_at file i).
    pose proof (chunk_at_len file i Hi) as Hlen.
    destruct (chunk_at file i) as [|b l] eqn:Echunk.
    { exfalso. unfold len in *. cbn [length] in Hlen. lia. }
    rewrite <- Echunk in *. cbv zeta.
    set (p := transfer d (read_cmd (chunk_addr i)) (Some (len (chunk_at file i)))).
    destruct (resp_differs (fst p) (chunk_at file i)) eqn:Ediff.
    + eexists. split; [reflexivity|]. cbn [events].
      apply verified_mismatch; [exact Hi|].
      intros Heq. apply resp_differs_false in Heq. congruence.
    + apply resp_differs_false in Ediff. rewrite Ediff.
      rewrite skipn_skipn.
      replace (chunk_len + chunk_len * i)%nat with (chunk_len * S i)%nat by lia.
      assert (Enext : Z.min (chunk_addr (S i)) (len file)
                      = chunk_addr i + len (chunk_at file i)).
      { rewrite Hlen. unfold chunk_addr. change verify_chunk with 512. lia. }
      destruct (IH (S i) (snd p)) as (fl & Hres & Hver); [lia|].
      cbv zeta in Hres, Hver. rewrite Enext in Hres, Hver.
      exists fl. cbn [res events]. split; [exact Hres|].
      apply verified_chunk; [exact Hi | exact Hver].
  - assert (Hmin : Z.min (chunk_addr i) (len file) = len file) by lia.
    rewrite Hmin. eexists. split; [reflexivity|]. cbn [events].
    apply verified_end. unfold len in *. lia.
Qed.

End Verify.

(** *** What follows from [verified] *)

Lemma verified_nth (file : list byte) (i : nat) (evs : list Event) (fl : Flow) :
  verified file i evs fl ->
  forall (j : nat) (x : Xfer),
  nth_error (xfers evs) j = Some x ->
  (chunk_len * (i + j) < length file)%nat /\
  request x = (read_cmd (chunk_addr (i + j)), Some (len (chunk_at file (i + j)))) /\
  (response x = Some (chunk_at file (i + j)) \/
   response x <> Some (chunk_at file (i + j)) /\
   fl = Return false /\
   exists pre : list Event,
     evs = pre ++ [EvTransfer x; EvPrint (MsgVerificationFailed (chunk_addr (i + j)))]).
Proof.
  induction 1 as [i Hi | i actual Hi Hbad | i evs fl Hi Hrest IH]; intros j x Hj.
  - destruct j; discriminate.
  - destruct j as [|j]; [|destruct j; discriminate].
    cbn [xfers nth_error] in Hj. injection Hj as <-. rewrite Nat.add_0_r.
    split; [exact Hi|]. split; [reflexivity|].
    right. split; [exact Hbad|]. split; [reflexivity|].
    exists []. reflexivity.
  - cbn [xfers] in Hj. rewrite xfers_app, verify_progress_quiet in Hj.
    destruct j as [|j].
    + cbn [xfers nth_error] in Hj. injection Hj as <-. rewrite Nat.add_0_r.
      split; [exact Hi|]. split; [reflexivity|]. left. reflexivity.
    + cbn [app nth_error] in Hj.
      destruct (IH j x Hj) as (Hin & Hreq & Hresp).
      rewrite Nat.add_succ_r. cbn [Nat.add] in Hin, Hreq, Hresp.
      split; [exact Hin|]. split; [exact Hreq|].
      destruct Hresp as [Hgood | (Hbad & Hfl & pre & Hpre)]; [left; exact Hgood|].
      right. split; [exact Hbad|]. split; [exact Hfl|].
      subst evs.
      exists (EvTransfer (mkXfer (read_cmd (chunk_addr i))
                                (Some (len (chunk_at file i)))
                                (Some (chunk_at file i)))
            :: verify_progress (len file) (chunk_addr i + len (chunk_at file i))
            ++ pre).
      cbn [app]. rewrite app_assoc. reflexivity.
Qed.

Lemma verified_return (file : list byte) (i : nat) (evs : list Event) (fl : Flow) :
  verified file i evs fl ->
  forall v : bool, fl = Return v ->
  v = false /\
  exists (j : nat) (x : Xfer),
    nth_error (xfers evs) j = Some x /\
    response x <> Some (chunk_at file (i + j)) /\
    exists pre : list Event,
      evs = pre ++ [EvTransfer x; EvPrint (MsgVerificationFailed (chunk_addr (i + j)))].
Proof.
  induction 1 as [i Hi | i actual Hi Hbad | i evs fl Hi Hrest IH]; intros v Hv.
  - discriminate.
  - injection Hv as <-. split; [reflexivity|].
    exists O, (mkXfer (read_cmd (chunk_addr i)) (Some (len (chunk_at file i))) actual).
    rewrite Nat.add_0_r. split; [reflexivity|]. split; [exact Hbad|].
    exists []. reflexivity.
  - destruct (IH v Hv) as (Hf & j & x & Hj & Hbad & pre & Hpre).
    split; [exact Hf|]. exists (S j), x.
    rewrite Nat.add_succ_r. cbn [Nat.add] in Hbad, Hpre.
    split.
    { cbn [xfers]. rewrite xfers_app, verify_progress_quiet. exact Hj. }
    split; [exact Hbad|].
    subst evs.
    exists (EvTransfer (mkXfer (read_cmd (chunk_addr i))
                              (Some (len (chunk_at file i)))
                              (Some (chunk_at file i)))
          :: verify_progress (len file) (chunk_addr i + len (chunk_at file i))
          ++ pre).
    cbn [app]. rewrite app_assoc. reflexivity.
Qed.

Lemma verified_continue (file : list byte) (i : nat) (evs : list Event) (fl : Flow) :
  verified file i evs fl ->
  forall a : Z, fl = Continue a ->
  a = len file /\ received (xfers evs) = skipn (chunk_len * i) file.
Proof.
  induction 1 as [i Hi | i actual Hi Hbad | i evs fl Hi Hrest IH]; intros a Ha.
  - injection Ha as <-. split; [reflexivity|].
    rewrite skipn_all2 by exact Hi. reflexivity.
  - discriminate.
  - destruct (IH a Ha) as (Hlen & Hrecv). split; [exact Hlen|].
    cbn [xfers]. rewrite xfers_app, verify_progress_quiet. cbn [app].
    unfold received in *. cbn [flat_map response]. rewrite Hrecv.
    replace (chunk_len * S i)%nat with (chunk_len + chunk_len * i)%nat by lia.
    rewrite <- skipn_skipn. unfold chunk_at. apply firstn_skipn.
Qed.

Lemma verified_prints (file : list byte) (i : nat) (evs : list Event) (fl : Flow) :
  verified file i evs fl ->
  Forall (fun m => (exists a, m = MsgVerificationFailed a) \/
                   (exists c t, m = MsgProgress c t Verifying))
         (prints evs).
Proof.
  induction 1 as [i Hi | i actual Hi Hbad | i evs fl Hi Hrest IH].
  - constructor.
  - cbn [prints]. constructor; [left; eexists; reflexivity | constructor].
  - cbn [prints]. rewrite prints_app. apply Forall_app. split; [|exact IH].
    unfold verify_progress. destruct (_ || _); cbn [prints].
    + constructor; [right; do 2 eexists; reflexivity | constructor].
    + constructor.
Qed.

Lemma verify_pass_spec {T : Type} `{SpiDevice T} (fuel : nat)
    (file : list byte) (d : T) :
  (length file < fuel)%nat ->
  let r := verify_chunks fuel (len file) file 0 d in
  exists fl : Flow, res r = Ret fl /\ verified file 0 (events r) fl.
Proof.
  intros Hfuel.
  pose proof (verify_chunks_spec file fuel O d) as S.
  rewrite Nat.mul_0_r in S. cbn [skipn] in S.
  replace (Z.min (chunk_addr 0) (len file)) with 0 in S.
  2:{ unfold chunk_addr, len. lia. }
  apply S. lia.
Qed.





(** C3, as the script has it.  In the verification pass a read whose result
    is not exactly the file's bytes of that chunk - [None] from the adapter
    included - ends the pass the same way: "Verification failed at address"
    with the address of that chunk, and [False].  That is the only failure
    the pass reports, and it reports it only after such a read; there is no
    separate report for a failed transfer. *)
Theorem verify_reports_bad_read_as_mismatch {T : Type} `{SpiDevice T} (fuel : nat)
    (file : list byte) (d : T) :
  (length file < fuel)%nat ->
  let r := verify_chunks fuel (len file) file 0 d in
  (forall (j : nat) (x : Xfer),
     nth_error (xfers (events r)) j = Some x ->
     response x = None \/ response x <> Some (chunk_at file j) ->
     write_data x = read_cmd (512 * Z.of_nat j) /\
     res r = Ret (Return false) /\
     exists pre : list Event,
       events r =
       pre ++ [EvTransfer x; EvPrint (MsgVerificationFailed (512 * Z.of_nat j))]) /\
  (forall v : bool,
     res r = Ret (Return v) ->
     v = false /\
     exists (j : nat) (x : Xfer) (pre : list Event),
       nth_error (xfers (events r)) j = Some x /\
       response x <> Some (chunk_at file j) /\
       events r =
       pre ++ [EvTransfer x; EvPrint (MsgVerificationFailed (512 * Z.of_nat j))]) /\
  (forall a : Z, ~ In (MsgReadFailed a) (prints (events r))).
Proof.
  intros Hfuel r. subst r.
  destruct (verify_pass_spec fuel file d Hfuel) as (fl & Hres & Hver).
  cbv zeta in Hres, Hver.
  split; [|split].
  - intros j x Hj Hbad.
    destruct (verified_nth file 0 _ fl Hver j x Hj) as (_ & Hreq & Hresp).
    cbn [Nat.add] in Hreq, Hresp.
    split; [unfold request in Hreq; injection Hreq as Hw _; exact Hw|].
    destruct Hresp as [Hgood | (_ & Hfl & pre & Hpre)].
    + exfalso. destruct Hbad as [Hnone | Hneq]; congruence.
    + split; [rewrite Hres, Hfl; reflexivity|].
      exists pre. exact Hpre.
  - intros v Hv. rewrite Hres in Hv. injection Hv as Hv.
    destruct (verified_return file 0 _ fl Hver v Hv)
      as (Hf & j & x & Hj & Hbad & pre & Hpre).
    cbn [Nat.add] in Hbad, Hpre.
    split; [exact Hf|]. exists j, x, pre.
    split; [exact Hj|]. split; [exact Hbad | exact Hpre].
  - intros a Hin.
    pose proof (verified_prints file 0 _ fl Hver) as Hp.
    rewrite Forall_forall in Hp.
    destruct (Hp _ Hin) as [(a' & E) | (c & t & E)]; discriminate.
Qed.

(** C3 as stated fails: [write_flash] of a one-byte file whose verification
    read returns [None] prints "Verification failed at address 0" and
    returns [False], exactly as it does when the read returns a wrong
    byte. *)
Lemma absent_read_reported_as_mismatch :
  let lost := write_flash 3 [x41] true loses_verify_read in
  let wrong := write_flash 3 [x41] true returns_wrong_byte in
  res lost = Ret false /\
  map response (xfers (events lost)) = [Some []; Some []; Some [x00]; None] /\
  prints (events lost) =
    [MsgWritingFile 0; MsgProgress 1 1 Writing; MsgWriteCompleted;
     MsgVerifyingStart; MsgVerificationFailed 0] /\
  res wrong = res lost /\
  prints (events wrong) = prints (events lost).
Proof. repeat split; reflexivity. Qed.


Lemma verify_reports_bad_read_as_mismatch_witness :
  let r := verify_chunks 2 1 [x41] 0 (mkScripted true [None]) in
  res r = Ret (Return false) /\
  (exists pre : list Event,
     events r =
     pre ++ [EvTransfer (mkXfer (read_cmd 0) (Some 1) None);
             EvPrint (MsgVerificationFailed 0)]) /\
  (forall a : Z, ~ In (MsgReadFailed a) (prints (events r))).
Proof.
  destruct (verify_reports_bad_read_as_mismatch 2 [x41] (mkScripted true [None]))
    as (Habsent & _ & Hno).
  - cbn. lia.
  - destruct (Habsent O (mkXfer (read_cmd 0) (Some 1) None) eq_refl
                (or_introl eq_refl)) as (_ & Hres & Hpre).
    split; [exact Hres|]. split; [exact Hpre | exact Hno].
Defined.

(** ** Writing pages *)

Lemma write_progress_quiet (fs tp a pc : Z) : xfers (write_progress fs tp a pc) = [].
Proof. unfold write_progress. destruct (_ || _); reflexivity. Qed.

Lemma page_len_256 : Z.of_nat page_len = 256.
Proof. reflexivity. Qed.

Lemma count_opcode_app (op : Z) (a b : list Xfer) :
  count_opcode op (a ++ b) = (count_opcode op a + count_opcode op b)%nat.
Proof. unfold count_opcode. rewrite filter_app, length_app. reflexivity. Qed.

Lemma count_opcode_cons (op : Z) (x : Xfer) (xs : list Xfer) :
  count_opcode op (x :: xs) =
  ((if (opcode x =? op)%Z then 1 else 0) + count_opcode op xs)%nat.
Proof. unfold count_opcode. cbn [filter]. destruct (opcode x =? op); reflexivity. Qed.

Lemma status_polls_not_programs (xs : list Xfer) :
  Forall is_status_poll xs -> count_opcode 0x02 xs = O.
Proof.
  induction 1 as [|x xs [Hw _] _ IH]; [reflexivity|].
  rewrite count_opcode_cons, IH. unfold opcode. rewrite Hw. reflexivity.
Qed.

Lemma busy_wait_polls_are_polls (xs : list Xfer) :
  busy_wait_polls xs -> Forall is_status_poll xs.
Proof. induction 1; constructor; try assumption. constructor. Qed.

Lemma ceil_pages_step (L : Z) :
  0 < L -> (L + 255) / 256 = 1 + (Z.max 0 (L - 256) + 255) / 256.
Proof.
  intros HL. destruct (Z_lt_le_dec L 256) as [Hs|Hb].
  - rewrite Z.max_l by lia. change ((0 + 255) / 256) with 0.
    symmetry. apply (Z.div_unique (L + 255) 256 (1 + 0) (L - 1)); lia.
  - rewrite Z.max_r by lia.
    replace (L + 255) with (L - 256 + 255 + 1 * 256) by lia.
    rewrite Z.div_add by lia. lia.
Qed.

(** As many page-program commands as pages: [ceil(len f / 256)]. *)
Lemma page_blocks_count (f : list byte) (a : Z) (xs : list Xfer) :
  page_blocks f a xs ->
  Z.of_nat (count_opcode 0x02 xs) = (len f + 255) / 256.
Proof.
  induction 1 as [a | f a we pp polls rest Hf Hwe Hpp Hpolls Hrest IH].
  - reflexivity.
  - rewrite !count_opcode_cons, count_opcode_app.
    rewrite (status_polls_not_programs polls (busy_wait_polls_are_polls _ Hpolls)).
    unfold request in Hwe, Hpp. injection Hwe as Hwe _. injection Hpp as Hpp _.
    unfold opcode. rewrite Hwe, Hpp. cbn [hd page_program_cmd app].
    change (6 =? 2) with false. change (2 =? 2) with true. cbv iota.
    rewrite ceil_pages_step.
    2:{ destruct f; [congruence|]. unfold len. cbn [length]. lia. }
    replace (Z.max 0 (len f - 256)) with (len (skipn page_len f)).
    2:{ unfold len. rewrite length_skipn. pose proof page_len_256. lia. }
    lia.
Qed.

Section WritePages.

Context {T : Type} `{SpiDevice T}.

(** On an adapter behind which the chip always becomes ready, the page loop
    ends, and its transfers are the page blocks of the unread bytes. *)
Lemma write_pages_total (file_size total_pages : Z) :
  (forall d : T, exists n : nat, wip_clears d n) ->
  forall (k : nat) (f : list byte), (length f <= k)%nat ->
  forall (address page_count : Z) (d : T),
  address + len f = file_size ->
  exists N : nat, forall fuel : nat, (N <= fuel)%nat ->
    let r := write_pages fuel file_size total_pages f address page_count d in
    res r = Ret tt /\ page_blocks f address (xfers (events r)).
Proof.
  intros Hready. induction k as [|k IH]; intros f Hk address page_count d Hsize.
  - destruct f; [|cbn in Hk; lia].
    exists 1%nat. intros fuel Hfuel. destruct fuel as [|fuel]; [lia|].
    cbv zeta. rewrite write_pages_step.
    assert (E : (address <? file_size) = false)
      by (apply Z.ltb_ge; unfold len in Hsize; cbn [length] in Hsize; lia).
    rewrite E. split; [reflexivity | constructor].
  - destruct f as [|b f'] eqn:Ef.
    { exists 1%nat. intros fuel Hfuel. destruct fuel as [|fuel]; [lia|].
      cbv zeta. rewrite write_pages_step.
      assert (E : (address <? file_size) = false)
        by (apply Z.ltb_ge; unfold len in Hsize; cbn [length] in Hsize; lia).
      rewrite E. split; [reflexivity | constructor]. }
    rewrite <- Ef in *.
    assert (Hne : f <> []) by (rewrite Ef; discriminate).
    assert (Hlt : (address <? file_size) = true).
    { apply Z.ltb_lt. unfold len in Hsize. rewrite Ef in Hsize.
      cbn [length] in Hsize. lia. }
    pose proof page_len_256 as E256.
    set (page_data := firstn page_len f).
    set (p1 := transfer d WRITE_ENABLE None).
    set (p2 := transfer (snd p1) (page_program_cmd address page_data) None).
    destruct (Hready (snd p2)) as (n & Hn).
    assert (Hshort : (length (skipn page_len f) <= k)%nat).
    { rewrite length_skipn. rewrite Ef in *. cbn [length] in *. lia. }
    assert (Hsize' : address + len page_data + len (skipn page_len f) = file_size).
    { rewrite <- Hsize. subst page_data. rewrite <- Z.add_assoc, <- len_app.
      rewrite firstn_skipn. reflexivity. }
    destruct (IH (skipn page_len f) Hshort (address + len page_data)
                (page_count + 1) (after_polls n (snd p2)) Hsize') as (N & HN).
    exists (S (Nat.max n N)). intros fuel Hfuel.
    destruct fuel as [|fuel]; [lia|].
    cbv zeta. rewrite write_pages_step, Hlt.
    assert (Hpage : nonempty (firstn page_len f) = true).
    { rewrite Ef. destruct page_len eqn:En; [lia | reflexivity]. }
    rewrite Hpage. cbv zeta. fold page_data. fold p1. fold p2.
    rewrite (poll_status_runs [EvSleep 1] (snd p2) n Hn fuel) by lia.
    cbn [res dev events].
    destruct (HN fuel ltac:(lia)) as (Hres & Hblocks).
    split; [exact Hres|].
    cbn [app xfers]. rewrite !xfers_app, write_progress_quiet.
    rewrite (xfers_poll_events [EvSleep 1] n (snd p2) eq_refl). cbn [app].
    apply pages_more.
    + exact Hne.
    + reflexivity.
    + reflexivity.
    + apply wip_clears_polls. exact Hn.
    + exact Hblocks.
Qed.

End WritePages.

Lemma verified_no_program (file : list byte) (i : nat) (evs : list Event) (fl : Flow) :
  verified file i evs fl -> count_opcode 0x02 (xfers evs) = O.
Proof.
  induction 1 as [i Hi | i actual Hi Hbad | i evs fl Hi Hrest IH].
  - reflexivity.
  - reflexivity.
  - cbn [xfers]. rewrite xfers_app, verify_progress_quiet. cbn [app].
    rewrite count_opcode_cons, IH. reflexivity.
Qed.

Section WriteSession.

Context {T : Type} `{SpiDevice T}.

Hypothesis becomes_ready : forall d : T, exists n : nat, wip_clears d n.

Lemma erase_flash_total (d : T) :
  exists (n : nat) (d' : T) (evs : list Event),
    count_opcode 0x02 (xfers evs) = O /\
    forall fuel : nat, (n <= fuel)%nat ->
      erase_flash fuel d = mkRun (Ret true) d' evs.
Proof.
  set (p1 := transfer d WRITE_ENABLE None).
  set (p2 := transfer (snd p1) CHIP_ERASE None).
  destruct (becomes_ready (snd p2)) as (n & Hn).
  exists n, (after_polls n (snd p2)).
  exists (EvPrint MsgErasingStart
          :: EvTransfer (mkXfer WRITE_ENABLE None (fst p1))
          :: EvTransfer (mkXfer CHIP_ERASE None (fst p2))
          :: poll_events [EvSleep 500; EvPrint MsgErasingElapsed] n (snd p2)
          ++ [EvPrint MsgEraseCompleted]).
  split.
  - cbn [xfers]. rewrite xfers_app, xfers_poll_events by reflexivity.
    rewrite !count_opcode_cons, count_opcode_app.
    rewrite (status_polls_not_programs _ (poll_xfers_are_polls n (snd p2))).
    reflexivity.
  - intros fuel Hfuel. unfold erase_flash, print.
    do 3 run_step. fold p1. fold p2.
    rewrite run_bind.
    rewrite (poll_status_runs _ (snd p2) n Hn fuel Hfuel).
    reflexivity.
Qed.

Lemma write_flash_total (file : list byte) (verify : bool) (d : T) :
  exists N : nat, forall fuel : nat, (N <= fuel)%nat ->
    let r := write_flash fuel file verify d in
    (exists b : bool, res r = Ret b) /\
    (verify = false -> res r = Ret true) /\
    exists pages after : list Xfer,
      xfers (events r) = pages ++ after /\
      page_blocks file 0 pages /\
      count_opcode 0x02 after = O.
Proof.
  destruct (write_pages_total (len file) ((len file + page_size - 1) / page_size)
              becomes_ready (length file) file (le_n _) 0 0 d eq_refl)
    as (N & HN).
  exists (Nat.max N (S (length file))). intros fuel Hfuel.
  destruct (HN fuel ltac:(lia)) as (Hres & Hblocks). cbv zeta in Hres, Hblocks.
  cbv zeta. unfold write_flash, print. run_step.
  rewrite run_bind, Hres. cbn [res dev events].
  set (wp := write_pages fuel (len file) ((len file + page_size - 1) / page_size)
               file 0 0 d) in *.
  run_step. destruct verify.
  - run_step. rewrite run_bind.
    destruct (verify_pass_spec fuel file (dev wp) ltac:(lia)) as (fl & Hfl & Hver).
    cbv zeta in Hfl, Hver. rewrite Hfl.
    set (vc := verify_chunks fuel (len file) file 0 (dev wp)) in *.
    pose proof (verified_no_program _ _ _ _ Hver) as Hnone.
    split; [destruct fl; cbn [res]; eexists; reflexivity|].
    split; [discriminate|].
    exists (xfers (events wp)), (xfers (events vc)).
    split; [|split; [exact Hblocks | exact Hnone]].
    cbn [events app xfers]. rewrite !xfers_app. cbn [xfers app].
    rewrite xfers_app. destruct fl; cbn [events xfers]; rewrite app_nil_r; reflexivity.
  - split; [eexists; reflexivity|]. split; [reflexivity|].
    exists (xfers (events wp)), []. split; [|split; [exact Hblocks | reflexivity]].
    cbn [events app xfers]. rewrite !xfers_app. reflexivity.
Qed.

End WriteSession.

(** C5. When the file fits the flash, the adapter accepts its configuration
    and the chip always becomes ready again, [write_spi_flash] returns, and
    its transfers are: those of the optional chip erase, then for every page
    of the file, in order - 256 bytes, the last page whatever is left - a
    write-enable immediately followed by the page-program command, followed
    by status polls up to the first that shows bit 0 clear; then the
    verification reads, if any.  The page-program commands are exactly
    [ceil(len(file) / 256)]. *)
Theorem write_programs_each_page {T : Type} `{SpiDevice T} (content : list byte)
    (flash_size speed : Z) (erase_chip verify : bool) (d : T) :
  (forall d' : T, exists n : nat, wip_clears d' n) ->
  len content <= flash_size ->
  fst (configure d (spi_options speed)) = true ->
  exists N : nat, forall fuel : nat, (N <= fuel)%nat ->
    let r := write_spi_flash fuel (Some content) flash_size speed
               erase_chip verify d in
    (exists b : bool, res r = Ret b) /\
    (verify = false -> res r = Ret true) /\
    exists before pages after : list Xfer,
      xfers (events r) = before ++ pages ++ after /\
      page_blocks content 0 pages /\
      count_opcode 0x02 before = O /\
      count_opcode 0x02 after = O /\
      Z.of_nat (count_opcode 0x02 (xfers (events r))) = (len content + 255) / 256.
Proof.
  intros Hready Hfit Hcfg.
  assert (Hfit' : (flash_size <? len content) = false) by (apply Z.ltb_ge; lia).
  set (d0 := snd (configure d (spi_options speed))).
  assert (Hshape : forall (fuel : nat) (r : Run bool),
            r = write_spi_flash fuel (Some content) flash_size speed
                  erase_chip verify d ->
            forall (before pages after : list Xfer),
            xfers (events r) = before ++ pages ++ after ->
            page_blocks content 0 pages ->
            count_opcode 0x02 before = O ->
            count_opcode 0x02 after = O ->
            Z.of_nat (count_opcode 0x02 (xfers (events r))) = (len content + 255) / 256).
  { intros fuel r _ before pages after Hx Hb H0 H1.
    rewrite Hx, !count_opcode_app, H0, H1, Nat.add_0_r. cbn [Nat.add].
    apply page_blocks_count with (a := 0). exact Hb. }
  destruct erase_chip.
  - destruct (erase_flash_total Hready d0) as (n & d1 & evs & Hnone & Herase).
    destruct (write_flash_total Hready content verify d1) as (N & HN).
    exists (Nat.max n N). intros fuel Hfuel r.
    destruct (HN fuel ltac:(lia)) as (Hret & Htrue & pages & after & Hx & Hb & H1).
    cbv zeta in Hret, Htrue, Hx.
    assert (Er : res r = res (write_flash fuel content verify d1) /\
                 xfers (events r) = xfers evs ++ xfers (events (write_flash fuel content verify d1))).
    { subst r. unfold write_spi_flash, print. rewrite Hfit'.
      run_step. rewrite Hcfg. run_step. fold d0.
      rewrite run_bind, (Herase fuel ltac:(lia)). cbn [res dev events negb].
      cbn [app xfers]. rewrite xfers_app. split; reflexivity. }
    destruct Er as (Eres & Ex).
    split; [rewrite Eres; exact Hret|].
    split; [rewrite Eres; exact Htrue|].
    assert (Hx' : xfers (events r) = xfers evs ++ pages ++ after)
      by (rewrite Ex, Hx; reflexivity).
    exists (xfers evs), pages, after.
    split; [exact Hx'|]. split; [exact Hb|]. split; [exact Hnone|].
    split; [exact H1|].
    exact (Hshape fuel r eq_refl _ _ _ Hx' Hb Hnone H1).
  - destruct (write_flash_total Hready content verify d0) as (N & HN).
    exists N. intros fuel Hfuel r.
    destruct (HN fuel Hfuel) as (Hret & Htrue & pages & after & Hx & Hb & H1).
    cbv zeta in Hret, Htrue, Hx.
    assert (Er : res r = res (write_flash fuel content verify d0) /\
                 xfers (events r) = xfers (events (write_flash fuel content verify d0))).
    { subst r. unfold write_spi_flash, print. rewrite Hfit'.
      run_step. rewrite Hcfg. run_step. fold d0. run_step.
      cbn [negb app xfers]. split; reflexivity. }
    destruct Er as (Eres & Ex).
    split; [rewrite Eres; exact Hret|].
    split; [rewrite Eres; exact Htrue|].
    assert (Hx' : xfers (events r) = [] ++ pages ++ after)
      by (rewrite Ex, Hx; reflexivity).
    exists [], pages, after.
    split; [exact Hx'|]. split; [exact Hb|]. split; [reflexivity|].
    split; [exact H1|].
    exact (Hshape fuel r eq_refl _ _ _ Hx' Hb eq_refl H1).
Qed.

(** The chip model becomes ready after as many polls as it is busy. *)
Lemma chip_becomes_ready (c : Chip) : exists n : nat, wip_clears c n.
Proof.
  destruct c as [m b w]. exists (S b).
  induction b as [|b IH].
  - apply clears_now. reflexivity.
  - apply clears_later; [reflexivity | exact IH].
Qed.

Lemma write_programs_each_page_witness :
  exists N : nat, forall fuel : nat, (N <= fuel)%nat ->
    let r := write_spi_flash fuel (Some pattern_600) 1024 12000000 true true
               blank_chip in
    (exists b : bool, res r = Ret b) /\
    Z.of_nat (count_opcode 0x02 (xfers (events r))) = 3.
Proof.
  destruct (write_programs_each_page pattern_600 1024 12000000 true true
              blank_chip chip_becomes_ready)
    as (N & HN).
  - vm_compute. discriminate.
  - reflexivity.
  - exists N. intros fuel Hfuel.
    destruct (HN fuel Hfuel) as (Hb & _ & before & pages & after & _ & _ & _ & _ & Hc).
    split; [exact Hb | exact Hc].
Defined.

(** The 600-byte scenario, run: three page programs of 256, 256 and 88
    bytes at addresses 0, 256 and 512, and a verification that passes. *)
Example write_600_bytes :
  let r := write_spi_flash 20 (Some pattern_600) 1024 12000000 true true
             blank_chip in
  res r = Ret true /\
  map (fun x => (firstn 4 (write_data x), len (skipn 4 (write_data x))))
      (filter (fun x => opcode x =? 0x02) (xfers (events r))) =
    [([0x02; 0; 0; 0], 256); ([0x02; 0; 1; 0], 256); ([0x02; 0; 2; 0], 88)] /\
  map request (filter (fun x => opcode x =? 0x03) (xfers (events r))) =
    [([0x03; 0; 0; 0], Some 512); ([0x03; 0; 2; 0], Some 88)].
Proof. vm_compute. repeat split; reflexivity. Qed.


(** ** More on the reader *)

Section ReadOutcome.

Context {T : Type} `{SpiDevice T}.

Lemma accepted_read_ok (chunk_size : Z) (cmd : list Z) (r : Response) :
  accepted chunk_size (mkXfer cmd (Some chunk_size) r) = true ->
  read_ok (mkXfer cmd (Some chunk_size) r) /\
  len (match r with Some l => l | None => [] end) = chunk_size.
Proof.
  unfold accepted. cbn [response]. intros E.
  apply andb_true_iff in E as [Ht El]. apply Z.eqb_eq in El.
  destruct r as [l|]; [|discriminate].
  cbn [resp_len] in El. split; [|exact El].
  exists l. cbn [response read_bytes]. split; [reflexivity | congruence].
Qed.

(** What the chunk loop has done when it stops, whatever the adapter
    answers: the dump holds the chunks read so far and the loop's address
    has advanced by as much. *)
Lemma read_chunks_outcome (fuel : nat) :
  forall (flash_size chunk_size total_chunks address chunk_count : Z) (d : T),
  let r := read_chunks fuel flash_size chunk_size total_chunks address chunk_count d in
  (forall e : Exn, res r <> Raise e) /\
  (forall a : Z, res r = Ret (Continue a) ->
     a = address + len (sink (events r)) /\ flash_size <= a /\
     Forall read_ok (xfers (events r)) /\
     sink (events r) = received (xfers (events r))) /\
  (forall v : bool, res r = Ret (Return v) ->
     v = false /\
     exists (pre : list Event) (x : Xfer),
       let a := address + len (sink (events r)) in
       events r = pre ++ [EvTransfer x; EvPrint (MsgReadFailed a)] /\
       request x = (read_cmd a, Some chunk_size) /\
       accepted chunk_size x = false /\
       a < flash_size /\
       Forall read_ok (xfers pre) /\
       sink (events r) = received (xfers pre)).
Proof.
  induction fuel as [|fuel IH];
    intros flash_size chunk_size total_chunks address chunk_count d r; subst r.
  - cbn. repeat split; intros; discriminate.
  - rewrite read_chunks_step.
    destruct (Z.ltb_spec address flash_size) as [Hlt|Hge].
    2:{ cbn [res events sink xfers]. split; [discriminate|]. split.
        - intros a Ha. injection Ha as <-. unfold len. cbn [length].
          repeat split; try lia; constructor.
        - intros v Hv. discriminate. }
    cbv zeta.
    set (p := transfer d (read_cmd address) (Some chunk_size)).
    destruct (truthy (fst p) && (resp_len (fst p) =? chunk_size)) eqn:Eacc.
    + destruct (accepted_read_ok chunk_size (read_cmd address) (fst p) Eacc)
        as (Hok & Hlen).
      specialize (IH flash_size chunk_size total_chunks (address + chunk_size)
                    (chunk_count + 1) (snd p)).
      cbv zeta in IH. destruct IH as (IHr & IHc & IHf).
      set (rest := read_chunks fuel flash_size chunk_size total_chunks
                     (address + chunk_size) (chunk_count + 1) (snd p)) in *.
      destruct (read_progress_quiet flash_size total_chunks
                  (address + chunk_size) (chunk_count + 1)) as [Hq1 Hq2].
      cbn [res events]. cbn [sink xfers].
      rewrite sink_app, xfers_app, Hq1, Hq2. cbn [app].
      set (data := match fst p with Some l => l | None => [] end) in *.
      split; [exact IHr|]. split.
      * intros a Ha. destruct (IHc a Ha) as (Ea & Hfl & Hall & Hs).
        split; [rewrite len_app; lia|]. split; [exact Hfl|].
        split; [constructor; assumption|].
        unfold received in *. cbn [flat_map response]. fold data.
        rewrite Hs. reflexivity.
      * intros v Hv. destruct (IHf v Hv) as (Hv' & pre & x & Hev & Hreq & Hx & Ha & Hall & Hs).
        split; [exact Hv'|].
        exists (EvTransfer (mkXfer (read_cmd address) (Some chunk_size) (fst p))
                :: EvFileWrite data
                :: read_progress flash_size total_chunks
                     (address + chunk_size) (chunk_count + 1) ++ pre), x.
        cbv zeta in *.
        replace (address + len (data ++ sink (events rest)))
          with (address + chunk_size + len (sink (events rest)))
          by (rewrite len_app; lia).
        set (a' := address + chunk_size + len (sink (events rest))) in *.
        split; [rewrite Hev; cbn [app]; rewrite <- app_assoc; reflexivity|].
        split; [exact Hreq|]. split; [exact Hx|]. split; [exact Ha|].
        cbn [xfers]. rewrite xfers_app, Hq1. cbn [app].
        split; [constructor; assumption|].
        unfold received in *. cbn [flat_map response]. fold data.
        rewrite Hs. reflexivity.
    + cbn [res events sink xfers]. split; [discriminate|]. split.
      * intros a Ha. discriminate.
      * intros v Hv. injection Hv as <-. split; [reflexivity|].
        exists [], (mkXfer (read_cmd address) (Some chunk_size) (fst p)).
        cbv zeta. change (len (@nil byte)) with 0. rewrite Z.add_0_r.
        split; [reflexivity|]. split; [reflexivity|].
        split; [exact Eacc|]. split; [exact Hlt|].
        split; [constructor | reflexivity].
Qed.

End ReadOutcome.

Section ReadSessionOutcome.

Context {T : Type} `{SpiDevice T}.

(** [read_spi_flash] around its chunk loop, event by event. *)
Lemma read_spi_flash_events (fuel : nat) (host : Host)
    (flash_size speed chunk_size : Z) (d : T) :
  fst (configure d (spi_options speed)) = true ->
  output_opens host = true ->
  chunk_size <> 0 ->
  let lp := read_chunks fuel flash_size chunk_size (flash_size / chunk_size) 0 0
              (snd (configure d (spi_options speed))) in
  let r := read_spi_flash fuel host flash_size speed chunk_size d in
  events r =
    [EvConfigure (spi_options speed) true;
     EvPrint (MsgSpiConfigured speed);
     EvPrint (MsgReadingFlash (flash_size / (1024 * 1024)));
     EvPrint (MsgChunkSize chunk_size);
     EvOpenWrite]
    ++ events lp
    ++ match res lp with
       | Ret (Continue a) =>
           if total_time host =? 0 then []
           else [EvPrint (MsgReadSuccess a); EvPrint MsgAverageSpeed]
       | _ => []
       end.
Proof.
  intros Hcfg Hopen Hchunk lp r. subst r.
  unfold read_spi_flash, print.
  apply Z.eqb_neq in Hchunk.
  run_step. rewrite Hcfg. do 3 run_step. rewrite Hopen. run_step.
  rewrite Hchunk. run_step.
  rewrite events_bind. fold lp. cbn [app].
  destruct (res lp) as [[a|v]| |]; [|reflexivity ..].
  destruct (total_time host =? 0); reflexivity.
Qed.

(** What [read_spi_flash] does when the dump file cannot be opened. *)
Lemma read_spi_flash_unopened (fuel : nat) (host : Host)
    (flash_size speed chunk_size : Z) (d : T) :
  fst (configure d (spi_options speed)) = true ->
  output_opens host = false ->
  read_spi_flash fuel host flash_size speed chunk_size d =
  mkRun (Raise OSError) (snd (configure d (spi_options speed)))
        [EvConfigure (spi_options speed) true;
         EvPrint (MsgSpiConfigured speed);
         EvPrint (MsgReadingFlash (flash_size / (1024 * 1024)));
         EvPrint (MsgChunkSize chunk_size)].
Proof.
  intros Hcfg Hopen. unfold read_spi_flash, print.
  run_step. rewrite Hcfg. do 3 run_step. rewrite Hopen. reflexivity.
Qed.

(** X1. A chunk size of zero is not refused by [read_spi_flash]: once the
    adapter is configured it opens the dump file for writing, which empties
    it, and then raises [ZeroDivisionError] at [flash_size // chunk_size],
    before any transfer is made and with nothing written to the dump.
    (When the dump file cannot be opened the script has raised before, at
    the [open].) *)
Theorem read_zero_chunk_raises (fuel : nat) (host : Host) (flash_size speed : Z)
    (d : T) :
  fst (configure d (spi_options speed)) = true ->
  let r := read_spi_flash fuel host flash_size speed 0 d in
  xfers (events r) = [] /\
  sink (events r) = [] /\
  (output_opens host = true ->
   res r = Raise ZeroDivisionError /\
   exists pre : list Event,
     events r = pre ++ [EvOpenWrite] /\ ~ In EvOpenWrite pre) /\
  (output_opens host = false ->
   res r = Raise OSError /\ ~ In EvOpenWrite (events r)).
Proof.
  intros Hcfg r.
  destruct (output_opens host) eqn:Hopen.
  - assert (E : r = mkRun (Raise ZeroDivisionError)
                      (snd (configure d (spi_options speed)))
                      [EvConfigure (spi_options speed) true;
                       EvPrint (MsgSpiConfigured speed);
                       EvPrint (MsgReadingFlash (flash_size / (1024 * 1024)));
                       EvPrint (MsgChunkSize 0);
                       EvOpenWrite]).
    { subst r. unfold read_spi_flash, print. run_step. rewrite Hcfg.
      do 3 run_step. rewrite Hopen. run_step. reflexivity. }
    rewrite E. cbn [res events].
    split; [reflexivity|]. split; [reflexivity|].
    split; [|discriminate]. intros _.
    split; [reflexivity|].
    exists [EvConfigure (spi_options speed) true;
            EvPrint (MsgSpiConfigured speed);
            EvPrint (MsgReadingFlash (flash_size / (1024 * 1024)));
            EvPrint (MsgChunkSize 0)].
    split; [reflexivity|].
    cbn [In]. intros [F|[F|[F|[F|[]]]]]; discriminate.
  - subst r. rewrite (read_spi_flash_unopened fuel host flash_size speed 0 d Hcfg Hopen).
    cbn [res events].
    split; [reflexivity|]. split; [reflexivity|].
    split; [discriminate|]. intros _.
    split; [reflexivity|].
    cbn [In]. intros [F|[F|[F|[F|[]]]]]; discriminate.
Qed.

(** X2. When the adapter is configured and a read comes back without exactly
    [chunk_size] bytes, [read_spi_flash] stops there: it returns [False]
    after printing the address of that read, which is the number of bytes
    already in the dump; every earlier read succeeded and the dump holds
    exactly what they returned. *)
Theorem read_stops_at_first_bad_read (fuel : nat) (host : Host)
    (flash_size speed chunk_size : Z) (d : T) :
  fst (configure d (spi_options speed)) = true ->
  chunk_size <> 0 ->
  let r := read_spi_flash fuel host flash_size speed chunk_size d in
  res r = Ret false ->
  exists (pre : list Event) (x : Xfer),
    let a := len (sink (events r)) in
    events r = pre ++ [EvTransfer x; EvPrint (MsgReadFailed a)] /\
    request x = (read_cmd a, Some chunk_size) /\
    accepted chunk_size x = false /\
    a < flash_size /\
    Forall read_ok (xfers pre) /\
    sink (events r) = received (xfers pre).
Proof.
  intros Hcfg Hchunk r Hfalse. subst r.
  destruct (output_opens host) eqn:Hopen.
  2:{ rewrite (read_spi_flash_unopened fuel host flash_size speed chunk_size d
                 Hcfg Hopen) in Hfalse. discriminate. }
  destruct (read_spi_flash_run fuel host flash_size speed chunk_size d Hcfg Hopen Hchunk)
    as (Hres & _ & Hsink).
  pose proof (read_spi_flash_events fuel host flash_size speed chunk_size d
                Hcfg Hopen Hchunk) as Hev.
  cbv zeta in Hres, Hsink, Hev.
  destruct (read_chunks_outcome fuel flash_size chunk_size
              (flash_size / chunk_size) 0 0 (snd (configure d (spi_options speed))))
    as (_ & _ & Hfail).
  set (lp := read_chunks fuel flash_size chunk_size (flash_size / chunk_size) 0 0
               (snd (configure d (spi_options speed)))) in *.
  rewrite Hres in Hfalse.
  destruct (res lp) as [[a|v]|e|] eqn:Elp; try discriminate.
  { destruct (total_time host =? 0); discriminate. }
  injection Hfalse as ->.
  destruct (Hfail false eq_refl) as (_ & pre & x & Hpre & Hreq & Hx & Ha & Hall & Hs).
  cbv zeta in Hpre, Hreq, Ha. rewrite Z.add_0_l in Hpre, Hreq, Ha.
  rewrite Hsink. cbv zeta.
  exists ([EvConfigure (spi_options speed) true;
           EvPrint (MsgSpiConfigured speed);
           EvPrint (MsgReadingFlash (flash_size / (1024 * 1024)));
           EvPrint (MsgChunkSize chunk_size);
           EvOpenWrite] ++ pre), x.
  split.
  { rewrite Hev. set (a := len (sink (events lp))) in *.
    rewrite Hpre, app_nil_r, <- app_assoc. reflexivity. }
  split; [exact Hreq|]. split; [exact Hx|]. split; [exact Ha|].
  split; [rewrite xfers_app; exact Hall | exact Hs].
Qed.

(** X3. [read_spi_flash] returns [True] only after every read has returned
    exactly the bytes asked for; the dump is then what the reads returned,
    in order, at least [flash_size] bytes, and the final report names its
    length.  The dump file had opened and the clock had moved on. *)
Theorem read_success_means_every_read_ok (fuel : nat) (host : Host)
    (flash_size speed chunk_size : Z) (d : T) :
  let r := read_spi_flash fuel host flash_size speed chunk_size d in
  res r = Ret true ->
  Forall read_ok (xfers (events r)) /\
  Forall (fun x => read_bytes x = Some chunk_size) (xfers (events r)) /\
  sink (events r) = received (xfers (events r)) /\
  flash_size <= len (sink (events r)) /\
  (exists pre : list Event,
     events r = pre ++ [EvPrint (MsgReadSuccess (len (sink (events r))));
                        EvPrint MsgAverageSpeed]) /\
  output_opens host = true /\
  total_time host <> 0.
Proof.
  intros r Htrue. subst r.
  destruct (fst (configure d (spi_options speed))) eqn:Hcfg.
  2:{ exfalso. revert Htrue. unfold read_spi_flash, print.
      run_step. rewrite Hcfg. run_step. discriminate. }
  destruct (output_opens host) eqn:Hopen.
  2:{ rewrite (read_spi_flash_unopened fuel host flash_size speed chunk_size d
                 Hcfg Hopen) in Htrue. discriminate. }
  destruct (Z.eq_dec chunk_size 0) as [Hz|Hchunk].
  { exfalso. revert Htrue. unfold read_spi_flash, print.
    run_step. rewrite Hcfg. do 3 run_step. rewrite Hopen. run_step.
    subst chunk_size. discriminate. }
  destruct (read_spi_flash_run fuel host flash_size speed chunk_size d Hcfg Hopen Hchunk)
    as (Hres & Hx & Hsink).
  pose proof (read_spi_flash_events fuel host flash_size speed chunk_size d
                Hcfg Hopen Hchunk) as Hev.
  cbv zeta in Hres, Hx, Hsink, Hev.
  destruct (read_chunks_outcome fuel flash_size chunk_size
              (flash_size / chunk_size) 0 0 (snd (configure d (spi_options speed))))
    as (_ & Hdone & Hfail).
  set (lp := read_chunks fuel flash_size chunk_size (flash_size / chunk_size) 0 0
               (snd (configure d (spi_options speed)))) in *.
  rewrite Hres in Htrue.
  destruct (res lp) as [[a|v]|e|] eqn:Elp; try discriminate.
  2:{ destruct (Hfail v eq_refl) as (Hv & _). congruence. }
  destruct (Z.eqb_spec (total_time host) 0) as [Hzero|Hmoved]; [discriminate|].
  destruct (Hdone a eq_refl) as (Ea & Hge & Hall & Hs).
  rewrite Z.add_0_l in Ea.
  rewrite Hx, Hsink.
  split; [exact Hall|]. split.
  { clear - Hall Elp. subst lp.
    assert (G : forall fuel fs cs tc a cc (d : T),
              Forall (fun x => read_bytes x = Some cs)
                     (xfers (events (read_chunks fuel fs cs tc a cc d)))).
    { clear. induction fuel as [|fuel IH]; intros; [constructor|].
      rewrite read_chunks_step. destruct (a <? fs); [|constructor].
      cbv zeta. destruct (truthy _ && _).
      - cbn [events xfers]. rewrite xfers_app.
        rewrite (proj1 (read_progress_quiet _ _ _ _)). cbn [app].
        constructor; [reflexivity | apply IH].
      - repeat constructor. }
    apply G. }
  split; [exact Hs|]. split; [lia|].
  split; [|split; [reflexivity | exact Hmoved]].
  rewrite Hev, <- Ea.
  eexists (_ ++ events lp). rewrite <- app_assoc. reflexivity.
Qed.

End ReadSessionOutcome.

(** An adapter that returns one good 512-byte chunk and then nothing. *)
Lemma read_stops_at_first_bad_read_witness :
  let r := read_spi_flash 20 working_host 4096 12000000 512
             (mkScripted true [Some (repeat x5a 512); None]) in
  res r = Ret false /\
  prints (events r) = [MsgSpiConfigured 12000000; MsgReadingFlash 0;
                       MsgChunkSize 512; MsgProgress 512 4096 Reading;
                       MsgReadFailed 512] /\
  exists (pre : list Event) (x : Xfer),
    events r = pre ++ [EvTransfer x; EvPrint (MsgReadFailed 512)] /\
    sink (events r) = received (xfers pre).
Proof.
  assert (Hres : res (read_spi_flash 20 working_host 4096 12000000 512
                        (mkScripted true [Some (repeat x5a 512); None]))
                 = Ret false) by (vm_compute; reflexivity).
  destruct (read_stops_at_first_bad_read 20 working_host 4096 12000000 512
              (mkScripted true [Some (repeat x5a 512); None]))
    as (pre & x & Hev & _ & _ & _ & _ & Hs).
  - reflexivity.
  - discriminate.
  - exact Hres.
  - split; [exact Hres|]. split; [vm_compute; reflexivity|].
    exists pre, x. split; [exact Hev | exact Hs].
Defined.

Lemma read_success_means_every_read_ok_witness :
  let r := read_spi_flash 9 working_host 8 12000000 2 blank_chip in
  Forall read_ok (xfers (events r)) /\ 8 <= len (sink (events r)).
Proof.
  destruct (read_success_means_every_read_ok 9 working_host 8 12000000 2 blank_chip)
    as (Hall & _ & _ & Hlen & _).
  - vm_compute. reflexivity.
  - split; [exact Hall | exact Hlen].
Defined.

Lemma read_zero_chunk_raises_witness :
  let r := read_spi_flash 9 working_host 4096 12000000 0 blank_chip in
  res r = Raise ZeroDivisionError /\ xfers (events r) = [].
Proof.
  destruct (read_zero_chunk_raises 9 working_host 4096 12000000 blank_chip)
    as (Hx & _ & Hopen & _).
  - reflexivity.
  - split; [exact (proj1 (Hopen eq_refl)) | exact Hx].
Defined.


(** ** More on the writer *)

Section WriteOutcome.

Context {T : Type} `{SpiDevice T}.

Lemma poll_status_res (fuel : nat) (idle : list Event) (d : T) :
  res (poll_status fuel idle d) = Ret tt \/ res (poll_status fuel idle d) = OutOfFuel.
Proof.
  pose proof (poll_status_never_raises fuel idle d) as Hn.
  destruct (res (poll_status fuel idle d)) as [[]|e|];
    [left; reflexivity | exfalso; exact (Hn e eq_refl) | right; reflexivity].
Qed.

Lemma status_poll_opcode (x : Xfer) : is_status_poll x -> opcode x = 0x05.
Proof. intros [Hw _]. unfold opcode. rewrite Hw. reflexivity. Qed.

Lemma poll_status_opcodes (fuel : nat) (idle : list Event) (d : T) :
  xfers idle = [] ->
  Forall (fun x => opcode x = 0x05) (xfers (events (poll_status fuel idle d))).
Proof.
  intros Hidle. eapply Forall_impl; [|apply poll_status_only_polls; exact Hidle].
  exact status_poll_opcode.
Qed.

(** The page loop ends normally or is still waiting; it sends only
    write-enable, page-program and read-status commands. *)
Lemma write_pages_outcome (fuel : nat) :
  forall (file_size total_pages : Z) (f : list byte) (address page_count : Z) (d : T),
  let r := write_pages fuel file_size total_pages f address page_count d in
  (res r = Ret tt \/ res r = OutOfFuel) /\
  Forall (fun x => In (opcode x) [0x06; 0x02; 0x05]) (xfers (events r)).
Proof.
  induction fuel as [|fuel IH]; intros file_size total_pages f address page_count d r;
    subst r.
  - split; [right; reflexivity | constructor].
  - rewrite write_pages_step.
    destruct (address <? file_size); [|split; [left; reflexivity | constructor]].
    destruct (nonempty (firstn page_len f)); [|split; [left; reflexivity | constructor]].
    cbv zeta.
    set (p1 := transfer d WRITE_ENABLE None).
    set (p2 := transfer (snd p1) (page_program_cmd address (firstn page_len f)) None).
    pose proof (poll_status_opcodes fuel [EvSleep 1] (snd p2) eq_refl) as Hp.
    assert (Hp' : Forall (fun x => In (opcode x) [0x06; 0x02; 0x05])
                         (xfers (events (poll_status fuel [EvSleep 1] (snd p2))))).
    { eapply Forall_impl; [|exact Hp]. cbn beta. intros x ->. cbn. auto. }
    destruct (poll_status_res fuel [EvSleep 1] (snd p2)) as [E|E]; rewrite E.
    + destruct (IH file_size total_pages (skipn page_len f)
                  (address + len (firstn page_len f)) (page_count + 1)
                  (dev (poll_status fuel [EvSleep 1] (snd p2)))) as (Hres & Hops).
      cbn [res events]. split; [exact Hres|].
      cbn [app xfers]. rewrite !xfers_app, write_progress_quiet. cbn [app].
      constructor; [cbn; auto|]. constructor; [cbn; auto|].
      apply Forall_app. split; assumption.
    + cbn [res events]. split; [right; reflexivity|].
      cbn [app xfers].
      constructor; [cbn; auto|]. constructor; [cbn; auto|]. exact Hp'.
Qed.

(** The verification loop never raises and sends only read commands. *)
Lemma verify_chunks_outcome (fuel : nat) :
  forall (file_size : Z) (f : list byte) (address : Z) (d : T),
  let r := verify_chunks fuel file_size f address d in
  (forall e : Exn, res r <> Raise e) /\
  Forall (fun x => opcode x = 0x03) (xfers (events r)).
Proof.
  induction fuel as [|fuel IH]; intros file_size f address d r; subst r.
  - split; [discriminate | constructor].
  - rewrite verify_chunks_step.
    destruct (address <? file_size); [|split; [discriminate | constructor]].
    destruct (firstn chunk_len f) as [|b l] eqn:E;
      [split; [discriminate | constructor]|].
    cbv zeta. destruct (resp_differs _ _).
    + split; [discriminate|]. repeat constructor.
    + destruct (IH file_size (skipn chunk_len f) (address + len (b :: l))
                  (snd (transfer d (read_cmd address) (Some (len (b :: l))))))
        as (Hres & Hops).
      cbn [res events]. split; [exact Hres|].
      cbn [xfers]. rewrite xfers_app, verify_progress_quiet. cbn [app].
      constructor; [reflexivity | exact Hops].
Qed.

Lemma erase_flash_outcome (fuel : nat) (d : T) :
  let r := erase_flash fuel d in
  (res r = Ret true \/ res r = OutOfFuel) /\
  Forall (fun x => In (opcode x) [0x06; 0xC7; 0x05]) (xfers (events r)).
Proof.
  cbv zeta. unfold erase_flash, print. do 3 run_step.
  set (d2 := snd (transfer (snd (transfer d WRITE_ENABLE None)) CHIP_ERASE None)).
  rewrite res_bind, events_bind.
  pose proof (poll_status_opcodes fuel [EvSleep 500; EvPrint MsgErasingElapsed]
                d2 eq_refl) as Hp.
  assert (Hp' : Forall (fun x => In (opcode x) [0x06; 0xC7; 0x05])
                  (xfers (events (poll_status fuel
                                    [EvSleep 500; EvPrint MsgErasingElapsed] d2)))).
  { eapply Forall_impl; [|exact Hp]. cbn beta. intros x ->. cbn. auto. }
  cbn [app xfers]. rewrite xfers_app.
  destruct (poll_status_res fuel [EvSleep 500; EvPrint MsgErasingElapsed] d2)
    as [E|E]; rewrite E.
  - split; [left; reflexivity|].
    constructor; [cbn; auto|]. constructor; [cbn; auto|].
    apply Forall_app. split; [exact Hp' | constructor].
  - split; [right; reflexivity|].
    constructor; [cbn; auto|]. constructor; [cbn; auto|].
    apply Forall_app. split; [exact Hp' | constructor].
Qed.

Lemma write_flash_outcome (fuel : nat) (file : list byte) (verify : bool) (d : T) :
  let r := write_flash fuel file verify d in
  (forall e : Exn, res r <> Raise e) /\
  (verify = false -> res r = Ret true \/ res r = OutOfFuel) /\
  Forall (fun x => In (opcode x) ([0x06; 0x02; 0x05] ++ if verify then [0x03] else []))
         (xfers (events r)).
Proof.
  cbv zeta. unfold write_flash, print. run_step. rewrite run_bind.
  destruct (write_pages_outcome fuel (len file) ((len file + page_size - 1) / page_size)
              file 0 0 d) as (Hres & Hops).
  set (wp := write_pages fuel (len file) ((len file + page_size - 1) / page_size)
               file 0 0 d) in *.
  assert (Hops' : Forall (fun x => In (opcode x)
                                      ([0x06; 0x02; 0x05] ++ if verify then [0x03] else []))
                         (xfers (events wp))).
  { eapply Forall_impl; [|exact Hops]. cbn beta. intros x Hx.
    apply in_or_app. left. exact Hx. }
  destruct Hres as [E|E]; rewrite E.
  2:{ cbn [res events]. split; [discriminate|]. split; [right; reflexivity|].
      cbn [app xfers]. exact Hops'. }
  run_step. destruct verify.
  - run_step. rewrite run_bind.
    destruct (verify_chunks_outcome fuel (len file) file 0 (dev wp)) as (Hvr & Hvo).
    set (vc := verify_chunks fuel (len file) file 0 (dev wp)) in *.
    assert (Hvo' : Forall (fun x => In (opcode x) ([0x06; 0x02; 0x05] ++ [0x03]))
                          (xfers (events vc))).
    { eapply Forall_impl; [|exact Hvo]. cbn beta. intros x ->. cbn. auto. }
    destruct (res vc) as [[a|v]|e|] eqn:Evc; cbn [res events].
    + split; [discriminate|]. split; [discriminate|].
      cbn [app xfers]. rewrite !xfers_app. cbn [xfers app]. rewrite !xfers_app.
      apply Forall_app. split; [exact Hops'|].
      apply Forall_app. split; [exact Hvo' | constructor].
    + split; [discriminate|]. split; [discriminate|].
      cbn [app xfers]. rewrite !xfers_app. cbn [xfers app]. rewrite !xfers_app.
      apply Forall_app. split; [exact Hops'|].
      apply Forall_app. split; [exact Hvo' | constructor].
    + exfalso. exact (Hvr e eq_refl).
    + split; [discriminate|]. split; [discriminate|].
      cbn [app xfers]. rewrite !xfers_app. cbn [xfers app].
      apply Forall_app. split; [exact Hops' | exact Hvo'].
  - cbn [res events]. split; [discriminate|]. split; [left; reflexivity|].
    cbn [app xfers]. rewrite !xfers_app. cbn [xfers app]. rewrite app_nil_r.
    exact Hops'.
Qed.

Lemma write_spi_flash_outcome (fuel : nat) (file : option (list byte))
    (flash_size speed : Z) (erase_chip verify : bool) (d : T) :
  let r := write_spi_flash fuel file flash_size speed erase_chip verify d in
  (forall e : Exn, res r <> Raise e) /\
  (verify = false ->
   forall content : list byte, file = Some content -> len content <= flash_size ->
   fst (configure d (spi_options speed)) = true ->
   res r = Ret true \/ res r = OutOfFuel) /\
  Forall (fun x => In (opcode x)
                      ((if erase_chip then [0xC7] else []) ++ [0x06; 0x02; 0x05]
                       ++ if verify then [0x03] else []))
         (xfers (events r)).
Proof.
  cbv zeta. unfold write_spi_flash, print.
  destruct file as [content|].
  2:{ run_step. cbn. split; [discriminate|]. split; [intros; discriminate | constructor]. }
  destruct (flash_size <? len content) eqn:Efit.
  { run_step. cbn. split; [discriminate|]. split; [|constructor].
    intros _ c Hc Hle. injection Hc as <-. apply Z.ltb_lt in Efit. lia. }
  run_step. destruct (fst (configure d (spi_options speed))) eqn:Hcfg.
  2:{ run_step. cbn. split; [discriminate|]. split; [|constructor].
      intros; discriminate. }
  run_step. set (d0 := snd (configure d (spi_options speed))).
  assert (Hin : forall (ops : list Z) (xs : list Xfer),
            Forall (fun x => In (opcode x) ops) xs ->
            (forall o, In o ops ->
               In o ((if erase_chip then [0xC7] else []) ++ [0x06; 0x02; 0x05]
                     ++ if verify then [0x03] else [])) ->
            Forall (fun x => In (opcode x)
                      ((if erase_chip then [0xC7] else []) ++ [0x06; 0x02; 0x05]
                       ++ if verify then [0x03] else [])) xs).
  { intros ops xs Hxs Hsub. eapply Forall_impl; [|exact Hxs]. cbn beta.
    intros x Hx. apply Hsub. exact Hx. }
  destruct erase_chip.
  - rewrite run_bind.
    destruct (erase_flash_outcome fuel d0) as (Her & Heo).
    set (er := erase_flash fuel d0) in *.
    assert (Heo' := Hin _ _ Heo ltac:(cbn; intuition)).
    destruct Her as [E|E]; rewrite E.
    2:{ cbn [res events]. split; [discriminate|]. split; [intros; right; reflexivity|].
        cbn [app xfers]. exact Heo'. }
    cbn [negb].
    destruct (write_flash_outcome fuel content verify (dev er)) as (Hwr & Hwt & Hwo).
    cbn [res events]. split; [exact Hwr|]. split; [intros Hv _ _ _ _; exact (Hwt Hv)|].
    cbn [app xfers]. rewrite xfers_app.
    apply Forall_app. split; [exact Heo'|].
    apply (Hin _ _ Hwo). intros o Ho. apply in_or_app. right. exact Ho.
  - run_step. cbn [negb].
    destruct (write_flash_outcome fuel content verify d0) as (Hwr & Hwt & Hwo).
    split; [exact Hwr|]. split; [intros Hv _ _ _ _; exact (Hwt Hv)|].
    cbn [app xfers]. exact Hwo.
Qed.

End WriteOutcome.


(** ** The command lines *)

Lemma script_events_app (a b : list CliEvent) :
  script_events (a ++ b) = script_events a ++ script_events b.
Proof.
  induction a as [|e a IH]; [reflexivity|].
  destruct e; cbn [app script_events]; rewrite IH; reflexivity.
Qed.

Lemma script_events_map (evs : list Event) :
  script_events (map CliScript evs) = evs.
Proof. induction evs as [|e evs IH]; [reflexivity|]. cbn. rewrite IH. reflexivity. Qed.

(** When [read_spi_flash] raises although [chunk_size] is not zero, it is
    the host: the dump file did not open, before any transfer, or the clock
    showed no time passed, after the last chunk was written. *)
Lemma read_spi_flash_raises {T : Type} `{SpiDevice T} (fuel : nat) (host : Host)
    (flash_size speed chunk_size : Z) (d : T) (e : Exn) :
  chunk_size <> 0 ->
  let r := read_spi_flash fuel host flash_size speed chunk_size d in
  res r = Raise e ->
  e = OSError /\ output_opens host = false /\ xfers (events r) = [] \/
  e = ZeroDivisionError /\ output_opens host = true /\ total_time host = 0 /\
  Forall read_ok (xfers (events r)) /\
  sink (events r) = received (xfers (events r)) /\
  flash_size <= len (sink (events r)).
Proof.
  intros Hnz r Hraise. subst r.
  destruct (fst (configure d (spi_options speed))) eqn:Hcfg.
  2:{ exfalso. revert Hraise. unfold read_spi_flash, print.
      run_step. rewrite Hcfg. run_step. discriminate. }
  destruct (output_opens host) eqn:Hopen.
  2:{ left.
      rewrite (read_spi_flash_unopened fuel host flash_size speed chunk_size d
                 Hcfg Hopen) in *.
      cbn [res events] in *. injection Hraise as <-.
      split; [reflexivity|]. split; reflexivity. }
  right.
  destruct (read_spi_flash_run fuel host flash_size speed chunk_size d Hcfg Hopen Hnz)
    as (Hres & Hx & Hs).
  destruct (read_chunks_outcome fuel flash_size chunk_size
              (flash_size / chunk_size) 0 0 (snd (configure d (spi_options speed))))
    as (Hnr & Hdone & _).
  cbv zeta in Hres, Hx, Hs. rewrite Hx, Hs. rewrite Hres in Hraise.
  destruct (res (read_chunks _ _ _ _ _ _ _)) as [[a|v]|e'|] eqn:E;
    try discriminate.
  - destruct (Z.eqb_spec (total_time host) 0) as [Hzero|Hmoved]; [|discriminate].
    injection Hraise as <-.
    destruct (Hdone a eq_refl) as (Ea & Hge & Hall & Hrecv).
    split; [reflexivity|]. split; [reflexivity|]. split; [exact Hzero|].
    split; [exact Hall|]. split; [exact Hrecv | lia].
  - exfalso. exact (Hnr e' eq_refl).
Qed.

(** X5. [main] of the reader refuses a flash size that is not positive and a
    chunk size outside 1..4096 with exit code 1, before it opens the port:
    nothing of the script runs. *)
Theorem read_main_refuses_bad_arguments {T : Type} `{SpiDevice T} (fuel : nat)
    (host : Host) (size speed chunk : Z) (client : option T) :
  size <= 0 \/ chunk <= 0 \/ 4096 < chunk ->
  let out := read_main fuel host size speed chunk client in
  fst out = Some 1 /\
  ~ In CliConnect (snd out) /\
  script_events (snd out) = [] /\
  exists m : CliMsg, snd out = [CliPrint m] /\ (m = CliBadSize <-> size <= 0).
Proof.
  intros Hbad. cbv zeta. unfold read_main.
  destruct (Z.leb_spec size 0) as [Hs|Hs].
  - cbn. split; [reflexivity|]. split; [intros [E|[]]; discriminate|].
    split; [reflexivity|]. exists CliBadSize. split; [reflexivity|].
    split; [intros _; exact Hs | reflexivity].
  - assert (E : (chunk <=? 0) || (4096 <? chunk) = true).
    { apply orb_true_iff. destruct Hbad as [Hb|[Hb|Hb]]; [lia| |].
      - left. apply Z.leb_le. exact Hb.
      - right. apply Z.ltb_lt. exact Hb. }
    rewrite E. cbn. split; [reflexivity|]. split; [intros [E'|[]]; discriminate|].
    split; [reflexivity|]. exists CliBadChunk. split; [reflexivity|].
    split; [discriminate | lia].
Qed.

(** X6. With arguments [main] accepts and a client that opens, [main] closes
    the client exactly when [read_spi_flash] returns, and the exit code is
    then 0 for [True] and 1 for [False].  When [read_spi_flash] raises,
    [main] prints the error and returns 1 without closing the client.  The
    division by the chunk size is not what raises, since the chunk size is
    at least 1: it is the [open] of the dump file, before any transfer, or
    the division by the elapsed time when the clock shows none, after the
    whole flash has been read and written to the dump. *)
Theorem read_main_closes_only_on_return {T : Type} `{SpiDevice T} (fuel : nat)
    (host : Host) (size speed chunk : Z) (d : T) :
  0 < size ->
  1 <= chunk <= 4096 ->
  let out := read_main fuel host size speed chunk (Some d) in
  let r := read_spi_flash fuel host size speed chunk d in
  let opened := CliConnect :: CliPrint CliConnected :: map CliScript (events r) in
  script_events (snd out) = events r /\
  (forall b : bool, res r = Ret b ->
     out = (Some (if b then 0 else 1), opened ++ [CliClose])) /\
  (forall e : Exn, res r = Raise e ->
     out = (Some 1, opened ++ [CliPrint CliError]) /\
     (e = OSError /\ output_opens host = false /\ xfers (events r) = [] \/
      e = ZeroDivisionError /\ output_opens host = true /\ total_time host = 0 /\
      Forall read_ok (xfers (events r)) /\
      sink (events r) = received (xfers (events r)) /\
      size <= len (sink (events r)))) /\
  (res r = OutOfFuel -> out = (None, opened)) /\
  (In CliClose (snd out) <-> exists b : bool, res r = Ret b) /\
  (In (CliPrint CliError) (snd out) <-> exists e : Exn, res r = Raise e) /\
  (output_opens host = true -> total_time host <> 0 ->
   forall e : Exn, res r <> Raise e).
Proof.
  intros Hsize Hchunk. cbv zeta. unfold read_main.
  assert (E1 : (size <=? 0) = false) by (apply Z.leb_gt; lia).
  assert (E2 : (chunk <=? 0) || (4096 <? chunk) = false).
  { apply orb_false_iff. split; [apply Z.leb_gt | apply Z.ltb_ge]; lia. }
  rewrite E1, E2.
  pose proof (fun e => read_spi_flash_raises fuel host size speed chunk d e
                         ltac:(lia)) as Hraises.
  cbv zeta in Hraises.
  set (r := read_spi_flash fuel host size speed chunk d) in *.
  assert (Hmap : ~ In CliClose (map CliScript (events r)) /\
                 ~ In (CliPrint CliError) (map CliScript (events r))).
  { split; intros Hin; apply in_map_iff in Hin;
      destruct Hin as (e & He & _); discriminate. }
  destruct Hmap as (Hnc & Hne).
  destruct (res r) as [b|e|] eqn:Er; cbv zeta; cbn [fst snd].
  - split.
    { cbn [app script_events]. rewrite script_events_app, script_events_map.
      apply app_nil_r. }
    split; [intros b' Hb; injection Hb as <-; reflexivity|].
    split; [intros e He; discriminate|].
    split; [discriminate|].
    split.
    { split; [intros _; exists b; reflexivity|]. intros _.
      cbn [app In]. right. right. apply in_or_app. right. left. reflexivity. }
    split.
    { split; [|intros (e & He); discriminate].
      cbn [app In]. intros [E|[E|Hin]]; try discriminate.
      apply in_app_or in Hin. destruct Hin as [Hin|[E|[]]]; [|discriminate].
      exfalso. exact (Hne Hin). }
    intros _ _ e He. discriminate.
  - split.
    { cbn [app script_events]. rewrite script_events_app, script_events_map.
      apply app_nil_r. }
    split; [intros b Hb; discriminate|].
    split.
    { intros e' He'. injection He' as <-. split; [reflexivity|].
      exact (Hraises e eq_refl). }
    split; [discriminate|].
    split.
    { split; [|intros (b & Hb); discriminate].
      cbn [app In]. intros [E|[E|Hin]]; try discriminate.
      apply in_app_or in Hin. destruct Hin as [Hin|[E|[]]]; [|discriminate].
      exfalso. exact (Hnc Hin). }
    split.
    { split; [intros _; exists e; reflexivity|]. intros _.
      cbn [app In]. right. right. apply in_or_app. right. left. reflexivity. }
    intros Hopen Hmoved e' _.
    destruct (Hraises e eq_refl) as [(_ & Hno & _)|(_ & _ & Hzero & _)]; congruence.
  - split; [cbn [script_events]; apply script_events_map|].
    split; [intros b Hb; discriminate|].
    split; [intros e He; discriminate|].
    split; [reflexivity|].
    split.
    { split; [|intros (b & Hb); discriminate].
      cbn [In]. intros [E|[E|Hin]]; try discriminate. exfalso. exact (Hnc Hin). }
    split.
    { split; [|intros (e & He); discriminate].
      cbn [In]. intros [E|[E|Hin]]; try discriminate. exfalso. exact (Hne Hin). }
    intros _ _ e He. discriminate.
Qed.

Lemma read_main_refuses_bad_arguments_witness :
  let out := read_main 9 working_host 16777216 12000000 0 (Some blank_chip) in
  fst out = Some 1 /\ script_events (snd out) = [].
Proof.
  destruct (read_main_refuses_bad_arguments 9 working_host 16777216 12000000 0
              (Some blank_chip)) as (Hcode & _ & Hnone & _).
  - right. left. lia.
  - split; [exact Hcode | exact Hnone].
Defined.

(** On a host where the dump file does not open, [main] prints the error
    and leaves the client open. *)
Lemma read_main_closes_only_on_return_witness :
  let out := read_main 9 (mkHost false 1500) 8 12000000 2 (Some blank_chip) in
  fst out = Some 1 /\
  ~ In CliClose (snd out) /\
  xfers (script_events (snd out)) = [].
Proof.
  destruct (read_main_closes_only_on_return 9 (mkHost false 1500) 8 12000000 2
              blank_chip) as (Hev & _ & Hraise & _ & Hclose & _).
  - lia.
  - lia.
  - destruct (Hraise OSError eq_refl) as (Hout & _).
    split; [rewrite Hout; reflexivity|].
    split.
    + intros Hin. apply Hclose in Hin. destruct Hin as (b & Hb). discriminate.
    + rewrite Hev. reflexivity.
Defined.


(** X8. Without verification the writer has no way to report a failed write:
    once the file fits and the adapter is configured, [write_spi_flash]
    returns [True] whenever it returns, whatever the transfers returned;
    and [erase_flash] never returns [False], so the writer never gives up
    after the erase. *)
Theorem write_without_verify_cannot_fail {T : Type} `{SpiDevice T} (fuel : nat)
    (content : list byte) (flash_size speed : Z) (erase_chip : bool) (d : T) :
  len content <= flash_size ->
  fst (configure d (spi_options speed)) = true ->
  let r := write_spi_flash fuel (Some content) flash_size speed erase_chip false d in
  (res r = Ret true \/ res r = OutOfFuel) /\
  (forall (fuel' : nat) (d' : T),
     res (erase_flash fuel' d') = Ret true \/ res (erase_flash fuel' d') = OutOfFuel).
Proof.
  intros Hfit Hcfg. cbv zeta. split.
  - destruct (write_spi_flash_outcome fuel (Some content) flash_size speed
                erase_chip false d) as (_ & Hok & _).
    exact (Hok eq_refl content eq_refl Hfit Hcfg).
  - intros fuel' d'. exact (proj1 (erase_flash_outcome fuel' d')).
Qed.

(** An adapter that loses the write-enable and the page-program command
    but answers the status poll. *)
Lemma write_without_verify_cannot_fail_witness :
  let r := write_spi_flash 5 (Some [x41]) 16 12000000 false false
             (mkScripted true [None; None; Some [x00]]) in
  map response (xfers (events r)) = [None; None; Some [x00]] /\
  res r = Ret true.
Proof.
  destruct (write_without_verify_cannot_fail 5 [x41] 16 12000000 false
              (mkScripted true [None; None; Some [x00]])) as ([Hok|Hout] & _).
  - vm_compute. discriminate.
  - reflexivity.
  - split; [reflexivity | exact Hok].
  - vm_compute in Hout. discriminate.
Defined.



(** ** What the page programs carry *)

Lemma request_write_data (x : Xfer) (w : list Z) (n : option Z) :
  request x = (w, n) -> write_data x = w.
Proof. intros E. exact (f_equal fst E). Qed.

Lemma write_enable_not_program (x : Xfer) :
  write_data x = [0x06] -> is_page_program x = false.
Proof. intros E. unfold is_page_program, opcode. rewrite E. reflexivity. Qed.

Lemma page_program_is_program (x : Xfer) (a : Z) (data : list byte) :
  write_data x = page_program_cmd a data -> is_page_program x = true.
Proof. intros E. unfold is_page_program, opcode. rewrite E. reflexivity. Qed.

Lemma filter_status_polls (xs : list Xfer) :
  Forall is_status_poll xs -> filter is_page_program xs = [].
Proof.
  induction 1 as [|x xs Hx _ IH]; [reflexivity|].
  cbn [filter]. unfold is_page_program at 1.
  rewrite (status_poll_opcode x Hx). exact IH.
Qed.

Lemma no_program_filter (xs : list Xfer) :
  count_opcode 0x02 xs = O -> filter is_page_program xs = [].
Proof.
  unfold count_opcode. intros E. apply length_zero_iff_nil. exact E.
Qed.

Lemma page_of_nonempty (f : list byte) :
  f <> [] -> 0 < len (firstn page_len f) <= 256.
Proof.
  intros Hf. unfold len. rewrite length_firstn. pose proof page_len_256.
  destruct f; [congruence|]. cbn [length]. lia.
Qed.

Lemma page_count_of_nonempty (f : list byte) :
  f <> [] -> page_count_of f = S (page_count_of (skipn page_len f)).
Proof.
  intros Hf. unfold page_count_of.
  rewrite ceil_pages_step.
  2:{ destruct f; [congruence|]. unfold len. cbn [length]. lia. }
  replace (Z.max 0 (len f - 256)) with (len (skipn page_len f)).
  2:{ unfold len. rewrite length_skipn. pose proof page_len_256. lia. }
  rewrite Z2Nat.inj_add; [reflexivity | lia |].
  apply Z.div_pos; unfold len; lia.
Qed.

(** The page data of the page-program commands, put end to end, is the
    file. *)
Lemma page_blocks_payload (f : list byte) (a : Z) (xs : list Xfer) :
  page_blocks f a xs ->
  flat_map payload (filter is_page_program xs) = map byte_to_Z f.
Proof.
  induction 1 as [a | f a we pp polls rest Hf Hwe Hpp Hpolls Hrest IH];
    [reflexivity|].
  apply request_write_data in Hwe, Hpp.
  cbn [filter].
  rewrite (write_enable_not_program we Hwe), (page_program_is_program pp _ _ Hpp).
  rewrite filter_app, (filter_status_polls polls (busy_wait_polls_are_polls _ Hpolls)).
  cbn [app flat_map]. rewrite IH. unfold payload at 1. rewrite Hpp.
  cbn [page_program_cmd app skipn].
  rewrite <- map_app, firstn_skipn. reflexivity.
Qed.

(** The [j]-th page-program command is for address [256 * j] and carries
    the [j]-th page of the file. *)
Lemma page_blocks_commands (file : list byte) (f : list byte) (a : Z) (xs : list Xfer) :
  page_blocks f a xs ->
  forall i : nat,
  f = skipn (page_len * i) file ->
  a = 256 * Z.of_nat i ->
  map write_data (filter is_page_program xs) =
  map (fun j => page_program_cmd (256 * Z.of_nat j) (page_at file j))
      (seq i (page_count_of f)).
Proof.
  induction 1 as [a | f a we pp polls rest Hf Hwe Hpp Hpolls Hrest IH];
    intros i Hfi Hai; [reflexivity|].
  apply request_write_data in Hwe, Hpp.
  rewrite (page_count_of_nonempty f Hf). cbn [seq map].
  cbn [filter].
  rewrite (write_enable_not_program we Hwe), (page_program_is_program pp _ _ Hpp).
  rewrite filter_app, (filter_status_polls polls (busy_wait_polls_are_polls _ Hpolls)).
  cbn [app map]. rewrite Hpp. f_equal.
  { unfold page_at. rewrite <- Hfi, Hai. reflexivity. }
  destruct (skipn page_len f) as [|b l] eqn:Erest.
  - inversion Hrest; subst; [reflexivity | congruence].
  - rewrite <- Erest in *. apply IH.
    + rewrite Hfi, skipn_skipn. f_equal. lia.
    + assert (Hlong : (page_len < length f)%nat).
      { assert (Hl : length (skipn page_len f) <> O) by (rewrite Erest; discriminate).
        rewrite length_skipn in Hl. lia. }
      unfold len. rewrite length_firstn. pose proof page_len_256. lia.
Qed.

Section WriteSessionPages.

Context {T : Type} `{SpiDevice T}.

Hypothesis becomes_ready : forall d : T, exists n : nat, wip_clears d n.

(** [write_spi_flash] to its end, split into what comes before the pages,
    the pages, and what comes after. *)
Lemma write_spi_flash_total (content : list byte) (flash_size speed : Z)
    (erase_chip verify : bool) (d : T) :
  len content <= flash_size ->
  fst (configure d (spi_options speed)) = true ->
  exists N : nat, forall fuel : nat, (N <= fuel)%nat ->
    let r := write_spi_flash fuel (Some content) flash_size speed
               erase_chip verify d in
    (exists b : bool, res r = Ret b) /\
    exists before pages after : list Xfer,
      xfers (events r) = before ++ pages ++ after /\
      page_blocks content 0 pages /\
      count_opcode 0x02 before = O /\
      count_opcode 0x02 after = O.
Proof.
  intros Hfit Hcfg.
  assert (Hfit' : (flash_size <? len content) = false) by (apply Z.ltb_ge; lia).
  set (d0 := snd (configure d (spi_options speed))).
  destruct erase_chip.
  - destruct (erase_flash_total becomes_ready d0) as (n & d1 & evs & Hnone & Herase).
    destruct (write_flash_total becomes_ready content verify d1) as (N & HN).
    exists (Nat.max n N). intros fuel Hfuel r.
    destruct (HN fuel ltac:(lia)) as (Hret & _ & pages & after & Hx & Hb & H1).
    cbv zeta in Hret, Hx.
    assert (Er : res r = res (write_flash fuel content verify d1) /\
                 xfers (events r) =
                 xfers evs ++ xfers (events (write_flash fuel content verify d1))).
    { subst r. unfold write_spi_flash, print. rewrite Hfit'.
      run_step. rewrite Hcfg. run_step. fold d0.
      rewrite run_bind, (Herase fuel ltac:(lia)). cbn [res dev events negb].
      cbn [app xfers]. rewrite xfers_app. split; reflexivity. }
    destruct Er as (Eres & Ex).
    split; [rewrite Eres; exact Hret|].
    exists (xfers evs), pages, after.
    split; [rewrite Ex, Hx; reflexivity|].
    split; [exact Hb|]. split; [exact Hnone | exact H1].
  - destruct (write_flash_total becomes_ready content verify d0) as (N & HN).
    exists N. intros fuel Hfuel r.
    destruct (HN fuel Hfuel) as (Hret & _ & pages & after & Hx & Hb & H1).
    cbv zeta in Hret, Hx.
    assert (Er : res r = res (write_flash fuel content verify d0) /\
                 xfers (events r) = xfers (events (write_flash fuel content verify d0))).
    { subst r. unfold write_spi_flash, print. rewrite Hfit'.
      run_step. rewrite Hcfg. run_step. fold d0. run_step.
      cbn [negb app xfers]. split; reflexivity. }
    destruct Er as (Eres & Ex).
    split; [rewrite Eres; exact Hret|].
    exists [], pages, after.
    split; [rewrite Ex, Hx; reflexivity|].
    split; [exact Hb|]. split; [reflexivity | exact H1].
Qed.

End WriteSessionPages.

(** X7. A write that runs to its end programs the file and nothing else: the
    [j]-th page-program command is for address [256 * j] and carries bytes
    [256 * j ..] of the file, up to 256 of them, so no page crosses a
    256-byte boundary; put end to end, the page data of all the commands is
    the file. *)
Theorem write_programs_the_file {T : Type} `{SpiDevice T} (content : list byte)
    (flash_size speed : Z) (erase_chip verify : bool) (d : T) :
  (forall d' : T, exists n : nat, wip_clears d' n) ->
  len content <= flash_size ->
  fst (configure d (spi_options speed)) = true ->
  exists N : nat, forall fuel : nat, (N <= fuel)%nat ->
    let r := write_spi_flash fuel (Some content) flash_size speed
               erase_chip verify d in
    let programs := filter is_page_program (xfers (events r)) in
    map write_data programs =
      map (fun j => page_program_cmd (256 * Z.of_nat j) (page_at content j))
          (seq 0 (page_count_of content)) /\
    flat_map payload programs = map byte_to_Z content /\
    (forall j : nat, (j < page_count_of content)%nat ->
       0 < len (page_at content j) <= 256 /\
       256 * Z.of_nat j + len (page_at content j) <= len content).
Proof.
  intros Hready Hfit Hcfg.
  destruct (write_spi_flash_total Hready content flash_size speed erase_chip verify d
              Hfit Hcfg) as (N & HN).
  exists N. intros fuel Hfuel r programs.
  destruct (HN fuel Hfuel) as (_ & before & pages & after & Hx & Hb & H0 & H1).
  fold r in Hx.
  assert (Hp : programs = filter is_page_program pages).
  { subst programs. rewrite Hx, !filter_app.
    rewrite (no_program_filter _ H0), (no_program_filter _ H1).
    cbn [app]. apply app_nil_r. }
  rewrite Hp. split; [|split].
  - apply (page_blocks_commands content content 0 pages Hb O).
    + rewrite Nat.mul_0_r. reflexivity.
    + reflexivity.
  - exact (page_blocks_payload content 0 pages Hb).
  - intros j Hj. unfold page_count_of in Hj.
    pose proof page_len_256 as E256.
    assert (Hq : 0 <= (len content + 255) / 256)
      by (apply Z.div_pos; unfold len; lia).
    assert (Hj' : Z.of_nat j < (len content + 255) / 256) by lia.
    assert (Hlt : 256 * Z.of_nat j < len content).
    { pose proof (Z.div_mod (len content + 255) 256 ltac:(lia)) as E.
      pose proof (Z.mod_pos_bound (len content + 255) 256 ltac:(lia)) as B. lia. }
    unfold page_at, len in *. rewrite length_firstn, length_skipn. lia.
Qed.

Lemma write_programs_the_file_witness :
  exists N : nat, forall fuel : nat, (N <= fuel)%nat ->
    let r := write_spi_flash fuel (Some pattern_600) 1024 12000000 true true
               blank_chip in
    flat_map payload (filter is_page_program (xfers (events r))) =
    map byte_to_Z pattern_600.
Proof.
  destruct (write_programs_the_file pattern_600 1024 12000000 true true
              blank_chip chip_becomes_ready) as (N & HN).
  - vm_compute. discriminate.
  - reflexivity.
  - exists N. intros fuel Hfuel. exact (proj1 (proj2 (HN fuel Hfuel))).
Defined.


(** ** Progress reports *)

Section Progress.

Context {T : Type} `{SpiDevice T}.

Lemma poll_status_progress (total slack : Z) (fuel : nat) (idle : list Event) (d : T) :
  Forall (progress_within total slack) (prints idle) ->
  Forall (progress_within total slack) (prints (events (poll_status fuel idle d))).
Proof.
  intros Hidle. revert d. induction fuel as [|fuel IH]; intros d; [constructor|].
  rewrite poll_status_step.
  destruct (wip_cleared (fst (poll d))); [constructor|].
  cbv zeta. cbn [events prints]. rewrite prints_app.
  apply Forall_app. split; [exact Hidle | apply IH].
Qed.

Lemma write_pages_progress (fuel : nat) :
  forall (file_size total_pages : Z) (f : list byte) (address page_count : Z) (d : T),
  address + len f = file_size ->
  0 <= address ->
  Forall (progress_within file_size 0)
         (prints (events (write_pages fuel file_size total_pages f address page_count d))).
Proof.
  induction fuel as [|fuel IH]; intros file_size total_pages f address page_count d
                                       Hsize Hpos; [constructor|].
  rewrite write_pages_step.
  destruct (Z.ltb_spec address file_size) as [Hlt|Hge]; [|constructor].
  destruct (nonempty (firstn page_len f)) eqn:Hne; [|constructor].
  cbv zeta.
  set (page_data := firstn page_len f).
  assert (Hpage : 0 < len page_data <= len f).
  { subst page_data. unfold len. rewrite length_firstn.
    destruct (firstn page_len f) eqn:E; [discriminate|].
    assert (Hl : length (firstn page_len f) <> O) by (rewrite E; discriminate).
    rewrite length_firstn in Hl. lia. }
  set (d2 := snd (transfer (snd (transfer d WRITE_ENABLE None))
                           (page_program_cmd address page_data) None)).
  pose proof (poll_status_progress file_size 0 fuel [EvSleep 1] d2
                ltac:(constructor)) as Hw.
  destruct (res (poll_status fuel [EvSleep 1] d2)) as [[]|e|];
    cbn [events app prints]; try exact Hw.
  rewrite !prints_app. apply Forall_app. split; [exact Hw|].
  apply Forall_app. split.
  - unfold write_progress. destruct (_ || _); [|constructor].
    constructor; [|constructor]. unfold progress_within. lia.
  - apply IH; [|lia].
    rewrite <- Hsize. subst page_data. rewrite <- Z.add_assoc, <- len_app.
    rewrite firstn_skipn. reflexivity.
Qed.

Lemma verify_chunks_progress (fuel : nat) :
  forall (file_size : Z) (f : list byte) (address : Z) (d : T),
  address + len f = file_size ->
  0 <= address ->
  Forall (progress_within file_size 0)
         (prints (events (verify_chunks fuel file_size f address d))).
Proof.
  induction fuel as [|fuel IH]; intros file_size f address d Hsize Hpos;
    [constructor|].
  rewrite verify_chunks_step.
  destruct (Z.ltb_spec address file_size) as [Hlt|Hge]; [|constructor].
  destruct (firstn chunk_len f) as [|b l] eqn:E; [constructor|].
  rewrite <- E. cbv zeta.
  assert (Hchunk : 0 < len (firstn chunk_len f) <= len f).
  { unfold len. rewrite length_firstn.
    assert (Hl : length (firstn chunk_len f) <> O) by (rewrite E; discriminate).
    rewrite length_firstn in Hl. lia. }
  destruct (resp_differs _ _).
  - cbn [events prints]. repeat constructor.
  - cbn [events prints]. rewrite prints_app. apply Forall_app. split.
    + unfold verify_progress. destruct (_ || _); [|constructor].
      constructor; [|constructor]. unfold progress_within. lia.
    + apply IH; [|lia].
      rewrite <- Hsize, <- Z.add_assoc, <- len_app, firstn_skipn. reflexivity.
Qed.

Lemma read_chunks_progress (fuel : nat) :
  forall (flash_size chunk_size total_chunks address chunk_count slack : Z) (d : T),
  0 < chunk_size ->
  0 <= address ->
  slack = chunk_size - 1 \/
  (slack = 0 /\ exists k : Z, flash_size - address = k * chunk_size) ->
  Forall (progress_within flash_size slack)
         (prints (events (read_chunks fuel flash_size chunk_size total_chunks
                            address chunk_count d))).
Proof.
  induction fuel as [|fuel IH];
    intros flash_size chunk_size total_chunks address chunk_count slack d
           Hchunk Hpos Hslack; [constructor|].
  rewrite read_chunks_step.
  destruct (Z.ltb_spec address flash_size) as [Hlt|Hge]; [|constructor].
  cbv zeta. destruct (truthy _ && _); [|repeat constructor].
  cbn [events prints]. rewrite prints_app. apply Forall_app. split.
  - unfold read_progress. destruct (_ || _); [|constructor].
    constructor; [|constructor]. unfold progress_within.
    destruct Hslack as [->|(-> & k & Hk)]; [lia|].
    assert (1 <= k) by nia. nia.
  - apply IH; [exact Hchunk | lia |].
    destruct Hslack as [->|(-> & k & Hk)]; [left; reflexivity|].
    right. split; [reflexivity|]. exists (k - 1). lia.
Qed.

End Progress.

(** X9. Every [show_progress] call of the writer, in the page loop and in the
    verification loop, is made with the file size as [total], which is then
    positive, and with [0 < current <= total]: the division by [total] at
    the top of [show_progress] is defined and the bar never runs over. *)
Theorem write_progress_in_range {T : Type} `{SpiDevice T} (fuel : nat)
    (content : list byte) (flash_size speed : Z) (erase_chip verify : bool) (d : T) :
  Forall (progress_within (len content) 0)
         (prints (events (write_spi_flash fuel (Some content) flash_size speed
                            erase_chip verify d))).
Proof.
  assert (Hflash : forall d' : T,
            Forall (progress_within (len content) 0)
                   (prints (events (write_flash fuel content verify d')))).
  { intros d'. unfold write_flash, print. run_step. cbn [app prints].
    constructor; [exact I|]. rewrite events_bind, prints_app.
    apply Forall_app. split.
    { apply write_pages_progress; [reflexivity | lia]. }
    destruct (res (write_pages _ _ _ _ _ _ _)); [|constructor|constructor].
    run_step. cbn [app prints]. constructor; [exact I|].
    destruct verify; [|constructor].
    run_step. cbn [app prints]. constructor; [exact I|].
    rewrite events_bind, prints_app. apply Forall_app. split.
    { apply verify_chunks_progress; [reflexivity | lia]. }
    destruct (res (verify_chunks _ _ _ _ _)) as [[a'|v']|e'|];
      cbn; repeat constructor. }
  unfold write_spi_flash, print.
  destruct (flash_size <? len content); [run_step; repeat constructor|].
  run_step. cbn [prints].
  destruct (fst (configure d (spi_options speed))); [|run_step; repeat constructor].
  run_step. cbn [app prints]. constructor; [exact I|].
  rewrite events_bind, prints_app. apply Forall_app. split.
  - destruct erase_chip; [|constructor].
    unfold erase_flash, print. do 3 run_step. cbn [app prints].
    constructor; [exact I|]. rewrite events_bind, prints_app.
    apply Forall_app. split.
    + apply poll_status_progress. repeat constructor.
    + destruct (res (poll_status _ _ _)); cbn; repeat constructor.
  - destruct (res _) as [erased| |]; [|constructor|constructor].
    destruct (negb erased); [constructor | apply Hflash].
Qed.

(** X4. Every [show_progress] call of the reader is made with the flash size
    as [total], which is then positive, and with [current] positive and
    less than [total + chunk_size]; when the chunk size divides the flash
    size, [current] never exceeds [total]. *)
Theorem read_progress_in_range {T : Type} `{SpiDevice T} (fuel : nat)
    (host : Host) (flash_size speed chunk_size : Z) (d : T) :
  0 < chunk_size ->
  let shown :=
    prints (events (read_spi_flash fuel host flash_size speed chunk_size d)) in
  Forall (progress_within flash_size (chunk_size - 1)) shown /\
  ((exists k : Z, flash_size = k * chunk_size) ->
   Forall (progress_within flash_size 0) shown).
Proof.
  intros Hchunk. cbv zeta.
  assert (G : forall slack : Z,
            slack = chunk_size - 1 \/
            (slack = 0 /\ exists k : Z, flash_size - 0 = k * chunk_size) ->
            Forall (progress_within flash_size slack)
                   (prints (events (read_spi_flash fuel host flash_size speed
                                      chunk_size d)))).
  { intros slack Hslack. unfold read_spi_flash, print. run_step. cbn [prints].
    destruct (fst (configure d (spi_options speed))); [|run_step; repeat constructor].
    do 3 run_step. cbn [app prints]. do 3 (constructor; [exact I|]).
    destruct (output_opens host); [|rewrite run_raise; constructor].
    run_step. cbn [app prints].
    assert (E : (chunk_size =? 0) = false) by (apply Z.eqb_neq; lia).
    rewrite E. run_step. rewrite events_bind, prints_app.
    apply Forall_app. split.
    - apply read_chunks_progress; [exact Hchunk | lia | exact Hslack].
    - destruct (res (read_chunks _ _ _ _ _ _ _)) as [[a'|v']|e'|];
        [|cbn; repeat constructor ..].
      destruct (total_time host =? 0); [rewrite run_raise; constructor|].
      do 3 run_step. cbn. repeat constructor. }
  split.
  - apply G. left. reflexivity.
  - intros (k & Hk). apply G. right. split; [reflexivity|].
    exists k. lia.
Qed.

Lemma read_progress_in_range_witness :
  Forall (progress_within 8 0)
         (prints (events (read_spi_flash 9 working_host 8 12000000 2 blank_chip))).
Proof.
  destruct (read_progress_in_range 9 working_host 8 12000000 2 blank_chip)
    as (_ & Hdiv).
  - lia.
  - apply Hdiv. exists 4. reflexivity.
Defined.


(** ** The 1-Wire example *)

Lemma all_bytes_nth (b : byte) : nth (N.to_nat (Byte.to_N b)) all_bytes x00 = b.
Proof. destruct b; reflexivity. Qed.

Lemma all_bytes_complete (b : byte) : In b all_bytes.
Proof.
  rewrite <- (all_bytes_nth b). apply nth_In.
  change (length all_bytes) with 256%nat.
  pose proof (Byte.to_N_bounded b) as Hb. lia.
Qed.

Lemma for_all_bytes (P : byte -> bool) :
  forallb P all_bytes = true -> forall b : byte, P b = true.
Proof.
  intros Hall b. rewrite forallb_forall in Hall. apply Hall, all_bytes_complete.
Qed.

Lemma temp_raw_checked :
  forallb (fun b0 => forallb (temp_raw_agrees b0) all_bytes) all_bytes = true.
Proof. vm_compute. reflexivity. Qed.

(** X13. The raw temperature computed from the first two scratchpad bytes is
    their reading as a signed 16-bit number, least significant byte first:
    it lies in -32768..32767 and agrees with the two bytes modulo 65536. *)
Theorem onewire_temp_raw_is_signed16 (b0 b1 : byte) :
  let r := OneWire.temp_raw_of (byte_to_Z b0) (byte_to_Z b1) in
  r = signed16 b0 b1 /\
  -32768 <= r <= 32767 /\
  r mod 65536 = byte_to_Z b0 + 256 * byte_to_Z b1.
Proof.
  cbv zeta.
  pose proof (for_all_bytes _ (for_all_bytes _ temp_raw_checked b0) b1) as Hc.
  unfold temp_raw_agrees in Hc. cbv zeta in Hc.
  apply andb_true_iff in Hc as [Hc H4]. apply andb_true_iff in Hc as [Hc H3].
  apply andb_true_iff in Hc as [H1 H2].
  apply Z.eqb_eq in H1, H4. apply Z.leb_le in H2, H3.
  repeat split; assumption.
Qed.

Lemma onewire_temp_raw_checked_value (b0 b1 : byte) :
  OneWire.temp_raw_of (byte_to_Z b0) (byte_to_Z b1) = signed16 b0 b1.
Proof.
  pose proof (for_all_bytes _ (for_all_bytes _ temp_raw_checked b0) b1) as Hc.
  unfold temp_raw_agrees in Hc. cbv zeta in Hc.
  apply andb_true_iff in Hc as [Hc _]. apply andb_true_iff in Hc as [Hc _].
  apply andb_true_iff in Hc as [H1 _]. apply Z.eqb_eq in H1. exact H1.
Qed.

(** Membership in a list that is written out. *)
Ltac in_list := cbn [app In]; repeat (first [left; reflexivity | right]).

Section OneWireOutcome.

Context {T : Type} `{OneWire.Adapter T}.

(** X14. [onewire_read_temperature] sends nothing when the adapter refuses its
    configuration.  Otherwise it sends the scratchpad setup, the convert
    command and the scratchpad read of 9 bytes, in that order, and returns
    [True] exactly when the read returned at least two bytes - fewer than
    the 9 asked for are accepted; the raw value it reports is then the
    signed 16-bit reading of the first two, and the scratchpad with its TH,
    TL and configuration registers (bytes 2, 3 and 4) is reported exactly
    when 9 bytes or more came back. *)
Theorem onewire_read_temperature_outcome (voltage : Z) (d : T) :
  let out := OneWire.onewire_read_temperature voltage d in
  (fst (OneWire.configure d (OneWire.options voltage)) = false ->
   out = (false, [OneWire.EvConfigure (OneWire.options voltage) false;
                  OneWire.EvPrint OneWire.MsgConfigFailed])) /\
  (fst (OneWire.configure d (OneWire.options voltage)) = true ->
   exists r1 r2 data : Response,
     OneWire.xfers (snd out) =
       [mkXfer [0xCC; 0x4E; 0x00; 0x00; 0x7F] None r1;
        mkXfer [0xCC; 0x44] None r2;
        mkXfer [0xCC; 0xBE] (Some 9) data] /\
     (fst out = true <->
      exists (b0 b1 : byte) (rest : list byte), data = Some (b0 :: b1 :: rest)) /\
     (forall (b0 b1 : byte) (rest : list byte),
        data = Some (b0 :: b1 :: rest) ->
        In (OneWire.EvPrint (OneWire.MsgRawValue (signed16 b0 b1))) (snd out) /\
        (In (OneWire.EvPrint (OneWire.MsgScratchpad (b0 :: b1 :: rest))) (snd out)
         <-> 9 <= len (b0 :: b1 :: rest)) /\
        (9 <= len (b0 :: b1 :: rest) ->
         In (OneWire.EvPrint (OneWire.MsgTH (byte_to_Z (nth 0 rest x00)))) (snd out) /\
         In (OneWire.EvPrint (OneWire.MsgTL (byte_to_Z (nth 1 rest x00)))) (snd out) /\
         In (OneWire.EvPrint (OneWire.MsgConfigRegister (byte_to_Z (nth 2 rest x00))))
            (snd out)))).
Proof.
  cbv zeta. unfold OneWire.onewire_read_temperature.
  destruct (fst (OneWire.configure d (OneWire.options voltage))) eqn:Hcfg.
  2:{ split; [reflexivity | discriminate]. }
  split; [discriminate|]. intros _. cbv zeta.
  set (d1 := snd (OneWire.configure d (OneWire.options voltage))).
  set (t1 := OneWire.transfer d1 [0xCC; 0x4E; 0x00; 0x00; 0x7F] None).
  set (t2 := OneWire.transfer (snd t1) [0xCC; 0x44] None).
  set (t3 := OneWire.transfer (snd t2) [0xCC; 0xBE] (Some 9)).
  exists (fst t1), (fst t2), (fst t3).
  destruct (fst t3) as [[|b0 [|b1 rest]]|] eqn:Edata.
  - cbn. split; [reflexivity|]. split.
    + split; [discriminate | intros (x & y & z & E); discriminate].
    + intros x y z E. discriminate.
  - cbn. split; [reflexivity|]. split.
    + split; [discriminate | intros (x & y & z & E); discriminate].
    + intros x y z E. discriminate.
  - assert (Hacc : truthy (Some (b0 :: b1 :: rest))
                   && (2 <=? resp_len (Some (b0 :: b1 :: rest))) = true).
    { cbn [truthy andb resp_len]. apply Z.leb_le. unfold len. cbn [length]. lia. }
    rewrite Hacc. cbn [fst snd].
    split.
    { destruct (9 <=? len (b0 :: b1 :: rest)); reflexivity. }
    split.
    { split; [intros _; exists b0, b1, rest; reflexivity | reflexivity]. }
    intros x y z E. injection E as <- <- <-.
    pose proof (onewire_temp_raw_checked_value b0 b1) as Hraw.
    split.
    + apply in_or_app. right. apply in_or_app. left.
      unfold OneWire.byte_at. cbn [nth]. rewrite Hraw. in_list.
    + destruct (Z.leb_spec 9 (len (b0 :: b1 :: rest))) as [H9|H9].
      * split.
        { split; [intros _; exact H9|]. intros _.
          apply in_or_app. right. apply in_or_app. right. in_list. }
        intros _. unfold OneWire.byte_at. cbn [nth].
        split; [|split]; apply in_or_app; right; apply in_or_app; right; in_list.
      * split; [|intros H9'; lia].
        split; [|lia]. intros Hin. exfalso.
        apply in_app_or in Hin. destruct Hin as [Hin|Hin].
        { cbn in Hin. intuition discriminate. }
        apply in_app_or in Hin. destruct Hin as [Hin|[]].
        cbn in Hin. intuition discriminate.
  - cbn. split; [reflexivity|]. split.
    + split; [discriminate | intros (x & y & z & E); discriminate].
    + intros x y z E. discriminate.
Qed.

(** X15. [onewire_search_devices] returns [True] exactly when the adapter is
    configured and [reset()] returns [None]; only then does it ask for the
    ROM code, and a ROM read that fails does not change the result.  An
    8-byte ROM code is reported as its family code, the six bytes of the
    serial number and the CRC, which together are the ROM code; a family
    code that is not in the table is reported as unknown. *)
Theorem onewire_search_devices_outcome (voltage : Z) (d : T) :
  let out := OneWire.onewire_search_devices voltage d in
  let c := OneWire.configure d (OneWire.options voltage) in
  (fst out = true <-> fst c = true /\ fst (OneWire.reset (snd c)) = None) /\
  (fst out = false -> OneWire.xfers (snd out) = []) /\
  (fst out = true ->
   exists rom_data : Response,
     OneWire.xfers (snd out) = [mkXfer [0x33] (Some 8) rom_data] /\
     forall rom : list byte, rom_data = Some rom -> len rom = 8 ->
     exists (family_code crc : Z) (serial_number : list byte),
       In (OneWire.EvPrint (OneWire.MsgFamilyCode family_code)) (snd out) /\
       In (OneWire.EvPrint (OneWire.MsgSerialNumber serial_number)) (snd out) /\
       In (OneWire.EvPrint (OneWire.MsgCrc crc)) (snd out) /\
       length serial_number = 6%nat /\
       map byte_to_Z rom = family_code :: map byte_to_Z serial_number ++ [crc] /\
       (OneWire.dict_get OneWire.families family_code = None ->
        In (OneWire.EvPrint (OneWire.MsgUnknownFamily family_code)) (snd out))).
Proof.
  cbv zeta. unfold OneWire.onewire_search_devices.
  destruct (fst (OneWire.configure d (OneWire.options voltage))) eqn:Hcfg.
  2:{ cbn. split; [|split]; [|reflexivity|discriminate].
      split; [discriminate | intros [E _]; discriminate]. }
  cbv zeta.
  set (d1 := snd (OneWire.configure d (OneWire.options voltage))).
  destruct (fst (OneWire.reset d1)) as [b|] eqn:Hreset.
  { cbn. split; [|split]; [|reflexivity|discriminate].
    split; [discriminate | intros [_ E]; discriminate]. }
  set (t := OneWire.transfer (snd (OneWire.reset d1)) [0x33] (Some 8)).
  destruct (truthy (fst t) && (resp_len (fst t) =? 8)) eqn:Eacc.
  - cbn [fst snd]. split; [split; [intros _; split; reflexivity | reflexivity]|].
    split; [discriminate|]. intros _.
    exists (fst t). split; [reflexivity|].
    intros rom Hrom Hlen. rewrite Hrom.
    destruct rom as [|f0 [|s1 [|s2 [|s3 [|s4 [|s5 [|s6 [|c7 [|extra rom]]]]]]]]];
      unfold len in Hlen; cbn [length] in Hlen; try lia.
    exists (byte_to_Z f0), (byte_to_Z c7), [s1; s2; s3; s4; s5; s6].
    unfold OneWire.byte_at. cbn [nth firstn skipn].
    split; [in_list|]. split; [in_list|]. split; [in_list|].
    split; [reflexivity|]. split; [reflexivity|].
    intros Hnone. rewrite Hnone. in_list.
  - cbn [fst snd]. split; [split; [intros _; split; reflexivity | reflexivity]|].
    split; [discriminate|]. intros _.
    exists (fst t). split; [reflexivity|].
    intros rom Hrom Hlen. exfalso.
    rewrite Hrom in Eacc. cbn [truthy resp_len] in Eacc.
    rewrite Hlen in Eacc. destruct rom; [unfold len in Hlen; cbn in Hlen; lia|].
    discriminate.
Qed.

End OneWireOutcome.

(** A DS18B20 at 25.0625 degrees: scratchpad [91 01 4B 46 7F FF 0F 10 xx]. *)
Lemma onewire_read_temperature_outcome_witness :
  let sensor := OneWire.mkSensor true None
                  (Some [x91; x01; x4b; x46; x7f; xff; x0f; x10; x00]) in
  let out := OneWire.onewire_read_temperature (H := OneWire.sensor_adapter) 5000 sensor in
  fst out = true /\
  In (OneWire.EvPrint (OneWire.MsgRawValue 401)) (snd out).
Proof.
  cbv zeta.
  destruct (onewire_read_temperature_outcome (H := OneWire.sensor_adapter) 5000
              (OneWire.mkSensor true None
                 (Some [x91; x01; x4b; x46; x7f; xff; x0f; x10; x00])))
    as (_ & Hok).
  destruct (Hok eq_refl) as (r1 & r2 & data & Hx & Htrue & Hraw).
  injection Hx as _ _ Hdata.
  split; [reflexivity|].
  exact (proj1 (Hraw x91 x01 [x4b; x46; x7f; xff; x0f; x10; x00] (eq_sym Hdata))).
Defined.

Lemma onewire_search_devices_outcome_witness :
  let sensor := OneWire.mkSensor true None
                  (Some [x28; x01; x02; x03; x04; x05; x06; xa7]) in
  let out := OneWire.onewire_search_devices (H := OneWire.sensor_adapter) 5000 sensor in
  fst out = true /\
  In (OneWire.EvPrint (OneWire.MsgDeviceType OneWire.DS18B20)) (snd out).
Proof.
  cbv zeta.
  destruct (onewire_search_devices_outcome (H := OneWire.sensor_adapter) 5000
              (OneWire.mkSensor true None
                 (Some [x28; x01; x02; x03; x04; x05; x06; xa7])))
    as (Htrue & _ & _).
  split; [apply Htrue; split; reflexivity|].
  vm_compute. in_list.
Defined.


(** ** The EEPROM dump *)

Lemma byte_hex_checked : forallb byte_hex_round_trip all_bytes = true.
Proof. vm_compute. reflexivity. Qed.

Lemma byte_two_digits (b : byte) :
  exists (h l : ascii) (x y : Z),
    I2C.format_X 2 (byte_to_Z b) = [h; l] /\
    I2C.hex_value h = Some x /\ I2C.hex_value l = Some y /\
    16 * x + y = byte_to_Z b.
Proof.
  pose proof (for_all_bytes _ byte_hex_checked b) as Hc.
  unfold byte_hex_round_trip in Hc.
  destruct (I2C.format_X 2 (byte_to_Z b)) as [|h [|l [|c s]]]; try discriminate.
  destruct (I2C.hex_value h) as [x|] eqn:Hh; [|discriminate].
  destruct (I2C.hex_value l) as [y|] eqn:Hl; [|discriminate].
  apply Z.eqb_eq in Hc. exists h, l, x, y.
  split; [reflexivity|]. split; [exact Hh|]. split; [exact Hl | exact Hc].
Qed.

Lemma hex_digits_length (n : nat) (v : Z) : length (I2C.hex_digits n v) = n.
Proof.
  revert v. induction n as [|n IH]; intros v; [reflexivity|].
  cbn [I2C.hex_digits]. rewrite length_app, IH. cbn [length]. lia.
Qed.

Lemma hex_width_small (v : Z) (k : nat) :
  0 <= v < 16 ^ Z.of_nat k -> (0 < k)%nat -> (I2C.hex_width v <= k)%nat.
Proof.
  intros Hv Hk. unfold I2C.hex_width.
  destruct (Z.eqb_spec v 0) as [->|Hnz]; [lia|].
  assert (Hlog : Z.log2 v < 4 * Z.of_nat k).
  { apply Z.log2_lt_pow2; [lia|].
    replace (2 ^ (4 * Z.of_nat k)) with (16 ^ Z.of_nat k); [lia|].
    rewrite Z.pow_mul_r by lia. reflexivity. }
  pose proof (Z.log2_nonneg v) as Hnn.
  assert (Hdiv : Z.log2 v / 4 < Z.of_nat k)
    by (apply Z.div_lt_upper_bound; lia).
  assert (0 <= Z.log2 v / 4) by (apply Z.div_pos; lia).
  lia.
Qed.

Lemma format_X_length (w : nat) (v : Z) :
  0 <= v < 16 ^ Z.of_nat w -> (0 < w)%nat -> length (I2C.format_X w v) = w.
Proof.
  intros Hv Hw. unfold I2C.format_X. rewrite hex_digits_length.
  pose proof (hex_width_small v w Hv Hw). lia.
Qed.

Lemma hex_value_digit (d : Z) :
  0 <= d < 16 -> I2C.hex_value (I2C.hex_digit d) = Some d.
Proof.
  intros Hd.
  assert (Hcases : d = 0 \/ d = 1 \/ d = 2 \/ d = 3 \/ d = 4 \/ d = 5 \/ d = 6 \/ d = 7
                   \/ d = 8 \/ d = 9 \/ d = 10 \/ d = 11 \/ d = 12 \/ d = 13
                   \/ d = 14 \/ d = 15) by lia.
  repeat (destruct Hcases as [->|Hcases]; [reflexivity|]).
  subst d. reflexivity.
Qed.

Lemma parse_hex_app (acc : Z) (s t : I2C.Text) :
  I2C.parse_hex acc (s ++ t) =
  match I2C.parse_hex acc s with
  | Some a => I2C.parse_hex a t
  | None => None
  end.
Proof.
  revert acc. induction s as [|c s IH]; intros acc; [reflexivity|].
  cbn [app I2C.parse_hex]. destruct (I2C.hex_value c); [apply IH | reflexivity].
Qed.

Lemma parse_hex_digits (n : nat) :
  forall acc v : Z,
  I2C.parse_hex acc (I2C.hex_digits n v) =
  Some (acc * 16 ^ Z.of_nat n + v mod 16 ^ Z.of_nat n).
Proof.
  induction n as [|n IH]; intros acc v.
  - cbn [I2C.hex_digits I2C.parse_hex]. change (16 ^ Z.of_nat 0) with 1.
    rewrite Z.mod_1_r. f_equal. lia.
  - cbn [I2C.hex_digits]. rewrite parse_hex_app, IH.
    cbn [I2C.parse_hex].
    rewrite hex_value_digit by (apply Z.mod_pos_bound; lia).
    f_equal. rewrite Nat2Z.inj_succ, Z.pow_succ_r by lia.
    assert (Hp : 0 < 16 ^ Z.of_nat n) by (apply Z.pow_pos_nonneg; lia).
    rewrite (Z.rem_mul_r v 16 (16 ^ Z.of_nat n)) by lia. lia.
Qed.

Lemma parse_hex_format_X (w : nat) (v : Z) :
  0 <= v < 16 ^ Z.of_nat w -> (0 < w)%nat ->
  I2C.parse_hex 0 (I2C.format_X w v) = Some v.
Proof.
  intros Hv Hw. unfold I2C.format_X.
  pose proof (hex_width_small v w Hv Hw) as Hsmall.
  replace (Nat.max w (I2C.hex_width v)) with w by lia.
  rewrite parse_hex_digits. f_equal. rewrite Z.mod_small by lia. lia.
Qed.

Lemma parse_hex_bytes_spaces (k : nat) :
  I2C.parse_hex_bytes (repeat " "%char k) = [].
Proof. destruct k as [|[|k]]; reflexivity. Qed.

(** A hex field, padded or not, reads back as the bytes it was made from. *)
Lemma parse_hex_field (row : list byte) (k : nat) :
  I2C.parse_hex_bytes (I2C.hex_part row ++ repeat " "%char k) = map byte_to_Z row.
Proof.
  unfold I2C.hex_part. destruct row as [|b row].
  { cbn [map I2C.join app]. apply parse_hex_bytes_spaces. }
  cbn [map I2C.join]. revert b.
  induction row as [|b' row IH]; intros b;
    destruct (byte_two_digits b) as (h & l & x & y & Hfmt & Hh & Hl & Hv);
    rewrite Hfmt; cbn [map flat_map app I2C.parse_hex_bytes]; rewrite Hh, Hl, Hv;
    f_equal.
  - destruct k as [|k]; [reflexivity|]. cbn [repeat]. apply parse_hex_bytes_spaces.
  - exact (IH b').
Qed.

Lemma hex_part_length (row : list byte) :
  row <> [] -> length (I2C.hex_part row) = (3 * length row - 1)%nat.
Proof.
  unfold I2C.hex_part. destruct row as [|b row]; [congruence|]. intros _.
  cbn [map I2C.join]. rewrite length_app.
  assert (Hb : forall c : byte, length (I2C.format_X 2 (byte_to_Z c)) = 2%nat).
  { intros c. destruct (byte_two_digits c) as (h & l & _ & _ & Hfmt & _).
    rewrite Hfmt. reflexivity. }
  rewrite Hb.
  assert (Hrest : length (flat_map (fun q => [" "%char] ++ q)
                            (map (fun c => I2C.format_X 2 (byte_to_Z c)) row))
                  = (3 * length row)%nat).
  { induction row as [|c row IH]; [reflexivity|].
    cbn [map flat_map]. rewrite !length_app, Hb, IH. cbn [length]. lia. }
  rewrite Hrest. cbn [length]. lia.
Qed.

Lemma ljust_hex_part (row : list byte) :
  (length row <= 16)%nat ->
  length (I2C.ljust 47 (I2C.hex_part row)) = 47%nat.
Proof.
  intros Hrow. unfold I2C.ljust. rewrite length_app, repeat_length.
  destruct row as [|b row]; [reflexivity|].
  rewrite hex_part_length by discriminate. cbn [length] in *. lia.
Qed.

Lemma printable_range (b : byte) :
  32 <= Z.of_N (N_of_ascii (I2C.printable b)) < 127.
Proof.
  pose proof (for_all_bytes
                (fun b => (32 <=? Z.of_N (N_of_ascii (I2C.printable b)))
                          && (Z.of_N (N_of_ascii (I2C.printable b)) <? 127))
                ltac:(vm_compute; reflexivity) b) as Hc.
  cbv beta in Hc. apply andb_true_iff in Hc as [H1 H2].
  apply Z.leb_le in H1. apply Z.ltb_lt in H2. lia.
Qed.

Lemma firstn_app_exact {A : Type} (l1 l2 : list A) (n : nat) :
  length l1 = n -> firstn n (l1 ++ l2) = l1.
Proof.
  intros <-. rewrite firstn_app, Nat.sub_diag, firstn_all. apply app_nil_r.
Qed.

Lemma skipn_app_exact {A : Type} (l1 l2 : list A) (n : nat) :
  length l1 = n -> skipn n (l1 ++ l2) = l2.
Proof.
  intros <-. rewrite skipn_app, Nat.sub_diag, skipn_all. reflexivity.
Qed.

(** X16. Every line of the dump has the same layout as long as the offset fits
    four hexadecimal digits: the offset in columns 0-3, a colon and a
    space, the hex field in columns 6-52, a space in column 53, and from
    column 54 one printable character for each byte of the row. *)
Theorem i2c_dump_line_layout (addr : Z) (row : list byte) :
  0 <= addr < 65536 ->
  (length row <= 16)%nat ->
  let line := I2C.dump_line addr row in
  length line = (54 + length row)%nat /\
  firstn 4 line = I2C.format_X 4 addr /\
  firstn 2 (skipn 4 line) = [":"; " "]%char /\
  firstn 47 (skipn 6 line) = I2C.ljust 47 (I2C.hex_part row) /\
  skipn 54 line = I2C.ascii_part row /\
  length (I2C.ascii_part row) = length row /\
  Forall (fun c => 32 <= Z.of_N (N_of_ascii c) < 127) (I2C.ascii_part row) /\
  nth_error line 53 = Some " "%char.
Proof.
  intros Haddr Hrow line. subst line. unfold I2C.dump_line.
  pose proof (format_X_length 4 addr ltac:(change (16 ^ Z.of_nat 4) with 65536; lia)
                ltac:(lia)) as H4.
  pose proof (ljust_hex_part row Hrow) as H47.
  set (a := I2C.format_X 4 addr) in *.
  set (hx := I2C.ljust 47 (I2C.hex_part row)) in *.
  assert (Hasc : length (I2C.ascii_part row) = length row)
    by (unfold I2C.ascii_part; apply length_map).
  split.
  { rewrite !length_app, H4, H47, Hasc. cbn [length]. lia. }
  assert (H6 : length (a ++ [":"; " "]%char) = 6%nat)
    by (rewrite length_app, H4; reflexivity).
  assert (H54 : length (a ++ [":"; " "]%char ++ hx ++ [" "%char]) = 54%nat)
    by (rewrite !length_app, H4, H47; reflexivity).
  split; [apply firstn_app_exact; exact H4|].
  split; [rewrite (skipn_app_exact a _ 4 H4); reflexivity|].
  split.
  { rewrite (app_assoc a), (skipn_app_exact _ _ 6 H6).
    apply firstn_app_exact. exact H47. }
  split.
  { replace (a ++ [":"; " "]%char ++ hx ++ [" "%char] ++ I2C.ascii_part row)
      with ((a ++ [":"; " "]%char ++ hx ++ [" "%char]) ++ I2C.ascii_part row)
      by (rewrite <- !app_assoc; reflexivity).
    apply skipn_app_exact. exact H54. }
  split; [exact Hasc|].
  split.
  { unfold I2C.ascii_part. apply Forall_forall. intros c Hc.
    apply in_map_iff in Hc. destruct Hc as (b & <- & _). apply printable_range. }
  replace (a ++ [":"; " "]%char ++ hx ++ [" "%char] ++ I2C.ascii_part row)
    with ((a ++ [":"; " "]%char ++ hx) ++ " "%char :: I2C.ascii_part row)
    by (rewrite <- !app_assoc; reflexivity).
  assert (H53 : length (a ++ [":"; " "]%char ++ hx) = 53%nat)
    by (rewrite !length_app, H4, H47; reflexivity).
  rewrite nth_error_app2 by lia. rewrite H53. reflexivity.
Qed.

(** X17. A dump line can be read back: its first four characters spell the
    offset, and its hex field spells the bytes of the row. *)
Theorem i2c_dump_line_round_trip (addr : Z) (row : list byte) :
  0 <= addr < 65536 ->
  (length row <= 16)%nat ->
  let line := I2C.dump_line addr row in
  I2C.parse_hex 0 (firstn 4 line) = Some addr /\
  I2C.parse_hex_bytes (firstn 47 (skipn 6 line)) = map byte_to_Z row.
Proof.
  intros Haddr Hrow line. subst line. unfold I2C.dump_line.
  pose proof (format_X_length 4 addr ltac:(change (16 ^ Z.of_nat 4) with 65536; lia)
                ltac:(lia)) as H4.
  pose proof (ljust_hex_part row Hrow) as H47.
  set (a := I2C.format_X 4 addr) in *.
  set (hx := I2C.ljust 47 (I2C.hex_part row)) in *.
  assert (H6 : length (a ++ [":"; " "]%char) = 6%nat)
    by (rewrite length_app, H4; reflexivity).
  split.
  - rewrite (firstn_app_exact a _ 4 H4). subst a.
    apply parse_hex_format_X; [|lia].
    change (16 ^ Z.of_nat 4) with 65536. lia.
  - rewrite (app_assoc a), (skipn_app_exact _ _ 6 H6).
    rewrite (firstn_app_exact hx _ 47 H47).
    subst hx. unfold I2C.ljust. apply parse_hex_field.
Qed.

Lemma rows_cover (n : nat) :
  forall data : list byte,
  (length data <= 16 * n)%nat ->
  concat (map (fun k => firstn 16 (skipn (16 * k) data)) (seq 0 n)) = data.
Proof.
  induction n as [|n IH]; intros data Hlen.
  - destruct data; [reflexivity | cbn in Hlen; lia].
  - cbn [seq map concat]. rewrite <- seq_shift, map_map.
    change (16 * 0)%nat with O. cbn [skipn].
    transitivity (firstn 16 data ++ skipn 16 data); [|apply firstn_skipn].
    f_equal.
    transitivity (concat (map (fun k => firstn 16 (skipn (16 * k) (skipn 16 data)))
                              (seq 0 n))).
    2:{ apply IH. rewrite length_skipn. lia. }
    f_equal. apply map_ext. intros k.
    rewrite skipn_skipn. do 2 f_equal. lia.
Qed.

Lemma row_count_covers (data : list byte) :
  (length data <= 16 * I2C.row_count data)%nat /\
  Z.of_nat (I2C.row_count data) = (len data + 15) / 16.
Proof.
  unfold I2C.row_count, len.
  pose proof (Z.div_mod (Z.of_nat (length data) + 15) 16 ltac:(lia)) as E.
  pose proof (Z.mod_pos_bound (Z.of_nat (length data) + 15) 16 ltac:(lia)) as B.
  assert (0 <= (Z.of_nat (length data) + 15) / 16) by (apply Z.div_pos; lia).
  split; lia.
Qed.

(** X18. [i2c_eeprom_dump] returns [True] exactly when the adapter is configured
    and the read returned at least one byte, however many were asked for;
    it then reports the number of bytes returned and prints
    [ceil(n / 16)] lines, the [k]-th for offset [16 * k] and the row of up
    to 16 bytes found there, and the rows put end to end are the data. *)
Theorem i2c_eeprom_dump_outcome {T : Type} `{I2C.Adapter T}
    (device_addr size : Z) (d : T) :
  let out := I2C.i2c_eeprom_dump device_addr size d in
  let c := I2C.configure d I2C.options in
  let data := fst (I2C.transfer (snd c) [device_addr; 0x00] (Some size)) in
  (fst out = true <-> fst c = true /\ truthy data = true) /\
  (forall bytes : list byte, fst c = true -> data = Some bytes -> bytes <> [] ->
     snd out =
       [I2C.EvConfigure I2C.options true;
        I2C.EvPrint (I2C.MsgReading size device_addr);
        I2C.EvTransfer (mkXfer [device_addr; 0x00] (Some size) (Some bytes));
        I2C.EvPrint (I2C.MsgDumpHeader (len bytes))]
       ++ map (fun k => I2C.EvPrint
                          (I2C.MsgLine (I2C.dump_line (16 * Z.of_nat k)
                                                      (I2C.dump_row bytes k))))
              (seq 0 (I2C.row_count bytes)) /\
     Z.of_nat (I2C.row_count bytes) = (len bytes + 15) / 16 /\
     (forall k : nat, (length (I2C.dump_row bytes k) <= 16)%nat) /\
     concat (map (I2C.dump_row bytes) (seq 0 (I2C.row_count bytes))) = bytes).
Proof.
  cbv zeta. unfold I2C.i2c_eeprom_dump.
  destruct (fst (I2C.configure d I2C.options)) eqn:Hcfg.
  2:{ split; [split; [discriminate | intros [E _]; discriminate]|].
      intros bytes E. discriminate. }
  cbv zeta.
  set (t := I2C.transfer (snd (I2C.configure d I2C.options)) [device_addr; 0x00]
              (Some size)).
  split.
  - destruct (truthy (fst t)); cbn [fst];
      (split; [intros E; try discriminate; split; reflexivity
              | intros [_ E]; try discriminate; reflexivity]).
  - intros bytes _ Hdata Hne. rewrite Hdata.
    assert (Ht : truthy (Some bytes) = true) by (destruct bytes; [congruence | reflexivity]).
    rewrite Ht. cbn [snd]. split.
    { unfold I2C.dump_lines. rewrite map_map. reflexivity. }
    split; [exact (proj2 (row_count_covers bytes))|].
    split.
    { intros k. unfold I2C.dump_row. rewrite length_firstn. lia. }
    apply rows_cover. exact (proj1 (row_count_covers bytes)).
Qed.

Lemma i2c_dump_line_layout_witness :
  let line := I2C.dump_line 16 [x48; x69; x00] in
  length line = 57%nat /\
  skipn 54 line = ["H"; "i"; "."]%char.
Proof.
  destruct (i2c_dump_line_layout 16 [x48; x69; x00]) as (Hlen & _ & _ & _ & Hasc & _).
  - lia.
  - cbn. lia.
  - split; [exact Hlen | exact Hasc].
Defined.

Lemma i2c_dump_line_round_trip_witness :
  let line := I2C.dump_line 16 [x48; x69; x00] in
  I2C.parse_hex 0 (firstn 4 line) = Some 16 /\
  I2C.parse_hex_bytes (firstn 47 (skipn 6 line)) = [0x48; 0x69; 0x00].
Proof.
  apply (i2c_dump_line_round_trip 16 [x48; x69; x00]).
  - lia.
  - cbn. lia.
Defined.

Lemma i2c_eeprom_dump_outcome_witness :
  let eeprom := I2C.mkEeprom true (Some (repeat x41 20)) in
  let out := I2C.i2c_eeprom_dump (H := I2C.eeprom_adapter) 0xA0 256 eeprom in
  fst out = true /\
  concat (map (I2C.dump_row (repeat x41 20)) (seq 0 (I2C.row_count (repeat x41 20))))
  = repeat x41 20.
Proof.
  cbv zeta.
  destruct (i2c_eeprom_dump_outcome (H := I2C.eeprom_adapter) 0xA0 256
              (I2C.mkEeprom true (Some (repeat x41 20)))) as (Htrue & Hrows).
  split; [apply Htrue; split; reflexivity|].
  destruct (Hrows (repeat x41 20) eq_refl eq_refl ltac:(discriminate))
    as (_ & _ & _ & Hcat).
  exact Hcat.
Defined.


(** ** The writer against the flash model *)

Lemma address_bytes_decode (a : Z) :
  0 <= a < 2 ^ 24 ->
  chip_addr (Z.land (Z.shiftr a 16) 0xFF) (Z.land (Z.shiftr a 8) 0xFF)
            (Z.land a 0xFF) = a.
Proof.
  intros Ha. unfold chip_addr.
  rewrite !land_255, !Z.shiftr_div_pow2 by lia.
  change (2 ^ 16) with 65536. change (2 ^ 8) with 256.
  change (2 ^ 24) with 16777216 in Ha.
  pose proof (Z.div_mod a 256 ltac:(lia)) as E2.
  pose proof (Z.mod_pos_bound a 256 ltac:(lia)) as B0.
  assert (E3 : a / 65536 = (a / 256) / 256) by (rewrite Z.div_div by lia; reflexivity).
  pose proof (Z.div_mod (a / 256) 256 ltac:(lia)) as E4.
  assert (S2 : (a / 65536) mod 256 = a / 65536).
  { apply Z.mod_small. split; [apply Z.div_pos; lia|].
    apply Z.div_lt_upper_bound; lia. }
  rewrite S2. lia.
Qed.

Lemma chip_wip_clears (m : Z -> byte) (b : nat) (w : bool) :
  wip_clears (mkChip m b w) (S b).
Proof.
  induction b as [|b IH].
  - apply clears_now. reflexivity.
  - apply clears_later; [reflexivity | exact IH].
Qed.

Lemma chip_after_polls (m : Z -> byte) (b : nat) (w : bool) :
  after_polls (S b) (mkChip m b w) = mkChip m 0 w.
Proof.
  induction b as [|b IH]; [reflexivity|].
  change (after_polls (S (S b)) (mkChip m (S b) w))
    with (after_polls (S b) (mkChip m b w)).
  exact IH.
Qed.

Lemma chip_poll_status (m : Z -> byte) (b : nat) (w : bool) (fuel : nat)
    (idle : list Event) :
  (S b <= fuel)%nat ->
  poll_status fuel idle (mkChip m b w) =
  mkRun (Ret tt) (mkChip m 0 w) (poll_events idle (S b) (mkChip m b w)).
Proof.
  intros Hfuel.
  rewrite (poll_status_runs idle _ (S b) (chip_wip_clears m b w) fuel Hfuel).
  rewrite chip_after_polls. reflexivity.
Qed.

Lemma skipn_cons_nth {A : Type} (d : A) (l : list A) (a : nat) :
  (a < length l)%nat -> skipn a l = nth a l d :: skipn (S a) l.
Proof.
  revert l. induction a as [|a IH]; intros [|x l] Hl; cbn [length] in Hl; try lia.
  - reflexivity.
  - cbn [skipn nth]. apply IH. lia.
Qed.

(** Reading [n] bytes at [a] from a memory that holds [file] at address 0. *)
Lemma chip_read_file (m : Z -> byte) (file : list byte) :
  (forall i : nat, (i < length file)%nat -> m (Z.of_nat i) = nth i file x00) ->
  forall (n a : nat), (a + n <= length file)%nat ->
  chip_read m (Z.of_nat a) n = firstn n (skipn a file).
Proof.
  intros Hm. unfold chip_read. induction n as [|n IH]; intros a Ha; [reflexivity|].
  cbn [seq map]. rewrite (skipn_cons_nth x00 file a) by lia. cbn [firstn].
  f_equal.
  - rewrite Z.add_0_r. apply Hm. lia.
  - rewrite <- seq_shift, map_map, <- (IH (S a)) by lia.
    apply map_ext. intros i. f_equal. lia.
Qed.

Lemma chip_program_at (m : Z -> byte) (a : Z) (page : list byte) (x : Z) :
  chip_program m a (map byte_to_Z page) x =
  if (a <=? x) && (x <? a + len page)
  then nth (Z.to_nat (x - a)) page x00
  else m x.
Proof.
  unfold chip_program. unfold len at 1. rewrite length_map. fold (len page).
  destruct ((a <=? x) && (x <? a + len page)); [|reflexivity].
  change 0 with (byte_to_Z x00). rewrite map_nth.
  unfold byte_to_Z. rewrite N2Z.id, Byte.of_to_N. reflexivity.
Qed.

Lemma nth_page_split (f : list byte) (i : nat) :
  nth i f x00 =
  if (i <? length (firstn page_len f))%nat
  then nth i (firstn page_len f) x00
  else nth (i - length (firstn page_len f)) (skipn page_len f) x00.
Proof.
  rewrite <- (firstn_skipn page_len f) at 1.
  destruct (Nat.ltb_spec i (length (firstn page_len f))) as [Hlt|Hge].
  - apply app_nth1. exact Hlt.
  - apply app_nth2. lia.
Qed.

(** The page loop on the model: it ends, and the memory then holds the
    unread bytes of the file from [address] on and is unchanged elsewhere. *)
Lemma chip_write_pages (file_size total_pages : Z) :
  file_size <= 2 ^ 24 ->
  forall (k : nat) (f : list byte) (address page_count : Z)
         (m : Z -> byte) (b : nat) (w : bool) (fuel : nat),
  (length f <= k)%nat ->
  address + len f = file_size ->
  0 <= address ->
  (k + 4 <= fuel)%nat ->
  let r := write_pages fuel file_size total_pages f address page_count
             (mkChip m b w) in
  res r = Ret tt /\
  forall x : Z,
    mem (dev r) x =
    if (address <=? x) && (x <? address + len f)
    then nth (Z.to_nat (x - address)) f x00
    else m x.
Proof.
  intros Hmax. induction k as [|k IH];
    intros f address page_count m b w fuel Hk Hsize Hpos Hfuel r; subst r;
    (destruct fuel as [|fuel]; [lia|]); rewrite write_pages_step.
  - destruct f; [|cbn in Hk; lia].
    assert (E : (address <? file_size) = false)
      by (apply Z.ltb_ge; unfold len in Hsize; cbn [length] in Hsize; lia).
    rewrite E. cbn [res dev mem]. split; [reflexivity|].
    intros x. change (len (@nil byte)) with 0.
    destruct (Z.leb_spec address x), (Z.ltb_spec x (address + 0));
      try reflexivity; lia.
  - destruct f as [|b0 f'] eqn:Ef.
    { assert (E : (address <? file_size) = false)
        by (apply Z.ltb_ge; unfold len in Hsize; cbn [length] in Hsize; lia).
      rewrite E. cbn [res dev mem]. split; [reflexivity|].
      intros x. change (len (@nil byte)) with 0.
      destruct (Z.leb_spec address x), (Z.ltb_spec x (address + 0));
        try reflexivity; lia. }
    rewrite <- Ef in *.
    assert (Hlt : (address <? file_size) = true).
    { apply Z.ltb_lt. unfold len in Hsize. rewrite Ef in Hsize.
      cbn [length] in Hsize. lia. }
    pose proof page_len_256 as E256.
    assert (Hpage : nonempty (firstn page_len f) = true).
    { rewrite Ef. destruct page_len eqn:En; [lia | reflexivity]. }
    rewrite Hlt, Hpage. cbv zeta.
    set (page := firstn page_len f).
    assert (Hplen : 0 < len page <= len f).
    { subst page. unfold len. rewrite length_firstn. rewrite Ef. cbn [length]. lia. }
    assert (Haddr : 0 <= address < 2 ^ 24) by lia.
    (* write-enable, then the page program *)
    change (transfer (mkChip m b w) WRITE_ENABLE None)
      with (Some (@nil byte), mkChip m b true).
    cbn [fst snd].
    assert (Epp : transfer (mkChip m b true) (page_program_cmd address page) None
                  = (Some [], mkChip (chip_program m address (map byte_to_Z page))
                                     2 false)).
    { unfold page_program_cmd. cbn [app]. cbn [transfer chip_device chip_transfer].
      cbn [write_enabled mem]. rewrite (address_bytes_decode address Haddr).
      reflexivity. }
    rewrite Epp. cbn [fst snd].
    rewrite (chip_poll_status _ 2 false fuel [EvSleep 1]) by lia.
    cbn [res dev events].
    set (m1 := chip_program m address (map byte_to_Z page)).
    assert (Hshort : (length (skipn page_len f) <= k)%nat).
    { rewrite length_skipn. rewrite Ef in *. cbn [length] in *. lia. }
    assert (Hsize' : address + len page + len (skipn page_len f) = file_size).
    { rewrite <- Hsize. subst page. rewrite <- Z.add_assoc, <- len_app.
      rewrite firstn_skipn. reflexivity. }
    destruct (IH (skipn page_len f) (address + len page) (page_count + 1)
                m1 0%nat false fuel Hshort Hsize' ltac:(lia) ltac:(lia))
      as (Hres & Hmem).
    split; [exact Hres|].
    intros x. rewrite Hmem. subst m1. rewrite chip_program_at.
    assert (Hlens : len f = len page + len (skipn page_len f)).
    { subst page. rewrite <- len_app, firstn_skipn. reflexivity. }
    destruct (Z.leb_spec (address + len page) x) as [H1|H1];
      destruct (Z.ltb_spec x (address + len page + len (skipn page_len f))) as [H2|H2];
      destruct (Z.leb_spec address x) as [H3|H3];
      destruct (Z.ltb_spec x (address + len page)) as [H4|H4];
      destruct (Z.ltb_spec x (address + len f)) as [H5|H5];
      cbn [andb]; try lia; try reflexivity.
    + rewrite (nth_page_split f (Z.to_nat (x - address))). fold page.
      assert (Hge : (Z.to_nat (x - address) <? length page)%nat = false)
        by (apply Nat.ltb_ge; unfold len in *; lia).
      rewrite Hge. f_equal. unfold len in *. lia.
    + rewrite (nth_page_split f (Z.to_nat (x - address))). fold page.
      assert (Hl : (Z.to_nat (x - address) <? length page)%nat = true)
        by (apply Nat.ltb_lt; unfold len in *; lia).
      rewrite Hl. reflexivity.
Qed.

(** A read never changes the model, and returns what its memory holds. *)
Lemma chip_verify_reads (fuel : nat) :
  forall (file_size : Z) (f : list byte) (address : Z) (c : Chip),
  Forall (fun x => response x = fst (chip_transfer c (write_data x) (read_bytes x)))
         (xfers (events (verify_chunks fuel file_size f address c))) /\
  dev (verify_chunks fuel file_size f address c) = c.
Proof.
  induction fuel as [|fuel IH]; intros file_size f address c;
    [split; [constructor | reflexivity]|].
  rewrite verify_chunks_step.
  destruct (address <? file_size); [|split; [constructor | reflexivity]].
  destruct (firstn chunk_len f) as [|b l] eqn:E; [split; [constructor | reflexivity]|].
  cbv zeta.
  assert (Esame : snd (transfer c (read_cmd address) (Some (len (b :: l)))) = c)
    by reflexivity.
  destruct (resp_differs _ _).
  - cbn [events dev xfers]. split; [repeat constructor | exact Esame].
  - cbn [events dev xfers]. rewrite xfers_app, verify_progress_quiet. cbn [app].
    rewrite Esame. destruct (IH file_size (skipn chunk_len f)
                               (address + len (b :: l)) c) as (Hall & Hdev).
    split; [constructor; [reflexivity | exact Hall] | exact Hdev].
Qed.

(** On the model, a memory that holds the file passes verification. *)
Lemma chip_verify_passes (file : list byte) (c : Chip) (fuel : nat) :
  len file <= 2 ^ 24 ->
  (forall i : nat, (i < length file)%nat -> mem c (Z.of_nat i) = nth i file x00) ->
  (length file < fuel)%nat ->
  let r := verify_chunks fuel (len file) file 0 c in
  res r = Ret (Continue (len file)) /\ dev r = c.
Proof.
  intros Hmax Hmem Hfuel r. subst r.
  destruct (verify_pass_spec fuel file c Hfuel) as (fl & Hres & Hver).
  cbv zeta in Hres, Hver.
  destruct (chip_verify_reads fuel (len file) file 0 c) as (Hall & Hdev).
  split; [|exact Hdev]. rewrite Hres. f_equal.
  destruct fl as [a|v].
  - destruct (verified_continue file 0 _ _ Hver a eq_refl) as (-> & _). reflexivity.
  - exfalso.
    destruct (verified_return file 0 _ _ Hver v eq_refl)
      as (_ & j & x & Hj & Hbad & _).
    destruct (verified_nth file 0 _ _ Hver j x Hj) as (Hin & Hreq & _).
    cbn [Nat.add] in Hbad, Hin, Hreq.
    rewrite Forall_forall in Hall.
    pose proof (Hall x (nth_error_In _ _ Hj)) as Hx.
    unfold request in Hreq. injection Hreq as Hw Hr.
    rewrite Hw, Hr in Hx. apply Hbad. rewrite Hx.
    pose proof chunk_len_512 as E512.
    assert (Haddr : chunk_addr j = Z.of_nat (chunk_len * j))
      by (unfold chunk_addr; change verify_chunk with 512; lia).
    assert (Hrange : 0 <= chunk_addr j < 2 ^ 24) by (unfold len in Hmax; lia).
    unfold read_cmd. cbn [chip_transfer].
    rewrite (address_bytes_decode _ Hrange), Haddr.
    unfold len. rewrite Nat2Z.id.
    rewrite (chip_read_file (mem c) file Hmem).
    2:{ rewrite chunk_at_length. lia. }
    f_equal. unfold chunk_at. rewrite length_firstn.
    destruct (Nat.le_ge_cases chunk_len (length (skipn (chunk_len * j) file)))
      as [Hle|Hge].
    + rewrite Nat.min_l by exact Hle. reflexivity.
    + rewrite Nat.min_r by exact Hge.
      rewrite firstn_all, firstn_all2 by exact Hge. reflexivity.
Qed.

(** X12. On the flash model the writer and its verification agree: whatever
    the chip held, [write_spi_flash] with verification returns [True], and
    the chip then holds the file from address 0 on. *)
Theorem write_then_verify_on_chip (content : list byte) (flash_size speed : Z)
    (erase_chip : bool) (c : Chip) (fuel : nat) :
  len content <= flash_size ->
  len content <= 2 ^ 24 ->
  (length content + 8 <= fuel)%nat ->
  let r := write_spi_flash fuel (Some content) flash_size speed erase_chip true c in
  res r = Ret true /\
  forall i : nat, (i < length content)%nat ->
    mem (dev r) (Z.of_nat i) = nth i content x00.
Proof.
  intros Hfit Hmax Hfuel r. subst r.
  assert (Hfit' : (flash_size <? len content) = false) by (apply Z.ltb_ge; lia).
  assert (Hflash : forall (m : Z -> byte) (b : nat) (w : bool),
            let r := write_flash fuel content true (mkChip m b w) in
            res r = Ret true /\
            forall i : nat, (i < length content)%nat ->
              mem (dev r) (Z.of_nat i) = nth i content x00).
  { intros m b w. cbv zeta. unfold write_flash, print. run_step. rewrite run_bind.
    destruct (chip_write_pages (len content) ((len content + page_size - 1) / page_size)
                Hmax (length content) content 0 0 m b w fuel (le_n _) eq_refl
                ltac:(lia) ltac:(lia)) as (Hres & Hmem).
    cbv zeta in Hres, Hmem. rewrite Hres.
    set (wp := write_pages fuel (len content)
                 ((len content + page_size - 1) / page_size) content 0 0
                 (mkChip m b w)) in *.
    assert (Hholds : forall i : nat, (i < length content)%nat ->
              mem (dev wp) (Z.of_nat i) = nth i content x00).
    { intros i Hi. rewrite Hmem.
      assert (E : (0 <=? Z.of_nat i) && (Z.of_nat i <? 0 + len content) = true).
      { apply andb_true_iff. split; [apply Z.leb_le | apply Z.ltb_lt];
          unfold len; lia. }
      rewrite E. f_equal. lia. }
    do 2 run_step. rewrite run_bind.
    destruct (chip_verify_passes content (dev wp) fuel Hmax Hholds ltac:(lia))
      as (Hv & Hd).
    cbv zeta in Hv, Hd. rewrite Hv. run_step. cbn [res dev].
    rewrite Hd. split; [reflexivity | exact Hholds]. }
  unfold write_spi_flash, print. rewrite Hfit'.
  run_step. change (fst (configure c (spi_options speed))) with true.
  cbv iota. run_step.
  change (snd (configure c (spi_options speed))) with c.
  destruct c as [m b w]. destruct erase_chip.
  - rewrite run_bind.
    assert (Eerase : exists evs : list Event,
              erase_flash fuel (mkChip m b w) =
              mkRun (Ret true) (mkChip (fun _ => xff) 0 false) evs).
    { unfold erase_flash, print. do 3 run_step.
      change (transfer (mkChip m b w) WRITE_ENABLE None)
        with (Some (@nil byte), mkChip m b true).
      cbn [fst snd].
      change (transfer (mkChip m b true) CHIP_ERASE None)
        with (Some (@nil byte), mkChip (fun _ : Z => xff) 3 false).
      cbn [fst snd]. rewrite run_bind.
      rewrite (chip_poll_status _ 3 false fuel) by lia.
      cbn [res dev events]. eexists. reflexivity. }
    destruct Eerase as (evs & ->). cbn [res dev events negb].
    destruct (Hflash (fun _ => xff) 0%nat false) as (Hres & Hmem).
    split; [exact Hres | exact Hmem].
  - run_step. cbn [negb].
    destruct (Hflash m b w) as (Hres & Hmem).
    split; [exact Hres | exact Hmem].
Qed.

Lemma write_then_verify_on_chip_witness :
  let r := write_spi_flash 700 (Some pattern_600) 1024 12000000 true true blank_chip in
  res r = Ret true /\
  mem (dev r) 599 = xbb.
Proof.
  destruct (write_then_verify_on_chip pattern_600 1024 12000000 true blank_chip 700)
    as (Hres & Hmem).
  - vm_compute. discriminate.
  - vm_compute. discriminate.
  - vm_compute. lia.
  - split; [exact Hres|]. exact (Hmem 599%nat ltac:(vm_compute; lia)).
Defined.

(** ** Addresses beyond 24 bits *)

Lemma address_bytes_of_mod (a b : Z) :
  a mod 16777216 = b mod 16777216 ->
  Z.land (Z.shiftr a 16) 0xFF = Z.land (Z.shiftr b 16) 0xFF /\
  Z.land (Z.shiftr a 8) 0xFF = Z.land (Z.shiftr b 8) 0xFF /\
  Z.land a 0xFF = Z.land b 0xFF.
Proof.
  intros Hab.
  pose proof (address_bytes_mod a) as Ea. pose proof (address_bytes_mod b) as Eb.
  rewrite !land_255 in *.
  pose proof (Z.mod_pos_bound (Z.shiftr a 16) 256 ltac:(lia)).
  pose proof (Z.mod_pos_bound (Z.shiftr a 8) 256 ltac:(lia)).
  pose proof (Z.mod_pos_bound a 256 ltac:(lia)).
  pose proof (Z.mod_pos_bound (Z.shiftr b 16) 256 ltac:(lia)).
  pose proof (Z.mod_pos_bound (Z.shiftr b 8) 256 ltac:(lia)).
  pose proof (Z.mod_pos_bound b 256 ltac:(lia)).
  lia.
Qed.

(** X11. The read and page-program commands carry the address modulo [2^24]
    and nothing more: two addresses give the same command exactly when
    they agree modulo [2^24].  So the commands for the addresses from 16 MiB
    on are those of the first 16 MiB over again. *)
Theorem commands_carry_address_mod_16MiB (a b : Z) (page_data : list byte) :
  (read_cmd a = read_cmd b <-> a mod 2 ^ 24 = b mod 2 ^ 24) /\
  (page_program_cmd a page_data = page_program_cmd b page_data
   <-> a mod 2 ^ 24 = b mod 2 ^ 24) /\
  read_cmd (a + 2 ^ 24) = read_cmd a /\
  page_program_cmd (a + 2 ^ 24) page_data = page_program_cmd a page_data.
Proof.
  change (2 ^ 24) with 16777216.
  assert (Hwrap : (a + 16777216) mod 16777216 = a mod 16777216).
  { rewrite <- (Z.mul_1_l 16777216) at 1. apply Z.mod_add. lia. }
  assert (Hr : forall x y : Z, x mod 16777216 = y mod 16777216 -> read_cmd x = read_cmd y).
  { intros x y Hxy. destruct (address_bytes_of_mod x y Hxy) as (E2 & E1 & E0).
    unfold read_cmd. rewrite E2, E1, E0. reflexivity. }
  assert (Hp : forall x y : Z, x mod 16777216 = y mod 16777216 ->
                page_program_cmd x page_data = page_program_cmd y page_data).
  { intros x y Hxy. destruct (address_bytes_of_mod x y Hxy) as (E2 & E1 & E0).
    unfold page_program_cmd. rewrite E2, E1, E0. reflexivity. }
  split; [|split; [|split]].
  - split; [|apply Hr].
    intros E. unfold read_cmd in E. injection E as E2 E1 E0.
    rewrite <- (address_bytes_mod a), <- (address_bytes_mod b), E2, E1, E0.
    reflexivity.
  - split; [|apply Hp].
    intros E. unfold page_program_cmd in E. cbn [app] in E. injection E as E2 E1 E0.
    rewrite <- (address_bytes_mod a), <- (address_bytes_mod b), E2, E1, E0.
    reflexivity.
  - apply Hr. exact Hwrap.
  - apply Hp. exact Hwrap.
Qed.
